(** * Contact book and assistant bot: a shallow embedding

    The development follows the two Python sources
    [task_01_address_book.py] and [task_02_assistant_bot.py].  Both
    define the same classes ([Field], [Name], [Phone], [Birthday],
    [Record], [AddressBook]); they differ in [Record.add_phone] and
    [Record.edit_phone], and only the second one has the command handlers
    and the console loop.

    Conventions of the embedding.
    - A Python [str] is a Rocq [string]: a sequence of 8-bit characters,
      read as the code points 0..255.  On these, the regular expression
      class [\d] is exactly ['0'..'9'].
    - A Python [int] is a [Z].
    - A raised exception is a value of [exn]; a method is a function in
      the state-and-exception monad [SE], where the state reached before a
      [raise] is kept (Python does not roll mutations back).
    - Objects that are shared by reference (the [Record] objects held by
      the [AddressBook] dictionary) live in an object store, and the
      dictionary holds references to them. *)

From Stdlib Require Import ZArith List Bool Ascii String DecimalString Lia.
Import ListNotations.

Open Scope string_scope.
Open Scope list_scope.
Open Scope Z_scope.

Infix "+++" := String.append (right associativity, at level 60) : string_scope.

(** ** Exceptions and the state-and-exception monad *)

Inductive exn : Type :=
| ValueError (msg : string)
| KeyError
| IndexError
| OverflowError (msg : string)
| EOFError.

Definition SE (S A : Type) : Type := S -> (exn + A) * S.

Definition ret {S A : Type} (a : A) : SE S A := fun s => (inr a, s).

Definition raise {S A : Type} (e : exn) : SE S A := fun s => (inl e, s).

Definition bind {S A B : Type} (m : SE S A) (k : A -> SE S B) : SE S B :=
  fun s =>
    match m s with
    | (inl e, s') => (inl e, s')
    | (inr a, s') => k a s'
    end.

Definition gets {S A : Type} (f : S -> A) : SE S A := fun s => (inr (f s), s).

Definition modify {S : Type} (f : S -> S) : SE S unit := fun s => (inr tt, f s).

(** Lifting of a fallible pure computation (a constructor call, say). *)
Definition lift {S A : Type} (r : exn + A) : SE S A := fun s => (r, s).

Declare Scope se_scope.
Delimit Scope se_scope with se.
Notation "x <- m ;; k" := (bind m (fun x => k))
  (at level 61, m at next level, right associativity) : se_scope.
Notation "m ;;; k" := (bind m (fun _ => k))
  (at level 61, right associativity) : se_scope.
Open Scope se_scope.

(** ** A small backtracking matcher for the regular expressions in use

    [rmatch r s] lists, in the order in which a backtracking engine tries
    them, the ways [r] matches a prefix of [s]: the text consumed and the
    text left. *)

Inductive regex : Type :=
| Chr (c : ascii)
| Rng (lo hi : ascii)
| Dig
| Cat (r1 r2 : regex)
| Alt (r1 r2 : regex)
| Rep (n : nat) (r : regex).

Definition is_digit (c : ascii) : bool :=
  ((48 <=? nat_of_ascii c) && (nat_of_ascii c <=? 57))%nat.

Definition in_range (lo hi c : ascii) : bool :=
  ((nat_of_ascii lo <=? nat_of_ascii c) && (nat_of_ascii c <=? nat_of_ascii hi))%nat.

Definition match_char (p : ascii -> bool) (s : string) : list (string * string) :=
  match s with
  | String c rest => if p c then [(String c EmptyString, rest)] else []
  | EmptyString => []
  end.

Definition match_then (m1 m2 : string -> list (string * string)) (s : string)
  : list (string * string) :=
  flat_map (fun '(a, rest) => map (fun '(b, rest') => (a +++ b, rest')) (m2 rest)) (m1 s).

Fixpoint match_times (n : nat) (m : string -> list (string * string)) (s : string)
  : list (string * string) :=
  match n with
  | O => [(EmptyString, s)]
  | S n' => match_then m (match_times n' m) s
  end.

Fixpoint rmatch (r : regex) (s : string) : list (string * string) :=
  match r with
  | Chr c => match_char (Ascii.eqb c) s
  | Rng lo hi => match_char (in_range lo hi) s
  | Dig => match_char is_digit s
  | Cat r1 r2 => match_then (rmatch r1) (rmatch r2) s
  | Alt r1 r2 => rmatch r1 s ++ rmatch r2 s
  | Rep n r' => match_times n (rmatch r') s
  end.

(** [re.fullmatch]: some way of matching consumes the whole text. *)
Definition fullmatch (r : regex) (s : string) : bool :=
  existsb (fun '(_, rest) => String.eqb rest EmptyString) (rmatch r s).

(** ** The field classes *)

Module Phone.

Record t : Type := mk { value : string }.

(** [re.fullmatch(r"\d{10}", value)] *)
Definition _is_valid (value : string) : bool := fullmatch (Rep 10 Dig) value.

Definition __init__ (value : string) : exn + t :=
  if negb (_is_valid value)
  then inl (ValueError "Phone number must be 10 digits.")
  else inr (mk value).

End Phone.

(** ** Calendar dates: the part of Python's [datetime] module in use

    The definitions follow the reference implementation of the module
    (proleptic Gregorian calendar, ordinal 1 for 0001-01-01). *)

Record date : Type := mkdate { year : Z; month : Z; day : Z }.

Definition MINYEAR : Z := 1.
Definition MAXYEAR : Z := 9999.
Definition _MAXORDINAL : Z := 3652059.

Definition _is_leap (year : Z) : bool :=
  (year mod 4 =? 0) && (negb (year mod 100 =? 0) || (year mod 400 =? 0)).

Definition _DAYS_IN_MONTH (month : Z) : Z :=
  match month with
  | 1 => 31 | 2 => 28 | 3 => 31 | 4 => 30 | 5 => 31 | 6 => 30
  | 7 => 31 | 8 => 31 | 9 => 30 | 10 => 31 | 11 => 30 | 12 => 31
  | _ => -1
  end.

Definition _DAYS_BEFORE_MONTH (month : Z) : Z :=
  match month with
  | 1 => 0 | 2 => 31 | 3 => 59 | 4 => 90 | 5 => 120 | 6 => 151
  | 7 => 181 | 8 => 212 | 9 => 243 | 10 => 273 | 11 => 304 | 12 => 334
  | _ => -1
  end.

Definition _days_before_year (year : Z) : Z :=
  let y := year - 1 in
  y * 365 + y / 4 - y / 100 + y / 400.

Definition _days_in_month (year month : Z) : Z :=
  if (month =? 2) && _is_leap year then 29 else _DAYS_IN_MONTH month.

Definition _days_before_month (year month : Z) : Z :=
  _DAYS_BEFORE_MONTH month + (if (2 <? month) && _is_leap year then 1 else 0).

Definition _ymd2ord (year month day : Z) : Z :=
  _days_before_year year + _days_before_month year month + day.

Definition _DI400Y : Z := _days_before_year 401.
Definition _DI100Y : Z := _days_before_year 101.
Definition _DI4Y : Z := _days_before_year 5.

Definition _ord2ymd (n : Z) : Z * Z * Z :=
  let n := n - 1 in
  let n400 := n / _DI400Y in
  let n := n mod _DI400Y in
  let year := n400 * 400 + 1 in
  let n100 := n / _DI100Y in
  let n := n mod _DI100Y in
  let n4 := n / _DI4Y in
  let n := n mod _DI4Y in
  let n1 := n / 365 in
  let n := n mod 365 in
  let year := year + (n100 * 100 + n4 * 4 + n1) in
  if (n1 =? 4) || (n100 =? 4) then (year - 1, 12, 31)
  else
    let leapyear := (n1 =? 3) && (negb (n4 =? 24) || (n100 =? 3)) in
    let month := Z.shiftr (n + 50) 5 in
    let preceding :=
      _DAYS_BEFORE_MONTH month + (if (2 <? month) && leapyear then 1 else 0) in
    if n <? preceding then
      let month := month - 1 in
      let preceding :=
        preceding - (_DAYS_IN_MONTH month + (if (month =? 2) && leapyear then 1 else 0)) in
      (year, month, n - preceding + 1)
    else (year, month, n - preceding + 1).

(** The checks of the constructor [date(year, month, day)]; the messages
    of [new_date] are those of CPython's implementation in C. *)
Definition valid_date (d : date) : bool :=
  (MINYEAR <=? year d) && (year d <=? MAXYEAR)
  && (1 <=? month d) && (month d <=? 12)
  && (1 <=? day d) && (day d <=? _days_in_month (year d) (month d)).

Definition string_of_Z (z : Z) : string :=
  DecimalString.NilZero.string_of_int (Z.to_int z).

Definition new_date (year month day : Z) : exn + date :=
  if negb ((MINYEAR <=? year) && (year <=? MAXYEAR))
  then inl (ValueError ("year " +++ string_of_Z year +++ " is out of range"))
  else if negb ((1 <=? month) && (month <=? 12))
  then inl (ValueError "month must be in 1..12")
  else if negb ((1 <=? day) && (day <=? _days_in_month year month))
  then inl (ValueError "day is out of range for month")
  else inr (mkdate year month day).

(** [d.replace(year=y)] builds a new date from the fields. *)
Definition replace_year (d : date) (y : Z) : exn + date :=
  new_date y (month d) (day d).

Definition toordinal (d : date) : Z := _ymd2ord (year d) (month d) (day d).

Definition fromordinal (n : Z) : date :=
  let '(y, m, d) := _ord2ymd n in mkdate y m d.

(** [d.weekday()]: Monday is 0, Sunday is 6. *)
Definition weekday (d : date) : Z := (toordinal d + 6) mod 7.

(** [d1 < d2] compares the triples (year, month, day). *)
Definition date_ltb (d1 d2 : date) : bool :=
  (year d1 <? year d2)
  || ((year d1 =? year d2)
      && ((month d1 <? month d2)
          || ((month d1 =? month d2) && (day d1 <? day d2)))).

(** [(d1 - d2).days] *)
Definition days_between (d1 d2 : date) : Z := toordinal d1 - toordinal d2.

(** [d + timedelta(days=n)] *)
Definition date_add (d : date) (n : Z) : exn + date :=
  let o := toordinal d + n in
  if (0 <? o) && (o <=? _MAXORDINAL) then inr (fromordinal o)
  else inl (OverflowError "date value out of range").

(** Zero-padded decimal text of a non-negative number. *)
Fixpoint zeros (n : nat) : string :=
  match n with
  | O => EmptyString
  | S n' => String "0" (zeros n')
  end.

Definition zfill (width : nat) (z : Z) : string :=
  let s := string_of_Z z in
  zeros (width - String.length s) +++ s.

(** [d.strftime("%d.%m.%Y")].  The year is written with four digits; how
    Python pads the years below 1000 depends on the platform. *)
Definition strftime_dmY (d : date) : string :=
  zfill 2 (day d) +++ "." +++ zfill 2 (month d) +++ "." +++ zfill 4 (year d).

(** *** Parsing with [datetime.strptime(text, "%d.%m.%Y")]

    The format is turned into a regular expression with one group per
    directive; the first match of the text is taken, it has to consume the
    whole text, and the date is built from the numbers of the groups. *)

(** [%d]: [3[0-1]|[1-2]\d|0[1-9]|[1-9]| [1-9]] *)
Definition re_d : regex :=
  Alt (Cat (Chr "3") (Rng "0" "1"))
 (Alt (Cat (Rng "1" "2") Dig)
 (Alt (Cat (Chr "0") (Rng "1" "9"))
 (Alt (Rng "1" "9")
      (Cat (Chr " ") (Rng "1" "9"))))).

(** [%m]: [1[0-2]|0[1-9]|[1-9]] *)
Definition re_m : regex :=
  Alt (Cat (Chr "1") (Rng "0" "2"))
 (Alt (Cat (Chr "0") (Rng "1" "9"))
      (Rng "1" "9")).

(** [%Y]: [\d\d\d\d] *)
Definition re_Y : regex := Cat Dig (Cat Dig (Cat Dig Dig)).

(** The groups of every match of the format, in backtracking order, with
    the text left after the match. *)
Definition format_matches (data_string : string)
  : list (string * string * string * string) :=
  flat_map (fun '(d, r1) =>
  flat_map (fun '(_, r2) =>
  flat_map (fun '(m, r3) =>
  flat_map (fun '(_, r4) =>
  map (fun '(y, r5) => (d, m, y, r5)) (rmatch re_Y r4))
    (rmatch (Chr ".") r3))
    (rmatch re_m r2))
    (rmatch (Chr ".") r1))
    (rmatch re_d data_string).

(** [int(text)] on a group: decimal digits, possibly after a blank. *)
Fixpoint int_from (acc : Z) (s : string) : Z :=
  match s with
  | EmptyString => acc
  | String c rest =>
      if is_digit c
      then int_from (10 * acc + (Z.of_nat (nat_of_ascii c) - 48)) rest
      else int_from acc rest
  end.

Definition int (s : string) : Z := int_from 0 s.

(** The messages of the two parse failures are shortened: the only caller
    replaces them. *)
Definition strptime_dmY (data_string : string) : exn + date :=
  match format_matches data_string with
  | [] => inl (ValueError "time data does not match format")
  | (d, m, y, rest) :: _ =>
      if negb (String.eqb rest EmptyString)
      then inl (ValueError ("unconverted data remains: " +++ rest))
      else new_date (int y) (int m) (int d)
  end.

Module Birthday.

Record t : Type := mk { value : string; date : date }.

Definition __init__ (value : string) : exn + t :=
  match strptime_dmY value with
  | inr d => inr (mk value d)
  | inl (ValueError _) => inl (ValueError "Invalid date format. Use DD.MM.YYYY.")
  | inl e => inl e
  end.

End Birthday.

(** ** The class [Record]

    A method of a record is a computation on the record it is called on. *)

Record Record_ : Type :=
  mkRecord { name : string; phones : list Phone.t; birthday : option Birthday.t }.

Definition RM : Type -> Type := SE Record_.

Definition Record__init__ (name : string) : Record_ := mkRecord name [] None.

Definition set_phones (l : list Phone.t) (self : Record_) : Record_ :=
  mkRecord (name self) l (birthday self).

Definition set_birthday (b : option Birthday.t) (self : Record_) : Record_ :=
  mkRecord (name self) (phones self) b.

(** The loop of [find_phone]: the first phone with the given value. *)
Fixpoint first_with_value (phone_number : string) (l : list Phone.t)
  : option Phone.t :=
  match l with
  | [] => None
  | phone :: rest =>
      if String.eqb (Phone.value phone) phone_number then Some phone
      else first_with_value phone_number rest
  end.

Definition find_phone (phone_number : string) : RM (option Phone.t) :=
  gets (fun self => first_with_value phone_number (phones self)).

(** [list.remove(x)] drops the first element that is [x].  [Phone] has no
    [__eq__], so Python compares by identity; the object passed here is
    always the one [find_phone] returned, that is the first one with its
    value, which is also the first one equal to it as a value. *)
Fixpoint list_remove (x : Phone.t) (l : list Phone.t) : option (list Phone.t) :=
  match l with
  | [] => None
  | y :: rest =>
      if String.eqb (Phone.value y) (Phone.value x) then Some rest
      else option_map (cons y) (list_remove x rest)
  end.

Definition phones_remove (phone : Phone.t) : RM unit :=
  fun self =>
    match list_remove phone (phones self) with
    | Some l => (inr tt, set_phones l self)
    | None => (inl (ValueError "list.remove(x): x not in list"), self)
    end.

Definition phones_append (phone : Phone.t) : RM unit :=
  modify (fun self => set_phones (phones self ++ [phone]) self).

Definition remove_phone (phone_number : string) : RM unit :=
  phone <- find_phone phone_number ;;
  match phone with
  | Some phone => phones_remove phone
  | None => ret tt
  end.

Definition add_birthday (birthday_str : string) : RM unit :=
  b <- lift (Birthday.__init__ birthday_str) ;;
  modify (set_birthday (Some b)).

(** [Record.__str__] *)
Definition Record__str__ (self : Record_) : string :=
  let phones_str :=
    match phones self with
    | [] => "None"
    | _ => String.concat "; " (map Phone.value (phones self))
    end in
  let birthday_str :=
    match birthday self with
    | Some b => Birthday.value b
    | None => "None"
    end in
  "Contact name: " +++ name self +++ ", phones: " +++ phones_str
    +++ ", birthday: " +++ birthday_str.

(** *** The two variants of [add_phone] and [edit_phone] *)

Module Task01.

Definition add_phone (phone_number : string) : RM unit :=
  phone <- lift (Phone.__init__ phone_number) ;;
  phones_append phone.

Definition edit_phone (old_number new_number : string) : RM unit :=
  phone <- find_phone old_number ;;
  match phone with
  | Some phone =>
      phones_remove phone ;;;
      add_phone new_number
  | None => ret tt
  end.

End Task01.

Module Task02.

Definition add_phone (phone_number : string) : RM unit :=
  found <- find_phone phone_number ;;
  match found with
  | Some _ => raise (ValueError ("Phone " +++ phone_number +++ " already exists."))
  | None =>
      phone <- lift (Phone.__init__ phone_number) ;;
      phones_append phone
  end.

Definition edit_phone (old_number new_number : string) : RM unit :=
  phone <- find_phone old_number ;;
  match phone with
  | Some phone =>
      add_phone new_number ;;;
      phones_remove phone
  | None => ret tt
  end.

End Task02.

(** *** Sequences of phone operations on one record *)

Inductive op : Type :=
| Add_phone (phone_number : string)
| Remove_phone (phone_number : string)
| Edit_phone (old_number new_number : string).

Section Operations.

Variable add_phone : string -> RM unit.
Variable edit_phone : string -> string -> RM unit.

Definition exec_op (o : op) : RM unit :=
  match o with
  | Add_phone n => add_phone n
  | Remove_phone n => remove_phone n
  | Edit_phone old new => edit_phone old new
  end.

(** The record after the operations, whether each one returned or raised. *)
Fixpoint run_ops (ops : list op) (self : Record_) : Record_ :=
  match ops with
  | [] => self
  | o :: rest => run_ops rest (snd (exec_op o self))
  end.

End Operations.

(** ** The class [AddressBook]

    [self.data] is an insertion-ordered dictionary from names to record
    objects.  The records are shared with the code that created or found
    them, so the dictionary holds references into an object store. *)

Definition ref : Type := nat.

Record world : Type :=
  mkWorld { store : ref -> Record_; next : ref; data : list (string * ref) }.

Definition M : Type -> Type := SE world.

Definition empty_world : world :=
  mkWorld (fun _ => Record__init__ EmptyString) O [].

(** [Record(name)]: a new object. *)
Definition new_Record (name : string) : M ref :=
  fun w =>
    (inr (next w),
     mkWorld (fun r => if Nat.eqb r (next w) then Record__init__ name else store w r)
             (S (next w)) (data w)).

(** A method call [record.m(...)] on the object behind a reference. *)
Definition on {A : Type} (record : ref) (m : RM A) : M A :=
  fun w =>
    let '(res, self') := m (store w record) in
    (res, mkWorld (fun r => if Nat.eqb r record then self' else store w r)
                  (next w) (data w)).

Fixpoint dict_get (key : string) (d : list (string * ref)) : option ref :=
  match d with
  | [] => None
  | (k, v) :: rest => if String.eqb k key then Some v else dict_get key rest
  end.

(** [d[key] = v]: an existing key keeps its place, a new one goes last. *)
Fixpoint dict_set (key : string) (v : ref) (d : list (string * ref))
  : list (string * ref) :=
  match d with
  | [] => [(key, v)]
  | (k, x) :: rest =>
      if String.eqb k key then (k, v) :: rest else (k, x) :: dict_set key v rest
  end.

Fixpoint dict_del (key : string) (d : list (string * ref)) : list (string * ref) :=
  match d with
  | [] => []
  | (k, x) :: rest =>
      if String.eqb k key then rest else (k, x) :: dict_del key rest
  end.

Definition add_record (record : ref) : M unit :=
  modify (fun w =>
    mkWorld (store w) (next w) (dict_set (name (store w record)) record (data w))).

Definition find (name : string) : M (option ref) :=
  gets (fun w => dict_get name (data w)).

Definition delete (name : string) : M unit :=
  modify (fun w =>
    match dict_get name (data w) with
    | Some _ => mkWorld (store w) (next w) (dict_del name (data w))
    | None => w
    end).

(** [self.data.values()], in iteration order. *)
Definition values (w : world) : list Record_ :=
  map (fun kv => store w (snd kv)) (data w).

(** *** [get_upcoming_birthdays]

    The entries of the result are the dictionaries with the keys ["name"]
    and ["congratulation_date"].  The local list [upcoming_birthdays] is
    the state of the loop. *)

Record item : Type := mkitem { item_name : string; congratulation_date : string }.

Fixpoint for_each {S A : Type} (body : A -> SE S unit) (l : list A) : SE S unit :=
  match l with
  | [] => ret tt
  | x :: rest => body x ;;; for_each body rest
  end.

Definition upcoming_body (today : date) (record : Record_) : SE (list item) unit :=
  match birthday record with
  | Some b =>
      let birthday := Birthday.date b in
      birthday_this_year <- lift (replace_year birthday (year today)) ;;
      birthday_this_year <-
        (if date_ltb birthday_this_year today
         then lift (replace_year birthday_this_year (year today + 1))
         else ret birthday_this_year) ;;
      let delta_days := days_between birthday_this_year today in
      if (0 <=? delta_days) && (delta_days <=? 7) then
        congratulation_date <-
          (if weekday birthday_this_year =? 5
           then lift (date_add birthday_this_year 2)
           else if weekday birthday_this_year =? 6
           then lift (date_add birthday_this_year 1)
           else ret birthday_this_year) ;;
        let congratulation_date_str := strftime_dmY congratulation_date in
        modify (fun upcoming_birthdays =>
          upcoming_birthdays ++ [mkitem (name record) congratulation_date_str])
      else ret tt
  | None => ret tt
  end.

(** The method on the records the dictionary iterates over; [today] is
    the value of [date.today()] at the call. *)
Definition upcoming_birthdays_of (today : date) (records : list Record_)
  : exn + list item :=
  match for_each (upcoming_body today) records [] with
  | (inl e, _) => inl e
  | (inr _, upcoming_birthdays) => inr upcoming_birthdays
  end.

Definition get_upcoming_birthdays (today : date) : M (list item) :=
  fun w => (upcoming_birthdays_of today (values w), w).

(** ** The bot of [task_02_assistant_bot.py] *)

Module Bot.

(** The decorator [input_error]; [str(e)] of a [ValueError] raised with
    one text is that text. *)
Definition input_error {A : Type} (func : A -> M string) : A -> M string :=
  fun args w =>
    match func args w with
    | (inl KeyError, w') => (inr "Enter user name.", w')
    | (inl (ValueError msg), w') => (inr msg, w')
    | (inl IndexError, w') => (inr "Enter a command and necessary arguments.", w')
    | other => other
    end.

(** Unpacking [x1, ..., xn, *_ = args] raises a [ValueError] when the
    list is too short. *)
Definition not_enough (expected : Z) (got : nat) : exn :=
  ValueError ("not enough values to unpack (expected at least "
              +++ string_of_Z expected +++ ", got "
              +++ string_of_Z (Z.of_nat got) +++ ")").

Definition unpack1 (args : list string) : M string :=
  match args with
  | x :: _ => ret x
  | _ => raise (not_enough 1 (List.length args))
  end.

Definition unpack2 (args : list string) : M (string * string) :=
  match args with
  | x :: y :: _ => ret (x, y)
  | _ => raise (not_enough 2 (List.length args))
  end.

Definition unpack3 (args : list string) : M (string * string * string) :=
  match args with
  | x :: y :: z :: _ => ret (x, y, z)
  | _ => raise (not_enough 3 (List.length args))
  end.

Definition nonempty (s : string) : bool := negb (String.eqb s EmptyString).

Definition add_contact_body (args : list string) : M string :=
  a <- unpack2 args ;;
  let '(name, phone) := a in
  record <- find name ;;
  rm <- match record with
        | None =>
            record <- new_Record name ;;
            add_record record ;;;
            ret (record, "Contact added.")
        | Some record => ret (record, "Contact updated.")
        end ;;
  let '(record, message) := rm in
  (if nonempty phone then on record (Task02.add_phone phone) else ret tt) ;;;
  ret message.

Definition add_contact : list string -> M string := input_error add_contact_body.

Definition change_contact_body (args : list string) : M string :=
  a <- unpack3 args ;;
  let '(name, old_phone, new_phone) := a in
  record <- find name ;;
  match record with
  | None => ret "Contact not found."
  | Some record =>
      on record (Task02.edit_phone old_phone new_phone) ;;;
      ret ("Phone number updated for " +++ name +++ ".")
  end.

Definition change_contact : list string -> M string :=
  input_error change_contact_body.

Definition show_phone_body (args : list string) : M string :=
  name <- unpack1 args ;;
  record <- find name ;;
  match record with
  | None => ret "Contact not found."
  | Some record =>
      l <- on record (gets phones) ;;
      match l with
      | [] => ret (name +++ " has no phone numbers.")
      | _ => ret (name +++ ": " +++ String.concat "; " (map Phone.value l))
      end
  end.

Definition show_phone : list string -> M string := input_error show_phone_body.

Definition show_all : M string :=
  fun w =>
    match data w with
    | [] => (inr "No contacts available.", w)
    | _ => (inr (String.concat (String "010" EmptyString)
                   (map Record__str__ (values w))), w)
    end.

Definition add_birthday_body (args : list string) : M string :=
  a <- unpack2 args ;;
  let '(name, birthday_str) := a in
  record <- find name ;;
  match record with
  | None => ret ("Contact " +++ name +++ " not found. Add the contact first.")
  | Some record =>
      on record (add_birthday birthday_str) ;;;
      ret ("Birthday added for " +++ name +++ ".")
  end.

Definition add_birthday : list string -> M string :=
  input_error add_birthday_body.

Definition show_birthday_body (args : list string) : M string :=
  name <- unpack1 args ;;
  record <- find name ;;
  match record with
  | None => ret ("Contact " +++ name +++ " not found.")
  | Some record =>
      b <- on record (gets birthday) ;;
      match b with
      | Some b => ret (name +++ "'s birthday is " +++ Birthday.value b)
      | None => ret ("No birthday set for " +++ name +++ ".")
      end
  end.

Definition show_birthday : list string -> M string :=
  input_error show_birthday_body.

Definition birthdays_body (today : date) (args : list string) : M string :=
  upcoming <- get_upcoming_birthdays today ;;
  match upcoming with
  | [] => ret "No upcoming birthdays this week."
  | _ =>
      ret (String.concat (String "010" EmptyString)
             (map (fun item =>
                     item_name item +++ " should be congratulated on "
                       +++ congratulation_date item)
                  upcoming))
  end.

Definition birthdays (today : date) : list string -> M string :=
  input_error (birthdays_body today).

(** *** The console loop *)

(** The characters [str.split()] and [str.strip()] treat as blanks. *)
Definition is_space (c : ascii) : bool :=
  let n := nat_of_ascii c in
  (((9 <=? n) && (n <=? 13)) || ((28 <=? n) && (n <=? 32))
   || (n =? 133) || (n =? 160))%nat.

Fixpoint split_from (tok : string) (s : string) : list string :=
  match s with
  | EmptyString => if nonempty tok then [tok] else []
  | String c rest =>
      if is_space c
      then (if nonempty tok then tok :: split_from EmptyString rest
            else split_from EmptyString rest)
      else split_from (tok +++ String c EmptyString) rest
  end.

(** [s.split()] *)
Definition split (s : string) : list string := split_from EmptyString s.

Fixpoint lstrip (s : string) : string :=
  match s with
  | String c rest => if is_space c then lstrip rest else s
  | EmptyString => EmptyString
  end.

Fixpoint rstrip (s : string) : string :=
  match s with
  | String c rest =>
      let rest' := rstrip rest in
      if is_space c && negb (nonempty rest') then EmptyString
      else String c rest'
  | EmptyString => EmptyString
  end.

Definition strip (s : string) : string := rstrip (lstrip s).

Definition lower_char (c : ascii) : ascii :=
  let n := nat_of_ascii c in
  if (((65 <=? n) && (n <=? 90))
      || ((192 <=? n) && (n <=? 222) && negb (n =? 215)))%nat
  then ascii_of_nat (n + 32)
  else c.

Fixpoint lower (s : string) : string :=
  match s with
  | String c rest => String (lower_char c) (lower rest)
  | EmptyString => EmptyString
  end.

(** [cmd, *args = user_input.split()] raises on a text of blanks only. *)
Definition parse_input (user_input : string) : exn + (string * list string) :=
  match split user_input with
  | cmd :: args => inr (lower (strip cmd), args)
  | [] => inl (not_enough 1 O)
  end.

Inductive control : Type := Continue | Break.

(** One turn of [while True]: the line printed and how the loop goes on.
    [user_input] is what [input] returned. *)
Definition main_iteration (today : date) (user_input : string)
  : M (control * string) :=
  if negb (nonempty user_input) then ret (Continue, "Please enter a command.")
  else
    p <- lift (parse_input user_input) ;;
    let '(command, args) := p in
    if String.eqb command "close" || String.eqb command "exit"
    then ret (Break, "Good bye!")
    else if String.eqb command "hello"
    then ret (Continue, "How can I help you?")
    else if String.eqb command "add"
    then out <- add_contact args ;; ret (Continue, out)
    else if String.eqb command "change"
    then out <- change_contact args ;; ret (Continue, out)
    else if String.eqb command "phone"
    then out <- show_phone args ;; ret (Continue, out)
    else if String.eqb command "all"
    then out <- show_all ;; ret (Continue, out)
    else if String.eqb command "add-birthday"
    then out <- add_birthday args ;; ret (Continue, out)
    else if String.eqb command "show-birthday"
    then out <- show_birthday args ;; ret (Continue, out)
    else if String.eqb command "birthdays"
    then out <- birthdays today args ;; ret (Continue, out)
    else ret (Continue, "Invalid command. Choose from: hello, add, change, phone, all, add-birthday, show-birthday, birthdays, close, exit.").

(** The loop over the lines the console delivers; [input] raises
    [EOFError] when there is none left.  The result is what was printed
    and the exception that ended the loop, if one did. *)
Fixpoint main_loop (today : date) (inputs : list string) (book : world)
  : list string * option exn :=
  match inputs with
  | [] => ([], Some EOFError)
  | user_input :: rest =>
      match main_iteration today user_input book with
      | (inl e, _) => ([], Some e)
      | (inr (Break, out), _) => ([out], None)
      | (inr (Continue, out), book') =>
          let '(outs, e) := main_loop today rest book' in (out :: outs, e)
      end
  end.

Definition main (today : date) (inputs : list string) : list string * option exn :=
  let '(outs, e) := main_loop today inputs empty_world in
  ("Welcome to the assistant bot!" :: outs, e).

End Bot.

(** * Specification *)

(** ** Notions of the specification *)

Fixpoint all_digits (s : string) : bool :=
  match s with
  | EmptyString => true
  | String c rest => is_digit c && all_digits rest
  end.

(** A 10-digit numeric string: exactly ten decimal digits. *)
Definition ten_digits (s : string) : bool :=
  (String.length s =? 10)%nat && all_digits s.

(** The phone numbers of a record, as texts. *)
Definition phone_numbers (self : Record_) : list string :=
  map Phone.value (phones self).

(** Every phone of the record is a 10-digit numeric string. *)
Definition phones_valid (self : Record_) : Prop :=
  Forall (fun phone => ten_digits (Phone.value phone) = true) (phones self).

(** The date with the given fields, when there is one. *)
Definition calendar_date (y m d : Z) : option date :=
  if valid_date (mkdate y m d) then Some (mkdate y m d) else None.

(** The next occurrence of a birthday: this year's occurrence of its month
    and day, rolled to next year's when it is strictly before today. *)
Definition next_occurrence (today birthday : date) : option date :=
  match calendar_date (year today) (month birthday) (day birthday) with
  | Some occ =>
      if date_ltb occ today
      then calendar_date (year today + 1) (month birthday) (day birthday)
      else Some occ
  | None => None
  end.

(** [occ] lies in the inclusive window from [today] to seven days later;
    days are counted by their ordinal. *)
Definition in_window (today occ : date) : bool :=
  (toordinal today <=? toordinal occ) && (toordinal occ <=? toordinal today + 7).

(** The date [n] days after [d]. *)
Definition plus_days (d : date) (n : Z) : date := fromordinal (toordinal d + n).

(** The congratulation date of an occurrence: a Saturday moves two days,
    a Sunday one day, another day stays. *)
Definition shift_weekend (occ : date) : date :=
  if weekday occ =? 5 then plus_days occ 2
  else if weekday occ =? 6 then plus_days occ 1
  else occ.

(** The occurrence for which a record is reported, if it is. *)
Definition qualifying (today : date) (record : Record_) : option date :=
  match birthday record with
  | Some b =>
      match next_occurrence today (Birthday.date b) with
      | Some occ => if in_window today occ then Some occ else None
      | None => None
      end
  | None => None
  end.

(** What the result holds for one record, and for the records in order. *)
Definition expected_item (today : date) (record : Record_) : list item :=
  match qualifying today record with
  | Some occ => [mkitem (name record) (strftime_dmY (shift_weekend occ))]
  | None => []
  end.

Definition expected_items (today : date) (records : list Record_) : list item :=
  flat_map (expected_item today) records.

(** The record has no birthday, or its birthday has a next occurrence. *)
Definition occurrence_defined (today : date) (record : Record_) : bool :=
  match birthday record with
  | Some b =>
      match next_occurrence today (Birthday.date b) with
      | Some _ => true
      | None => false
      end
  | None => true
  end.

(** The last steps of [_ord2ymd]: month and day of the [n]-th day of a
    year, counted from 0. *)
Definition month_day (leapyear : bool) (n : Z) : Z * Z :=
  let month := Z.shiftr (n + 50) 5 in
  let preceding :=
    _DAYS_BEFORE_MONTH month + (if (2 <? month) && leapyear then 1 else 0) in
  if n <? preceding then
    let month := month - 1 in
    let preceding :=
      preceding - (_DAYS_IN_MONTH month + (if (month =? 2) && leapyear then 1 else 0)) in
    (month, n - preceding + 1)
  else (month, n - preceding + 1).

(** The scenario of the specification: today is Monday 2024-07-15, Jane
    was born on 14.07.1995, Mark on 19.07.1995 and John on 20.07.1990. *)
Definition scenario_today : date := mkdate 2024 7 15.

Definition scenario_book : world :=
  mkWorld
    (fun r =>
       match r with
       | O => mkRecord "Jane" [] (Some (Birthday.mk "14.07.1995" (mkdate 1995 7 14)))
       | S O => mkRecord "Mark" [] (Some (Birthday.mk "19.07.1995" (mkdate 1995 7 19)))
       | _ => mkRecord "John" [] (Some (Birthday.mk "20.07.1990" (mkdate 1990 7 20)))
       end)
    3%nat [("Jane", 0%nat); ("Mark", 1%nat); ("John", 2%nat)].

(** A book with one contact, who has one phone and no birthday. *)
Definition phone_book : world :=
  mkWorld (fun _ => mkRecord "Jane" [Phone.mk "1234567890"] None)
          1%nat [("Jane", 0%nat)].

(** A book with a birthday on 29 February, and a day of a common year. *)
Definition leap_day_today : date := mkdate 2023 3 1.

Definition leap_day_book : world :=
  mkWorld
    (fun r =>
       match r with
       | O => mkRecord "Bob" [] (Some (Birthday.mk "01.03.1990" (mkdate 1990 3 1)))
       | _ => mkRecord "Ann" [] (Some (Birthday.mk "29.02.2000" (mkdate 2000 2 29)))
       end)
    2%nat [("Bob", 0%nat); ("Ann", 1%nat)].

(** Every record of the store holds valid phones only. *)
Definition store_valid (w : world) : Prop := forall r, phones_valid (store w r).

(** A computation on the book that keeps the phones of the store valid,
    whether it returns or raises. *)
Definition keeps_valid {A : Type} (m : M A) : Prop :=
  forall w, store_valid w -> store_valid (snd (m w)).

(** The date a text in the form DD.MM.YYYY denotes: two digits, a dot,
    two digits, a dot and four digits. *)
Definition digit_value (c : ascii) : Z := Z.of_nat (nat_of_ascii c) - 48.

Definition read_DDMMYYYY (s : string) : option date :=
  match s with
  | String d1 (String d2 (String p1 (String m1 (String m2 (String p2
      (String y1 (String y2 (String y3 (String y4 EmptyString))))))))) =>
      if forallb is_digit [d1; d2; m1; m2; y1; y2; y3; y4]
         && Ascii.eqb p1 "." && Ascii.eqb p2 "."
      then Some (mkdate (1000 * digit_value y1 + 100 * digit_value y2
                         + 10 * digit_value y3 + digit_value y4)
                        (10 * digit_value m1 + digit_value m2)
                        (10 * digit_value d1 + digit_value d2))
      else None
  | _ => None
  end.

(** The message [input_error] returns for an exception it catches. *)
Definition caught_message (e : exn) : option string :=
  match e with
  | KeyError => Some "Enter user name."
  | ValueError msg => Some msg
  | IndexError => Some "Enter a command and necessary arguments."
  | _ => None
  end.

(** The bodies of the handlers the decorator wraps. *)
Definition handler_bodies (today : date) : list (list string -> M string) :=
  [Bot.add_contact_body; Bot.change_contact_body; Bot.show_phone_body;
   Bot.add_birthday_body; Bot.show_birthday_body; Bot.birthdays_body today].

(** The command words of [main] that call a decorated handler, each with
    the body of the handler it calls. *)
Definition command_bodies (today : date)
  : list (string * (list string -> M string)) :=
  [("add", Bot.add_contact_body); ("change", Bot.change_contact_body);
   ("phone", Bot.show_phone_body); ("add-birthday", Bot.add_birthday_body);
   ("show-birthday", Bot.show_birthday_body);
   ("birthdays", Bot.birthdays_body today)].

(** The command word of a line is [close] or [exit]. *)
Definition is_exit (user_input : string) : Prop :=
  exists args,
    Bot.parse_input user_input = inr ("close", args)
    \/ Bot.parse_input user_input = inr ("exit", args).

(** A line after which [main] reads the next one when no handler stops
    the loop: the empty line, or a line with a command word other than
    [close] and [exit]. *)
Definition reads_on (user_input : string) : bool :=
  negb (Bot.nonempty user_input)
  || match Bot.parse_input user_input with
     | inr (command, _) =>
         negb (String.eqb command "close" || String.eqb command "exit")
     | inl _ => false
     end.

(** The records of the book that qualify, in the order of the book. *)
Definition qualifying_records (today : date) (w : world) : list Record_ :=
  filter (fun record =>
            match qualifying today record with Some _ => true | None => false end)
         (values w).

(** The least and the greatest length of a text a regular expression
    matches. *)
Fixpoint re_min (r : regex) : nat :=
  match r with
  | Chr _ | Rng _ _ | Dig => 1
  | Cat r1 r2 => re_min r1 + re_min r2
  | Alt r1 r2 => Nat.min (re_min r1) (re_min r2)
  | Rep n r' => n * re_min r'
  end.

Fixpoint re_max (r : regex) : nat :=
  match r with
  | Chr _ | Rng _ _ | Dig => 1
  | Cat r1 r2 => re_max r1 + re_max r2
  | Alt r1 r2 => Nat.max (re_max r1) (re_max r2)
  | Rep n r' => n * re_max r'
  end.

(** A number is written by [zfill] as [width] digits that read back as
    the number; the check runs over [fuel] numbers from [z]. *)
Fixpoint digits_value (acc : Z) (s : string) : option Z :=
  match s with
  | EmptyString => Some acc
  | String c rest =>
      if is_digit c then digits_value (10 * acc + digit_value c) rest else None
  end.

Definition zfill_reads_back (width : nat) (z : Z) : bool :=
  (String.length (zfill width z) =? width)%nat
  && match digits_value 0 (zfill width z) with
     | Some v => v =? z
     | None => false
     end.

Fixpoint holds_from (f : Z -> bool) (fuel : nat) (z : Z) : bool :=
  match fuel with
  | O => true
  | S fuel' => if f z then holds_from f fuel' (z + 1) else false
  end.

(** Two states of the book that cannot be told apart: the same
    dictionary, and the same record behind every reference. *)
Definition same_book (w w' : world) : Prop :=
  data w' = data w /\ next w' = next w /\ forall r, store w' r = store w r.

(** A text of blanks only, and a text without any blank. *)
Fixpoint all_blank (s : string) : bool :=
  match s with
  | EmptyString => true
  | String c rest => Bot.is_space c && all_blank rest
  end.

Fixpoint blank_free (s : string) : bool :=
  match s with
  | EmptyString => true
  | String c rest => negb (Bot.is_space c) && blank_free rest
  end.

(** The book is well formed: its names are distinct, every entry is
    filed under the name of its record, the records of different names
    are different objects, and every reference is to an object that was
    created. *)
Definition book_wf (w : world) : Prop :=
  NoDup (map fst (data w))
  /\ NoDup (map snd (data w))
  /\ forall k r, In (k, r) (data w) -> name (store w r) = k /\ (r < next w)%nat.

(** A computation on the book that keeps the book well formed, whether
    it returns or raises. *)
Definition keeps_wf {A : Type} (m : M A) : Prop :=
  forall w, book_wf w -> book_wf (snd (m w)).

(** A text without a line feed. *)
Fixpoint one_line (s : string) : bool :=
  match s with
  | EmptyString => true
  | String c rest => negb (Ascii.eqb c "010") && one_line rest
  end.

(** * Properties *)

(** ** Phone validation *)

Lemma existsb_left_map (f : string * string -> bool) (a : string)
      (l : list (string * string)) :
  (forall b rest, f (a +++ b, rest) = f (b, rest)) ->
  existsb f (map (fun '(b, rest) => (a +++ b, rest)) l) = existsb f l.
Proof.
  intros Hf. induction l as [|[b rest] l IH]; simpl.
  - reflexivity.
  - now rewrite Hf, IH.
Qed.

Lemma fullmatch_digits (n : nat) (s : string) :
  fullmatch (Rep n Dig) s = (String.length s =? n)%nat && all_digits s.
Proof.
  unfold fullmatch. simpl rmatch.
  revert s. induction n as [|n IH]; intros s.
  - destruct s; reflexivity.
  - destruct s as [|c s]; [reflexivity|].
    cbn [match_times String.length all_digits Nat.eqb].
    unfold match_then. cbn [match_char].
    destruct (is_digit c); cbn [flat_map].
    + rewrite app_nil_r, existsb_left_map by reflexivity.
      apply IH.
    + now rewrite andb_false_r.
Qed.

Lemma _is_valid_spec (value : string) : Phone._is_valid value = ten_digits value.
Proof. apply fullmatch_digits. Qed.

(** ** The phone list of a record *)

Lemma first_with_value_none (n : string) (l : list Phone.t) :
  first_with_value n l = None <-> ~ In n (map Phone.value l).
Proof.
  induction l as [|p l IH]; simpl.
  - tauto.
  - destruct (String.eqb_spec (Phone.value p) n) as [E|E].
    + split; [discriminate | intros H; exfalso; apply H; now left].
    + rewrite IH. tauto.
Qed.

Lemma first_with_value_some (n : string) (l : list Phone.t) (p : Phone.t) :
  first_with_value n l = Some p -> In p l /\ Phone.value p = n.
Proof.
  induction l as [|q l IH]; simpl; [discriminate|].
  destruct (String.eqb_spec (Phone.value q) n) as [E|E].
  - intros [= <-]. auto.
  - intros H. destruct (IH H). auto.
Qed.

Lemma first_with_value_in (n : string) (l : list Phone.t) :
  In n (map Phone.value l) -> exists p, first_with_value n l = Some p.
Proof.
  intros H. destruct (first_with_value n l) as [p|] eqn:E; [eauto|].
  apply first_with_value_none in E. contradiction.
Qed.

Lemma list_remove_incl (x : Phone.t) (l l' : list Phone.t) :
  list_remove x l = Some l' -> incl l' l.
Proof.
  revert l'. induction l as [|y l IH]; simpl; intros l'; [discriminate|].
  destruct (String.eqb (Phone.value y) (Phone.value x)).
  - intros [= <-]. apply incl_tl, incl_refl.
  - destruct (list_remove x l) as [l0|]; simpl; [|discriminate].
    intros [= <-]. apply incl_cons; [now left|].
    apply incl_tl. now apply IH.
Qed.

Lemma list_remove_found (n : string) (l : list Phone.t) (p : Phone.t) :
  first_with_value n l = Some p -> exists l', list_remove p l = Some l'.
Proof.
  induction l as [|q l IH]; simpl; [discriminate|].
  destruct (String.eqb_spec (Phone.value q) n) as [E|E].
  - intros [= <-]. rewrite String.eqb_refl. eauto.
  - intros H. destruct (first_with_value_some _ _ _ H) as [_ Hp].
    destruct (String.eqb_spec (Phone.value q) (Phone.value p)) as [E'|E'];
      [eauto|].
    destruct (IH H) as [l' ->]. simpl. eauto.
Qed.

(** Removing from [l ++ [x]] the phone found in [l] leaves [x] in place. *)
Lemma list_remove_app (n : string) (l : list Phone.t) (p x : Phone.t) :
  first_with_value n l = Some p ->
  exists l', list_remove p l = Some l'
             /\ list_remove p (l ++ [x]) = Some (l' ++ [x]).
Proof.
  induction l as [|q l IH]; simpl; [discriminate|].
  destruct (String.eqb_spec (Phone.value q) n) as [E|E].
  - intros [= <-]. rewrite String.eqb_refl. eauto.
  - intros H.
    destruct (String.eqb_spec (Phone.value q) (Phone.value p)) as [E'|E'];
      [eauto|].
    destruct (IH H) as [l' [-> ->]]. simpl. eauto.
Qed.

Lemma set_phones_same (self : Record_) : set_phones (phones self) self = self.
Proof. now destruct self. Qed.

(** *** The outcomes of [add_phone] *)

Lemma task01_add_phone_eq (n : string) (self : Record_) :
  Task01.add_phone n self =
  if ten_digits n
  then (inr tt, set_phones (phones self ++ [Phone.mk n]) self)
  else (inl (ValueError "Phone number must be 10 digits."), self).
Proof.
  unfold Task01.add_phone, bind, lift, Phone.__init__.
  rewrite _is_valid_spec. now destruct (ten_digits n).
Qed.

Lemma task02_add_phone_eq (n : string) (self : Record_) :
  Task02.add_phone n self =
  match first_with_value n (phones self) with
  | Some _ => (inl (ValueError ("Phone " +++ n +++ " already exists.")), self)
  | None =>
      if ten_digits n
      then (inr tt, set_phones (phones self ++ [Phone.mk n]) self)
      else (inl (ValueError "Phone number must be 10 digits."), self)
  end.
Proof.
  unfold Task02.add_phone, bind, find_phone, gets, lift, Phone.__init__.
  rewrite _is_valid_spec.
  destruct (first_with_value n (phones self)); [reflexivity|].
  now destruct (ten_digits n).
Qed.

(** C1 (as amended).  In the variant of task 01, [add_phone] appends every
    10-digit numeric string and rejects every other string with a
    [ValueError], leaving the phone list as it was.  In the variant of
    task 02 the same holds for the numbers that are not on the record yet;
    a number that is already on the record is rejected with a
    [ValueError] and the list is left as it was. *)
Theorem add_phone_outcome (self : Record_) (n : string) :
  (ten_digits n = true ->
   Task01.add_phone n self
   = (inr tt, set_phones (phones self ++ [Phone.mk n]) self))
  /\ (ten_digits n = false ->
      Task01.add_phone n self
      = (inl (ValueError "Phone number must be 10 digits."), self))
  /\ (ten_digits n = true -> ~ In n (phone_numbers self) ->
      Task02.add_phone n self
      = (inr tt, set_phones (phones self ++ [Phone.mk n]) self))
  /\ (In n (phone_numbers self) ->
      Task02.add_phone n self
      = (inl (ValueError ("Phone " +++ n +++ " already exists.")), self))
  /\ (ten_digits n = false ->
      exists msg, Task02.add_phone n self = (inl (ValueError msg), self)).
Proof.
  rewrite task01_add_phone_eq, task02_add_phone_eq.
  repeat split.
  - now intros ->.
  - now intros ->.
  - intros -> H. apply first_with_value_none in H. now rewrite H.
  - intros H. apply first_with_value_in in H. now destruct H as [p ->].
  - intros ->. destruct (first_with_value n (phones self)); eauto.
Qed.

Lemma add_phone_outcome_witness :
  Task01.add_phone "0123456789" (Record__init__ "Ann")
  = (inr tt, mkRecord "Ann" [Phone.mk "0123456789"] None)
  /\ Task01.add_phone "12345" (Record__init__ "Ann")
     = (inl (ValueError "Phone number must be 10 digits."), Record__init__ "Ann")
  /\ Task02.add_phone "0123456789" (Record__init__ "Ann")
     = (inr tt, mkRecord "Ann" [Phone.mk "0123456789"] None)
  /\ Task02.add_phone "0123456789" (mkRecord "Ann" [Phone.mk "0123456789"] None)
     = (inl (ValueError "Phone 0123456789 already exists."),
        mkRecord "Ann" [Phone.mk "0123456789"] None)
  /\ exists msg,
       Task02.add_phone "12345" (Record__init__ "Ann")
       = (inl (ValueError msg), Record__init__ "Ann").
Proof.
  pose proof (add_phone_outcome (Record__init__ "Ann") "0123456789") as H1.
  pose proof (add_phone_outcome (Record__init__ "Ann") "12345") as H2.
  pose proof (add_phone_outcome (mkRecord "Ann" [Phone.mk "0123456789"] None)
                                "0123456789") as H3.
  destruct H1 as [A1 [_ [A3 _]]].
  destruct H2 as [_ [B2 [_ [_ B5]]]].
  destruct H3 as [_ [_ [_ [C4 _]]]].
  split; [apply A1; reflexivity|].
  split; [apply B2; reflexivity|].
  split; [apply A3; [reflexivity | simpl; tauto]|].
  split; [apply C4; simpl; tauto|].
  apply B5; reflexivity.
Defined.

(** C1, as stated, fails in the variant of task 02: a 10-digit numeric
    string that is already on the record is rejected. *)
Lemma add_phone_rejects_duplicate :
  ten_digits "0123456789" = true
  /\ Task02.add_phone "0123456789" (mkRecord "Ann" [Phone.mk "0123456789"] None)
     = (inl (ValueError "Phone 0123456789 already exists."),
        mkRecord "Ann" [Phone.mk "0123456789"] None).
Proof. split; reflexivity. Qed.

(** *** The validity of the stored phones is an invariant *)

Lemma phones_valid_append (self : Record_) (n : string) :
  phones_valid self -> ten_digits n = true ->
  phones_valid (set_phones (phones self ++ [Phone.mk n]) self).
Proof.
  unfold phones_valid. simpl. intros H Hn.
  apply Forall_app. split; [assumption|]. now constructor.
Qed.

Lemma phones_valid_incl (self : Record_) (l : list Phone.t) :
  phones_valid self -> incl l (phones self) -> phones_valid (set_phones l self).
Proof.
  unfold phones_valid. simpl. rewrite !Forall_forall. auto.
Qed.

Lemma phones_remove_valid (p : Phone.t) (self : Record_) :
  phones_valid self -> phones_valid (snd (phones_remove p self)).
Proof.
  intros H. unfold phones_remove.
  destruct (list_remove p (phones self)) as [l|] eqn:E; simpl; [|assumption].
  apply phones_valid_incl; [assumption|]. eapply list_remove_incl, E.
Qed.

Lemma remove_phone_valid (n : string) (self : Record_) :
  phones_valid self -> phones_valid (snd (remove_phone n self)).
Proof.
  intros H. unfold remove_phone, bind, find_phone, gets.
  destruct (first_with_value n (phones self)) as [p|]; [|assumption].
  now apply phones_remove_valid.
Qed.

Lemma task01_add_phone_valid (n : string) (self : Record_) :
  phones_valid self -> phones_valid (snd (Task01.add_phone n self)).
Proof.
  intros H. rewrite task01_add_phone_eq.
  destruct (ten_digits n) eqn:E; simpl; [|assumption].
  now apply phones_valid_append.
Qed.

Lemma task02_add_phone_valid (n : string) (self : Record_) :
  phones_valid self -> phones_valid (snd (Task02.add_phone n self)).
Proof.
  intros H. rewrite task02_add_phone_eq.
  destruct (first_with_value n (phones self)); [assumption|].
  destruct (ten_digits n) eqn:E; simpl; [|assumption].
  now apply phones_valid_append.
Qed.

Lemma task01_edit_phone_valid (old new : string) (self : Record_) :
  phones_valid self -> phones_valid (snd (Task01.edit_phone old new self)).
Proof.
  intros H. unfold Task01.edit_phone, bind at 1, find_phone, gets.
  destruct (first_with_value old (phones self)) as [p|]; [|assumption].
  unfold bind. pose proof (phones_remove_valid p self H) as Hr.
  destruct (phones_remove p self) as [[e|[]] self1]; simpl in *; [assumption|].
  now apply task01_add_phone_valid.
Qed.

Lemma task02_edit_phone_valid (old new : string) (self : Record_) :
  phones_valid self -> phones_valid (snd (Task02.edit_phone old new self)).
Proof.
  intros H. unfold Task02.edit_phone, bind at 1, find_phone, gets.
  destruct (first_with_value old (phones self)) as [p|]; [|assumption].
  unfold bind. pose proof (task02_add_phone_valid new self H) as Ha.
  destruct (Task02.add_phone new self) as [[e|[]] self1]; simpl in *;
    [assumption|].
  now apply phones_remove_valid.
Qed.

Section Invariant.

Variable add_phone : string -> RM unit.
Variable edit_phone : string -> string -> RM unit.
Variable P : Record_ -> Prop.
Hypothesis add_phone_keeps : forall n self, P self -> P (snd (add_phone n self)).
Hypothesis edit_phone_keeps :
  forall old new self, P self -> P (snd (edit_phone old new self)).
Hypothesis remove_phone_keeps : forall n self, P self -> P (snd (remove_phone n self)).

Lemma run_ops_keeps (ops : list op) :
  forall self, P self -> P (run_ops add_phone edit_phone ops self).
Proof.
  induction ops as [|o ops IH]; intros self H; simpl; [assumption|].
  apply IH. destruct o; simpl; auto.
Qed.

End Invariant.

(** C4.  Whatever sequence of [add_phone], [remove_phone] and
    [edit_phone] calls is run on a fresh record, each call returning or
    raising, every phone stored in the record is a 10-digit numeric string
    (it matches [^\d{10}$]); this holds in both variants. *)
Theorem phones_always_valid (name : string) (ops : list op) :
  phones_valid (run_ops Task01.add_phone Task01.edit_phone ops (Record__init__ name))
  /\ phones_valid
       (run_ops Task02.add_phone Task02.edit_phone ops (Record__init__ name)).
Proof.
  split; apply run_ops_keeps;
    auto using task01_add_phone_valid, task02_add_phone_valid,
      task01_edit_phone_valid, task02_edit_phone_valid, remove_phone_valid;
    constructor.
Qed.

Example run_ops_example :
  phone_numbers
    (run_ops Task02.add_phone Task02.edit_phone
       [Add_phone "0123456789"; Add_phone "12"; Add_phone "1111111111";
        Edit_phone "0123456789" "x"; Edit_phone "1111111111" "2222222222";
        Remove_phone "0123456789"]
       (Record__init__ "Ann"))
  = ["2222222222"].
Proof. reflexivity. Qed.

(** *** [edit_phone] *)

(** C5.  When [old] is not among the phone numbers of the record,
    [edit_phone(old, new)] returns without an error and leaves the record
    as it was, whatever [new] is; this holds in both variants. *)
Theorem edit_phone_absent_old (self : Record_) (old new : string) :
  ~ In old (phone_numbers self) ->
  Task01.edit_phone old new self = (inr tt, self)
  /\ Task02.edit_phone old new self = (inr tt, self).
Proof.
  intros H. apply first_with_value_none in H.
  unfold Task01.edit_phone, Task02.edit_phone, bind, find_phone, gets.
  now rewrite H.
Qed.

Lemma edit_phone_absent_old_witness :
  Task01.edit_phone "0000000000" "bad" (mkRecord "Ann" [Phone.mk "0123456789"] None)
  = (inr tt, mkRecord "Ann" [Phone.mk "0123456789"] None)
  /\ Task02.edit_phone "0000000000" "bad" (mkRecord "Ann" [Phone.mk "0123456789"] None)
     = (inr tt, mkRecord "Ann" [Phone.mk "0123456789"] None).
Proof.
  apply (edit_phone_absent_old (mkRecord "Ann" [Phone.mk "0123456789"] None)
                               "0000000000" "bad").
  simpl. intros [H|[]]. discriminate H.
Defined.

(** In the variant of task 02 the new number is validated and appended
    before the old one is removed: when [add_phone] rejects [new], the
    call raises and the record is as it was. *)
Lemma task02_edit_phone_rejected (self : Record_) (old new : string) :
  In old (phone_numbers self) ->
  ten_digits new = false \/ In new (phone_numbers self) ->
  exists msg, Task02.edit_phone old new self = (inl (ValueError msg), self).
Proof.
  intros Hold Hnew. apply first_with_value_in in Hold. destruct Hold as [p Hp].
  unfold Task02.edit_phone, bind at 1, find_phone, gets. rewrite Hp.
  unfold bind. rewrite task02_add_phone_eq.
  destruct (first_with_value new (phones self)) as [q|] eqn:E; [eauto|].
  destruct Hnew as [->|Hin]; [eauto|].
  apply first_with_value_none in E. contradiction.
Qed.

(** And when [new] is accepted, it ends up last and the first phone with
    the value [old] is gone. *)
Lemma task02_edit_phone_accepted (self : Record_) (old new : string) :
  In old (phone_numbers self) ->
  ten_digits new = true -> ~ In new (phone_numbers self) ->
  exists p l',
    first_with_value old (phones self) = Some p
    /\ list_remove p (phones self) = Some l'
    /\ Task02.edit_phone old new self
       = (inr tt, set_phones (l' ++ [Phone.mk new]) self).
Proof.
  intros Hold Hv Hnew. apply first_with_value_in in Hold. destruct Hold as [p Hp].
  destruct (list_remove_app old (phones self) p (Phone.mk new) Hp) as [l' [H1 H2]].
  exists p, l'. repeat split; try assumption.
  unfold Task02.edit_phone, bind at 1, find_phone, gets. rewrite Hp.
  unfold bind. rewrite task02_add_phone_eq.
  apply first_with_value_none in Hnew. rewrite Hnew, Hv.
  unfold phones_remove. simpl. rewrite H2. reflexivity.
Qed.

(** C9 at a failing input of the variant of task 01: the old number is
    removed before the new one is validated, so the call raises and the
    old number is lost. *)
Theorem task01_edit_phone_loses_old :
  Task01.edit_phone "1234567890" "12345" (mkRecord "Ann" [Phone.mk "1234567890"] None)
  = (inl (ValueError "Phone number must be 10 digits."), mkRecord "Ann" [] None).
Proof. reflexivity. Qed.

(** ** Texts of one line *)

Lemma one_line_append (a b : string) :
  one_line (a +++ b) = one_line a && one_line b.
Proof.
  induction a as [|c a IH]; simpl; [reflexivity|].
  now rewrite IH, andb_assoc.
Qed.

Lemma all_digits_one_line (s : string) : all_digits s = true -> one_line s = true.
Proof.
  induction s as [|c s IH]; simpl; [reflexivity|].
  intros H. apply andb_prop in H. destruct H as [Hc Hs].
  rewrite (IH Hs), andb_true_r.
  destruct (Ascii.eqb_spec c "010") as [->|]; [discriminate Hc | reflexivity].
Qed.

Lemma ten_digits_one_line (s : string) : ten_digits s = true -> one_line s = true.
Proof.
  unfold ten_digits. intros H. apply andb_prop in H.
  now apply all_digits_one_line.
Qed.

Lemma one_line_string_of_uint (d : Decimal.uint) :
  one_line (NilEmpty.string_of_uint d) = true.
Proof. induction d; simpl; auto. Qed.

Lemma one_line_string_of_Z (z : Z) : one_line (string_of_Z z) = true.
Proof.
  unfold string_of_Z, NilZero.string_of_int, NilZero.string_of_uint.
  destruct (Z.to_int z) as [d|d]; destruct d; simpl; auto using one_line_string_of_uint.
Qed.

(** ** The calendar *)

Lemma new_date_valid (y m d : Z) :
  valid_date (mkdate y m d) = true -> new_date y m d = inr (mkdate y m d).
Proof.
  unfold valid_date, new_date. simpl. intros H.
  repeat (apply andb_prop in H; destruct H as [H ?]).
  now rewrite H, H0, H1, H2, H3, H4.
Qed.

Lemma new_date_invalid (y m d : Z) :
  valid_date (mkdate y m d) = false ->
  exists msg, new_date y m d = inl (ValueError msg) /\ one_line msg = true.
Proof.
  assert (Hy : one_line ("year " +++ string_of_Z y +++ " is out of range") = true)
    by (rewrite !one_line_append, one_line_string_of_Z; reflexivity).
  unfold valid_date, new_date. cbn [year month day].
  destruct (MINYEAR <=? y), (y <=? MAXYEAR), (1 <=? m), (m <=? 12), (1 <=? d),
    (d <=? _days_in_month y m); cbn [andb negb]; intros H; try discriminate H;
    eexists; (split; [reflexivity|]); assumption || reflexivity.
Qed.

Lemma calendar_date_some (y m d : Z) (x : date) :
  calendar_date y m d = Some x ->
  x = mkdate y m d /\ valid_date x = true.
Proof.
  unfold calendar_date. destruct (valid_date (mkdate y m d)) eqn:E; [|discriminate].
  intros [= <-]. auto.
Qed.

Ltac bools :=
  repeat match goal with
  | H : _ && _ = true |- _ => apply andb_prop in H; destruct H
  | H : (_ <=? _) = true |- _ => apply Z.leb_le in H
  | H : (_ <? _) = true |- _ => apply Z.ltb_lt in H
  | H : (_ =? _) = true |- _ => apply Z.eqb_eq in H
  | H : (_ <=? _) = false |- _ => apply Z.leb_gt in H
  | H : (_ <? _) = false |- _ => apply Z.ltb_ge in H
  | H : (_ =? _) = false |- _ => apply Z.eqb_neq in H
  end.

Ltac months :=
  cbv [_DAYS_BEFORE_MONTH _DAYS_IN_MONTH Z.eqb Z.ltb Z.compare Pos.compare
       Pos.compare_cont Pos.eqb andb] in *.

Lemma day_of_year_bound (y m d : Z) :
  valid_date (mkdate y m d) = true ->
  1 <= _days_before_month y m + d <= 365 + (if _is_leap y then 1 else 0).
Proof.
  unfold valid_date, _days_before_month, _days_in_month.
  cbn [year month day]. intros H. bools.
  assert (Hm : m = 1 \/ m = 2 \/ m = 3 \/ m = 4 \/ m = 5 \/ m = 6 \/ m = 7
               \/ m = 8 \/ m = 9 \/ m = 10 \/ m = 11 \/ m = 12) by lia.
  destruct (_is_leap y);
    repeat (destruct Hm as [->|Hm]; [months; lia|]); subst; months; lia.
Qed.

Lemma toordinal_bounds (d : date) :
  valid_date d = true -> 1 <= toordinal d <= _MAXORDINAL.
Proof.
  destruct d as [y m d]. intros H. pose proof (day_of_year_bound y m d H) as Hd.
  unfold valid_date, MINYEAR, MAXYEAR in H. cbn [year month day] in H. bools.
  unfold toordinal, _ymd2ord, _days_before_year, _MAXORDINAL. cbn [year month day].
  assert (Hy : y = 9999 \/ y <= 9998) by lia.
  destruct Hy as [->|Hy].
  - change (_is_leap 9999) with false in Hd.
    change ((9999 - 1) * 365 + (9999 - 1) / 4 - (9999 - 1) / 100 + (9999 - 1) / 400)
      with 3651694.
    lia.
  - assert (365 + (if _is_leap y then 1 else 0) <= 366) by (destruct (_is_leap y); lia).
    Z.div_mod_to_equations. lia.
Qed.

(** *** Ordinals and dates *)

Ltac tests :=
  repeat match goal with
  | |- context [?a <? ?b] => destruct (Z.ltb_spec a b)
  | |- context [?a =? ?b] => destruct (Z.eqb_spec a b)
  | |- context [?a <=? ?b] => destruct (Z.leb_spec a b)
  end.

Lemma month_day_spec (leapyear : bool) (n : Z) :
  0 <= n < 365 + (if leapyear then 1 else 0) ->
  let '(m, d) := month_day leapyear n in
  1 <= m <= 12
  /\ 1 <= d <= _DAYS_IN_MONTH m + (if (m =? 2) && leapyear then 1 else 0)
  /\ _DAYS_BEFORE_MONTH m + (if (2 <? m) && leapyear then 1 else 0) + d = n + 1.
Proof.
  intros Hn. unfold month_day. cbv zeta.
  rewrite Z.shiftr_div_pow2 by lia. change (2 ^ 5) with 32.
  pose proof (Z.div_mod (n + 50) 32 ltac:(lia)) as Hq.
  pose proof (Z.mod_pos_bound (n + 50) 32 ltac:(lia)) as Hr.
  set (q := (n + 50) / 32) in *. set (r := (n + 50) mod 32) in *.
  clearbody q r.
  assert (Hcases : q = 1 \/ q = 2 \/ q = 3 \/ q = 4 \/ q = 5 \/ q = 6 \/ q = 7
                   \/ q = 8 \/ q = 9 \/ q = 10 \/ q = 11 \/ q = 12)
    by (destruct leapyear; lia).
  remember (q - 1) as m' eqn:Hm'.
  destruct leapyear; tests; cbn [andb] in *; tests;
    repeat (destruct Hcases as [Hc|Hcases];
            [subst q; vm_compute in Hm'; subst m';
             cbv [_DAYS_BEFORE_MONTH _DAYS_IN_MONTH] in *; lia|]);
    subst q; vm_compute in Hm'; subst m';
    cbv [_DAYS_BEFORE_MONTH _DAYS_IN_MONTH] in *; lia.
Qed.

Lemma composed_year (a b c e : Z) :
  0 <= b <= 3 -> 0 <= c <= 24 -> 0 <= e <= 3 ->
  _days_before_year (400 * a + 100 * b + 4 * c + e + 1)
  = 146097 * a + 36524 * b + 1461 * c + 365 * e.
Proof.
  intros Hb Hc He. unfold _days_before_year. cbv zeta.
  Z.div_mod_to_equations. lia.
Qed.

Lemma composed_year_leap (a b c e : Z) :
  0 <= b <= 3 -> 0 <= c <= 24 -> 0 <= e <= 3 ->
  _is_leap (400 * a + 100 * b + 4 * c + e + 1)
  = (e =? 3) && (negb (c =? 24) || (b =? 3)).
Proof.
  intros Hb Hc He. unfold _is_leap.
  tests; cbn [andb orb negb]; try reflexivity; exfalso;
    Z.div_mod_to_equations; lia.
Qed.

Ltac euclid x d q r :=
  let Hq := fresh "Hq" in
  let Hr := fresh "Hr" in
  pose proof (Z.div_mod x d ltac:(lia)) as Hq;
  pose proof (Z.mod_pos_bound x d ltac:(lia)) as Hr;
  set (q := x / d) in *; set (r := x mod d) in *; clearbody q r.

Lemma _ord2ymd_eq (n : Z) :
  1 <= n ->
  exists y doy,
    1 <= y
    /\ 0 <= doy < 365 + (if _is_leap y then 1 else 0)
    /\ _days_before_year y + doy + 1 = n
    /\ _ord2ymd n
       = (y, fst (month_day (_is_leap y) doy), snd (month_day (_is_leap y) doy)).
Proof.
  intros Hn. unfold _ord2ymd. cbv zeta.
  change _DI400Y with 146097. change _DI100Y with 36524. change _DI4Y with 1461.
  euclid (n - 1) 146097 a r400.
  euclid r400 36524 b r100.
  euclid r100 1461 c r4.
  euclid r4 365 e r1.
  assert (Ha : 0 <= a) by lia.
  destruct (Z.eqb_spec e 4) as [E4|E4]; [|destruct (Z.eqb_spec b 4) as [B4|B4]];
    cbn [orb].
  - assert (Hb : 0 <= b <= 3) by lia. assert (Hc : 0 <= c <= 23) by lia.
    exists (400 * a + 100 * b + 4 * c + 3 + 1), 365.
    rewrite composed_year_leap, composed_year by lia.
    replace (c =? 24) with false by (symmetry; apply Z.eqb_neq; lia).
    cbn [Z.eqb Pos.eqb andb orb negb].
    repeat split; try lia. f_equal. f_equal. lia.
  - exists (400 * a + 100 * 3 + 4 * 24 + 3 + 1), 365.
    rewrite composed_year_leap, composed_year by lia.
    cbn [Z.eqb Pos.eqb andb orb negb].
    repeat split; try lia. f_equal. f_equal. lia.
  - assert (Hb : 0 <= b <= 3) by lia. assert (Hc : 0 <= c <= 24) by lia.
    assert (He : 0 <= e <= 3) by lia.
    exists (400 * a + 100 * b + 4 * c + e + 1), r1.
    rewrite composed_year_leap, composed_year by lia.
    replace (a * 400 + 1 + (b * 100 + c * 4 + e))
      with (400 * a + 100 * b + 4 * c + e + 1) by lia.
    repeat split; try lia.
    + destruct ((e =? 3) && (negb (c =? 24) || (b =? 3))); lia.
    + unfold month_day. cbv zeta.
      destruct (r1 <? _); reflexivity.
Qed.

Lemma _days_before_year_mono (y1 y2 : Z) :
  y1 <= y2 -> _days_before_year y1 + 365 * (y2 - y1) <= _days_before_year y2.
Proof.
  intros H. unfold _days_before_year. cbv zeta.
  Z.div_mod_to_equations. lia.
Qed.

(** Every ordinal of the supported range is the ordinal of the valid date
    [fromordinal] gives for it. *)
Lemma fromordinal_correct (n : Z) :
  1 <= n <= _MAXORDINAL ->
  valid_date (fromordinal n) = true /\ toordinal (fromordinal n) = n.
Proof.
  intros [Hn Hmax]. unfold _MAXORDINAL in Hmax.
  destruct (_ord2ymd_eq n Hn) as [y [doy [Hy [Hdoy [Hord E]]]]].
  pose proof (month_day_spec (_is_leap y) doy Hdoy) as Hmd.
  unfold fromordinal, toordinal. rewrite E.
  destruct (month_day (_is_leap y) doy) as [m d]. cbn [fst snd year month day].
  destruct Hmd as [Hm [Hd Hsum]].
  assert (Hy' : y <= 9999).
  { destruct (Z_le_gt_dec y 9999) as [Hle|Hgt]; [assumption|].
    exfalso. pose proof (_days_before_year_mono 10000 y ltac:(lia)) as Hmono.
    change (_days_before_year 10000) with 3652059 in Hmono. lia. }
  split.
  - unfold valid_date, _days_in_month, MINYEAR, MAXYEAR. cbn [year month day].
    repeat (apply andb_true_intro; split); apply Z.leb_le; try lia.
    destruct ((m =? 2) && _is_leap y) eqn:E2; [|lia].
    apply andb_prop in E2. destruct E2 as [E2 _]. apply Z.eqb_eq in E2.
    subst m. change (_DAYS_IN_MONTH 2) with 28 in Hd. lia.
  - unfold _ymd2ord, _days_before_month. lia.
Qed.

(** *** The order of dates *)

Lemma _days_before_year_succ (y : Z) :
  _days_before_year (y + 1)
  = _days_before_year y + 365 + (if _is_leap y then 1 else 0).
Proof.
  unfold _days_before_year, _is_leap. cbv zeta.
  replace (y + 1 - 1) with y by lia.
  tests; cbn [andb orb negb]; Z.div_mod_to_equations; lia.
Qed.

Lemma _days_before_month_mono (y m1 m2 d1 : Z) :
  valid_date (mkdate y m1 d1) = true -> 1 <= m2 <= 12 -> m1 < m2 ->
  _days_before_month y m1 + d1 <= _days_before_month y m2.
Proof.
  unfold valid_date, _days_before_month, _days_in_month. cbn [year month day].
  intros H Hm2 Hlt. bools.
  assert (Hc1 : m1 = 1 \/ m1 = 2 \/ m1 = 3 \/ m1 = 4 \/ m1 = 5 \/ m1 = 6 \/ m1 = 7
               \/ m1 = 8 \/ m1 = 9 \/ m1 = 10 \/ m1 = 11) by lia.
  assert (Hc2 : m2 = 2 \/ m2 = 3 \/ m2 = 4 \/ m2 = 5 \/ m2 = 6 \/ m2 = 7
               \/ m2 = 8 \/ m2 = 9 \/ m2 = 10 \/ m2 = 11 \/ m2 = 12) by lia.
  destruct (_is_leap y);
    repeat (destruct Hc1 as [Hc1|Hc1]); subst m1;
    repeat (destruct Hc2 as [Hc2|Hc2]); subst m2;
    try lia; months; lia.
Qed.

(** Earlier dates have smaller ordinals. *)
Lemma toordinal_lt (d1 d2 : date) :
  valid_date d1 = true -> valid_date d2 = true ->
  date_ltb d1 d2 = true -> toordinal d1 < toordinal d2.
Proof.
  destruct d1 as [y1 m1 d1], d2 as [y2 m2 d2]. intros H1 H2.
  pose proof (day_of_year_bound _ _ _ H1) as B1.
  pose proof (day_of_year_bound _ _ _ H2) as B2.
  unfold date_ltb, toordinal, _ymd2ord. cbn [year month day]. intros H.
  apply orb_prop in H. destruct H as [H|H].
  - apply Z.ltb_lt in H.
    pose proof (_days_before_year_succ y1) as Hs.
    pose proof (_days_before_year_mono (y1 + 1) y2 ltac:(lia)) as Hm. lia.
  - apply andb_prop in H. destruct H as [Hy H]. apply Z.eqb_eq in Hy. subst y2.
    apply orb_prop in H. destruct H as [H|H].
    + apply Z.ltb_lt in H.
      assert (Hm2 : 1 <= m2 <= 12)
        by (unfold valid_date in H2; cbn [year month day] in H2; bools; lia).
      pose proof (_days_before_month_mono y1 m1 m2 d1 H1 Hm2 H).
      unfold valid_date in H2. cbn [year month day] in H2. bools. lia.
    + apply andb_prop in H. destruct H as [Hm H]. apply Z.eqb_eq in Hm.
      apply Z.ltb_lt in H. subst m2. lia.
Qed.

Lemma date_ltb_false (d1 d2 : date) :
  date_ltb d1 d2 = false -> d1 = d2 \/ date_ltb d2 d1 = true.
Proof.
  destruct d1 as [y1 m1 d1], d2 as [y2 m2 d2].
  unfold date_ltb. cbn [year month day]. intros H.
  destruct (Z.ltb_spec y1 y2), (Z.eqb_spec y1 y2), (Z.ltb_spec m1 m2),
    (Z.eqb_spec m1 m2), (Z.ltb_spec d1 d2); cbn [andb orb] in H;
    try discriminate H;
    destruct (Z.ltb_spec y2 y1), (Z.eqb_spec y2 y1), (Z.ltb_spec m2 m1),
      (Z.eqb_spec m2 m1), (Z.ltb_spec d2 d1); cbn [andb orb];
    try lia; try (now right); left; f_equal; lia.
Qed.

(** A next occurrence is never before today. *)
Lemma next_occurrence_not_before (today birthday occ : date) :
  valid_date today = true ->
  next_occurrence today birthday = Some occ ->
  toordinal today <= toordinal occ.
Proof.
  intros Ht. unfold next_occurrence.
  destruct (calendar_date (year today) (month birthday) (day birthday)) as [o|] eqn:E;
    [|discriminate].
  destruct (calendar_date_some _ _ _ _ E) as [Eo Hv].
  destruct (date_ltb o today) eqn:L.
  - intros H. destruct (calendar_date_some _ _ _ _ H) as [Eocc Hv'].
    assert (Hlt : date_ltb today occ = true).
    { unfold date_ltb. rewrite Eocc. cbn [year month day].
      replace (year today <? year today + 1) with true; [reflexivity|].
      symmetry. apply Z.ltb_lt. lia. }
    pose proof (toordinal_lt today occ Ht Hv' Hlt). lia.
  - intros [= <-]. destruct (date_ltb_false _ _ L) as [->|L']; [lia|].
    pose proof (toordinal_lt today o Ht Hv L'). lia.
Qed.

(** ** Upcoming birthdays *)

Lemma window_test (today occ : date) :
  (0 <=? days_between occ today) && (days_between occ today <=? 7)
  = in_window today occ.
Proof.
  unfold in_window, days_between. tests; cbn [andb]; try reflexivity; lia.
Qed.

Lemma congratulation_step (occ : date) (acc : list item) :
  valid_date occ = true ->
  (if weekday occ =? 5 then lift (date_add occ 2)
   else if weekday occ =? 6 then lift (date_add occ 1)
   else ret occ) acc
  = (inr (shift_weekend occ), acc).
Proof.
  intros Hv. pose proof (toordinal_bounds occ Hv) as Hb.
  unfold shift_weekend, date_add, plus_days, lift, ret, weekday in *.
  unfold _MAXORDINAL in *.
  destruct (Z.eqb_spec ((toordinal occ + 6) mod 7) 5) as [E5|E5].
  - replace ((0 <? toordinal occ + 2) && (toordinal occ + 2 <=? 3652059)) with true;
      [reflexivity|].
    symmetry. apply andb_true_intro.
    split; [apply Z.ltb_lt | apply Z.leb_le]; Z.div_mod_to_equations; lia.
  - destruct (Z.eqb_spec ((toordinal occ + 6) mod 7) 6) as [E6|E6]; [|reflexivity].
    replace ((0 <? toordinal occ + 1) && (toordinal occ + 1 <=? 3652059)) with true;
      [reflexivity|].
    symmetry. apply andb_true_intro.
    split; [apply Z.ltb_lt | apply Z.leb_le]; Z.div_mod_to_equations; lia.
Qed.

Lemma replace_year_eq (d : date) (y : Z) :
  match calendar_date y (month d) (day d) with
  | Some x => replace_year d y = inr x
  | None => exists msg, replace_year d y = inl (ValueError msg)
                        /\ one_line msg = true
  end.
Proof.
  unfold calendar_date, replace_year.
  destruct (valid_date (mkdate y (month d) (day d))) eqn:E.
  - now apply new_date_valid.
  - now apply new_date_invalid.
Qed.

Lemma upcoming_body_defined (today : date) (record : Record_) (acc : list item) :
  occurrence_defined today record = true ->
  upcoming_body today record acc = (inr tt, acc ++ expected_item today record).
Proof.
  unfold occurrence_defined, upcoming_body, expected_item, qualifying, next_occurrence.
  destruct (birthday record) as [b|]; [|intros _; unfold ret; now rewrite app_nil_r].
  pose proof (replace_year_eq (Birthday.date b) (year today)) as H1.
  destruct (calendar_date (year today) (month (Birthday.date b)) (day (Birthday.date b)))
    as [occ|] eqn:E1; [|discriminate].
  destruct (calendar_date_some _ _ _ _ E1) as [Eocc Hv].
  unfold bind at 1, lift at 1. rewrite H1.
  pose proof (replace_year_eq occ (year today + 1)) as H2.
  assert (Em : month occ = month (Birthday.date b)) by now rewrite Eocc.
  assert (Ed : day occ = day (Birthday.date b)) by now rewrite Eocc.
  rewrite Em, Ed in H2.
  unfold bind at 1.
  destruct (date_ltb occ today).
  - destruct (calendar_date (year today + 1) (month (Birthday.date b))
                (day (Birthday.date b))) as [occ'|] eqn:E2; [|discriminate].
    intros _. destruct (calendar_date_some _ _ _ _ E2) as [_ Hv'].
    unfold lift at 1. rewrite H2. rewrite window_test.
    destruct (in_window today occ'); [|unfold ret; now rewrite app_nil_r].
    unfold bind. rewrite congratulation_step by assumption. reflexivity.
  - intros _. unfold ret at 1. rewrite window_test.
    destruct (in_window today occ); [|unfold ret; now rewrite app_nil_r].
    unfold bind. rewrite congratulation_step by assumption. reflexivity.
Qed.

Lemma upcoming_body_undefined (today : date) (record : Record_) (acc : list item) :
  occurrence_defined today record = false ->
  exists msg, upcoming_body today record acc = (inl (ValueError msg), acc)
              /\ one_line msg = true.
Proof.
  unfold occurrence_defined, upcoming_body, next_occurrence.
  destruct (birthday record) as [b|]; [|discriminate].
  pose proof (replace_year_eq (Birthday.date b) (year today)) as H1.
  destruct (calendar_date (year today) (month (Birthday.date b)) (day (Birthday.date b)))
    as [occ|] eqn:E1.
  - destruct (calendar_date_some _ _ _ _ E1) as [Eocc Hv].
    unfold bind at 1, lift at 1. rewrite H1.
    pose proof (replace_year_eq occ (year today + 1)) as H2.
    assert (Em : month occ = month (Birthday.date b)) by now rewrite Eocc.
    assert (Ed : day occ = day (Birthday.date b)) by now rewrite Eocc.
    rewrite Em, Ed in H2.
    unfold bind at 1.
    destruct (date_ltb occ today); [|discriminate].
    destruct (calendar_date (year today + 1) (month (Birthday.date b))
                (day (Birthday.date b))) as [occ'|] eqn:E2; [discriminate|].
    intros _. destruct H2 as [msg [H2 Hl]]. unfold lift at 1. rewrite H2. eauto.
  - intros _. destruct H1 as [msg [H1 Hl]]. unfold bind, lift. rewrite H1. eauto.
Qed.

Lemma for_each_upcoming (today : date) (records : list Record_) :
  forall acc,
    if forallb (occurrence_defined today) records
    then for_each (upcoming_body today) records acc
         = (inr tt, acc ++ expected_items today records)
    else exists msg acc',
        for_each (upcoming_body today) records acc = (inl (ValueError msg), acc')
        /\ one_line msg = true.
Proof.
  induction records as [|record records IH]; intros acc; cbn [forallb for_each].
  - unfold ret, expected_items. cbn. now rewrite app_nil_r.
  - destruct (occurrence_defined today record) eqn:E; cbn [andb].
    + unfold bind. rewrite upcoming_body_defined by assumption.
      specialize (IH (acc ++ expected_item today record)).
      destruct (forallb (occurrence_defined today) records).
      * rewrite IH. unfold expected_items. cbn [flat_map]. now rewrite app_assoc.
      * exact IH.
    + destruct (upcoming_body_undefined today record acc E) as [msg [H Hl]].
      unfold bind. rewrite H. eauto.
Qed.

(** The method returns exactly when every birthday has a next
    occurrence, and it returns the expected entries then; otherwise it
    raises a [ValueError]. *)
Lemma upcoming_birthdays_of_eq (today : date) (records : list Record_) :
  if forallb (occurrence_defined today) records
  then upcoming_birthdays_of today records = inr (expected_items today records)
  else exists msg, upcoming_birthdays_of today records = inl (ValueError msg)
                   /\ one_line msg = true.
Proof.
  unfold upcoming_birthdays_of.
  pose proof (for_each_upcoming today records []) as H.
  destruct (forallb (occurrence_defined today) records).
  - now rewrite H.
  - destruct H as [msg [acc' [-> Hl]]]. eauto.
Qed.

Lemma get_upcoming_birthdays_eq (today : date) (w : world) :
  if forallb (occurrence_defined today) (values w)
  then get_upcoming_birthdays today w = (inr (expected_items today (values w)), w)
  else exists msg, get_upcoming_birthdays today w = (inl (ValueError msg), w)
                   /\ one_line msg = true.
Proof.
  unfold get_upcoming_birthdays.
  pose proof (upcoming_birthdays_of_eq today (values w)) as H.
  destruct (forallb (occurrence_defined today) (values w)).
  - now rewrite H.
  - destruct H as [msg [-> Hl]]. eauto.
Qed.

Lemma qualifying_some (today : date) (record : Record_) (occ : date) :
  qualifying today record = Some occ <->
  exists b, birthday record = Some b
            /\ next_occurrence today (Birthday.date b) = Some occ
            /\ in_window today occ = true.
Proof.
  unfold qualifying. split.
  - destruct (birthday record) as [b|]; [|discriminate].
    destruct (next_occurrence today (Birthday.date b)) as [o|] eqn:En; [|discriminate].
    destruct (in_window today o) eqn:E; [|discriminate].
    intros [= <-]. exists b. auto.
  - intros [b [-> [-> ->]]]. reflexivity.
Qed.

Lemma next_occurrence_valid (today birthday occ : date) :
  next_occurrence today birthday = Some occ -> valid_date occ = true.
Proof.
  unfold next_occurrence.
  destruct (calendar_date (year today) (month birthday) (day birthday)) as [o|] eqn:E;
    [|discriminate].
  destruct (date_ltb o today).
  - intros H. now destruct (calendar_date_some _ _ _ _ H).
  - intros [= <-]. now destruct (calendar_date_some _ _ _ _ E).
Qed.

(** A record is reported when it qualifies, and only then: the entries
    of a returned result are those of the qualifying records. *)
Lemma upcoming_birthdays_members (today : date) (w : world) (out : list item) :
  fst (get_upcoming_birthdays today w) = inr out ->
  forall it,
    In it out <->
    exists record occ,
      In record (values w) /\ qualifying today record = Some occ
      /\ it = mkitem (name record) (strftime_dmY (shift_weekend occ)).
Proof.
  intros H it. pose proof (get_upcoming_birthdays_eq today w) as E.
  destruct (forallb (occurrence_defined today) (values w)).
  - rewrite E in H. cbn in H. injection H as <-.
    unfold expected_items. rewrite in_flat_map. unfold expected_item.
    split.
    + intros [record [Hin Hit]]. exists record.
      destruct (qualifying today record) as [occ|]; [|contradiction].
      exists occ. destruct Hit as [<-|[]]. auto.
    + intros [record [occ [Hin [Hq ->]]]]. exists record. rewrite Hq.
      split; [assumption | now left].
  - destruct E as [msg [E _]]. rewrite E in H. discriminate.
Qed.

(** The shift of a weekend occurrence, in days. *)
Lemma shift_weekend_days (occ : date) :
  valid_date occ = true ->
  valid_date (shift_weekend occ) = true
  /\ (weekday occ = 5 -> toordinal (shift_weekend occ) = toordinal occ + 2)
  /\ (weekday occ = 6 -> toordinal (shift_weekend occ) = toordinal occ + 1)
  /\ (weekday occ <> 5 -> weekday occ <> 6 -> shift_weekend occ = occ).
Proof.
  intros Hv. pose proof (toordinal_bounds occ Hv) as Hb.
  unfold shift_weekend, plus_days, weekday in *. unfold _MAXORDINAL in Hb.
  destruct (Z.eqb_spec ((toordinal occ + 6) mod 7) 5) as [E5|E5].
  - destruct (fromordinal_correct (toordinal occ + 2)) as [H1 H2].
    { unfold _MAXORDINAL. Z.div_mod_to_equations. lia. }
    repeat split; try assumption; intros; lia.
  - destruct (Z.eqb_spec ((toordinal occ + 6) mod 7) 6) as [E6|E6].
    + destruct (fromordinal_correct (toordinal occ + 1)) as [H1 H2].
      { unfold _MAXORDINAL. Z.div_mod_to_equations. lia. }
      repeat split; try assumption; intros; lia.
    + repeat split; try assumption; intros; try lia.
Qed.

(** C3.  When [get_upcoming_birthdays] returns, its result holds, for
    the qualifying records in order, the name and the text of the
    congratulation date; that date is the occurrence plus 2 days when
    the occurrence is a Saturday, the occurrence plus 1 day when it is a
    Sunday, and the occurrence itself on another weekday. *)
Theorem congratulation_date_rule (today : date) (w : world) (out : list item) :
  fst (get_upcoming_birthdays today w) = inr out ->
  out = flat_map (fun record =>
                    match qualifying today record with
                    | Some occ =>
                        [mkitem (name record) (strftime_dmY (shift_weekend occ))]
                    | None => []
                    end) (values w)
  /\ forall record occ,
       In record (values w) -> qualifying today record = Some occ ->
       (weekday occ = 5 ->
        shift_weekend occ = plus_days occ 2
        /\ toordinal (shift_weekend occ) = toordinal occ + 2)
       /\ (weekday occ = 6 ->
           shift_weekend occ = plus_days occ 1
           /\ toordinal (shift_weekend occ) = toordinal occ + 1)
       /\ (weekday occ <> 5 -> weekday occ <> 6 -> shift_weekend occ = occ).
Proof.
  intros H. split.
  - pose proof (get_upcoming_birthdays_eq today w) as E.
    destruct (forallb (occurrence_defined today) (values w)).
    + rewrite E in H. cbn in H. now injection H as <-.
    + destruct E as [msg [E _]]. rewrite E in H. discriminate.
  - intros record occ _ Hq. apply qualifying_some in Hq.
    destruct Hq as [b [_ [Hn _]]]. apply next_occurrence_valid in Hn.
    destruct (shift_weekend_days occ Hn) as [_ [H5 [H6 H7]]].
    split; [|split].
    + intros E5. split; [unfold shift_weekend; now rewrite E5 | auto].
    + intros E6. split; [unfold shift_weekend; now rewrite E6 | auto].
    + assumption.
Qed.

Lemma congratulation_date_rule_witness :
  fst (get_upcoming_birthdays scenario_today scenario_book)
  = inr [mkitem "Mark" "19.07.2024"; mkitem "John" "22.07.2024"]
  /\ shift_weekend (mkdate 2024 7 20) = plus_days (mkdate 2024 7 20) 2
  /\ toordinal (shift_weekend (mkdate 2024 7 20)) = toordinal (mkdate 2024 7 20) + 2.
Proof.
  split; [reflexivity|].
  destruct (congratulation_date_rule scenario_today scenario_book
              [mkitem "Mark" "19.07.2024"; mkitem "John" "22.07.2024"] eq_refl)
    as [_ H].
  destruct (H (store scenario_book 2%nat) (mkdate 2024 7 20)) as [H5 _].
  - simpl. tauto.
  - reflexivity.
  - apply H5. reflexivity.
Defined.

(** C7.  When the book holds a record whose birthday is a 29 February
    and today is in a year that is not a leap year,
    [get_upcoming_birthdays] raises: the replacement of the year fails
    with a [ValueError] and no result is returned. *)
Theorem leap_day_birthday_raises (today : date) (w : world) (record : Record_)
        (b : Birthday.t) :
  In record (values w) ->
  birthday record = Some b ->
  month (Birthday.date b) = 2 -> day (Birthday.date b) = 29 ->
  _is_leap (year today) = false ->
  exists msg, get_upcoming_birthdays today w = (inl (ValueError msg), w).
Proof.
  intros Hin Hb Hm Hd Hleap.
  pose proof (get_upcoming_birthdays_eq today w) as E.
  destruct (forallb (occurrence_defined today) (values w)) eqn:Hall;
    [|destruct E as [msg [E _]]; eauto].
  exfalso. rewrite forallb_forall in Hall. specialize (Hall record Hin).
  unfold occurrence_defined, next_occurrence, calendar_date in Hall.
  rewrite Hb, Hm, Hd in Hall.
  unfold valid_date, _days_in_month in Hall. cbn [year month day] in Hall.
  rewrite Hleap in Hall. cbn [Z.eqb Pos.eqb andb _DAYS_IN_MONTH] in Hall.
  change (29 <=? 28) with false in Hall.
  rewrite !andb_false_r in Hall. discriminate.
Qed.

Lemma leap_day_birthday_raises_witness :
  exists msg,
    get_upcoming_birthdays leap_day_today leap_day_book
    = (inl (ValueError msg), leap_day_book).
Proof.
  apply (leap_day_birthday_raises leap_day_today leap_day_book
           (store leap_day_book 1%nat) (Birthday.mk "29.02.2000" (mkdate 2000 2 29))).
  - simpl. tauto.
  - reflexivity.
  - reflexivity.
  - reflexivity.
  - reflexivity.
Defined.

(** C2 at a failing input: Bob's birthday is today, so his next
    occurrence lies in the window, but the book also holds a birthday on
    29 February and the year of today is not a leap year; the call raises
    and reports nobody. *)
Theorem upcoming_birthdays_leap_day_failure :
  qualifying leap_day_today (store leap_day_book 0%nat) = Some (mkdate 2023 3 1)
  /\ In (store leap_day_book 0%nat) (values leap_day_book)
  /\ get_upcoming_birthdays leap_day_today leap_day_book
     = (inl (ValueError "day is out of range for month"), leap_day_book).
Proof. split; [reflexivity|]. split; [simpl; tauto | reflexivity]. Qed.

(** ** Parsing a birthday *)

Lemma digit_cases (c : ascii) :
  is_digit c = true ->
  (c = "0" \/ c = "1" \/ c = "2" \/ c = "3" \/ c = "4"
   \/ c = "5" \/ c = "6" \/ c = "7" \/ c = "8" \/ c = "9")%char.
Proof.
  unfold is_digit. intros H. apply andb_prop in H. destruct H as [H1 H2].
  apply Nat.leb_le in H1, H2.
  rewrite <- (ascii_nat_embedding c).
  remember (nat_of_ascii c) as n eqn:En. clear En.
  assert (Hn : (n = 48 \/ n = 49 \/ n = 50 \/ n = 51 \/ n = 52 \/ n = 53
                \/ n = 54 \/ n = 55 \/ n = 56 \/ n = 57)%nat) by lia.
  repeat (destruct Hn as [->|Hn]; [tauto|]). subst n. tauto.
Qed.

Lemma rmatch_day (d1 d2 : ascii) (rest : string) :
  is_digit d1 = true -> is_digit d2 = true ->
  1 <= 10 * digit_value d1 + digit_value d2 <= 31 ->
  exists tl,
    rmatch re_d (String d1 (String d2 rest))
    = (String d1 (String d2 EmptyString), rest) :: tl.
Proof.
  intros H1 H2 Hv.
  apply digit_cases in H1, H2.
  repeat (destruct H1 as [H1|H1]); subst d1;
    repeat (destruct H2 as [H2|H2]); subst d2;
    try (exfalso; vm_compute in Hv; destruct Hv as [Ha Hb];
         (now apply Ha) || (now apply Hb));
    clear Hv; eexists; reflexivity.
Qed.

Lemma rmatch_month (m1 m2 : ascii) (rest : string) :
  is_digit m1 = true -> is_digit m2 = true ->
  1 <= 10 * digit_value m1 + digit_value m2 <= 12 ->
  exists tl,
    rmatch re_m (String m1 (String m2 rest))
    = (String m1 (String m2 EmptyString), rest) :: tl.
Proof.
  intros H1 H2 Hv.
  apply digit_cases in H1, H2.
  repeat (destruct H1 as [H1|H1]); subst m1;
    repeat (destruct H2 as [H2|H2]); subst m2;
    try (exfalso; vm_compute in Hv; destruct Hv as [Ha Hb];
         (now apply Ha) || (now apply Hb));
    clear Hv; eexists; reflexivity.
Qed.

Lemma rmatch_year (y1 y2 y3 y4 : ascii) (rest : string) :
  is_digit y1 = true -> is_digit y2 = true ->
  is_digit y3 = true -> is_digit y4 = true ->
  rmatch re_Y (String y1 (String y2 (String y3 (String y4 rest))))
  = [(String y1 (String y2 (String y3 (String y4 EmptyString))), rest)].
Proof.
  intros H1 H2 H3 H4. unfold re_Y, rmatch, match_then, match_char.
  rewrite H1. cbn [flat_map]. rewrite H2. cbn [flat_map].
  rewrite H3. cbn [flat_map]. rewrite H4. reflexivity.
Qed.

Lemma rmatch_dot (rest : string) :
  rmatch (Chr ".") (String "." rest) = [(".", rest)].
Proof. reflexivity. Qed.

Lemma int_two (c1 c2 : ascii) :
  is_digit c1 = true -> is_digit c2 = true ->
  int (String c1 (String c2 EmptyString)) = 10 * digit_value c1 + digit_value c2.
Proof.
  intros H1 H2. unfold int, digit_value. cbn [int_from]. rewrite H1, H2. lia.
Qed.

Lemma int_four (c1 c2 c3 c4 : ascii) :
  is_digit c1 = true -> is_digit c2 = true ->
  is_digit c3 = true -> is_digit c4 = true ->
  int (String c1 (String c2 (String c3 (String c4 EmptyString))))
  = 1000 * digit_value c1 + 100 * digit_value c2 + 10 * digit_value c3
    + digit_value c4.
Proof.
  intros H1 H2 H3 H4. unfold int, digit_value. cbn [int_from].
  rewrite H1, H2, H3, H4. lia.
Qed.

Lemma Some_inj {A : Type} (x y : A) : Some x = Some y -> x = y.
Proof. now intros [= ->]. Qed.

Lemma _days_in_month_le_31 (y m : Z) : _days_in_month y m <= 31.
Proof.
  unfold _days_in_month. destruct ((m =? 2) && _is_leap y); [lia|].
  unfold _DAYS_IN_MONTH.
  repeat match goal with
         | |- context [match ?x with _ => _ end] => destruct x
         end; lia.
Qed.

(** Every text DD.MM.YYYY that denotes a real calendar date is parsed to
    that date. *)
Lemma strptime_DDMMYYYY (s : string) (d : date) :
  read_DDMMYYYY s = Some d -> valid_date d = true -> strptime_dmY s = inr d.
Proof.
  unfold read_DDMMYYYY.
  destruct s as [|d1 [|d2 [|p1 [|m1 [|m2 [|p2 [|y1 [|y2 [|y3 [|y4 [|? ?]]]]]]]]]]];
    try discriminate.
  destruct (forallb is_digit [d1; d2; m1; m2; y1; y2; y3; y4]
            && Ascii.eqb p1 "." && Ascii.eqb p2 ".") eqn:E; [|discriminate].
  intros Hd Hv. apply Some_inj in Hd.
  apply andb_prop in E. destruct E as [E Ep2].
  apply andb_prop in E. destruct E as [E Ep1].
  apply Ascii.eqb_eq in Ep1, Ep2. subst p1 p2.
  cbn [forallb] in E.
  repeat (let H := fresh "Hc" in apply andb_prop in E; destruct E as [H E]).
  clear E.
  remember (1000 * digit_value y1 + 100 * digit_value y2 + 10 * digit_value y3
            + digit_value y4) as yy eqn:Eyy.
  remember (10 * digit_value m1 + digit_value m2) as mm eqn:Emm.
  remember (10 * digit_value d1 + digit_value d2) as dd eqn:Edd.
  subst d.
  pose proof Hv as Hv'. unfold valid_date in Hv'. cbn [year month day] in Hv'.
  bools.
  pose proof (_days_in_month_le_31 yy mm) as Hdim.
  destruct (rmatch_day d1 d2 (String "." (String m1 (String m2 (String "."
              (String y1 (String y2 (String y3 (String y4 EmptyString))))))))
              Hc Hc0 ltac:(lia)) as [tld Ed].
  destruct (rmatch_month m1 m2 (String "." (String y1 (String y2 (String y3
              (String y4 EmptyString))))) Hc1 Hc2 ltac:(lia)) as [tlm Em].
  unfold strptime_dmY, format_matches.
  rewrite Ed. cbn [flat_map]. rewrite rmatch_dot. cbn [flat_map].
  rewrite Em. cbn [flat_map]. rewrite rmatch_dot. cbn [flat_map].
  rewrite rmatch_year by assumption. cbn [map app String.eqb negb].
  rewrite !int_two, int_four by assumption.
  rewrite <- Eyy, <- Emm, <- Edd.
  now apply new_date_valid.
Qed.

Lemma strptime_raises_ValueError (s : string) (e : exn) :
  strptime_dmY s = inl e -> exists msg, e = ValueError msg.
Proof.
  unfold strptime_dmY.
  destruct (format_matches s) as [|[[[d m] y] rest] tl]; [intros [= <-]; eauto|].
  destruct (negb (String.eqb rest EmptyString)); [intros [= <-]; eauto|].
  destruct (valid_date (mkdate (int y) (int m) (int d))) eqn:E.
  - rewrite new_date_valid by assumption. discriminate.
  - destruct (new_date_invalid _ _ _ E) as [msg [-> _]]. intros [= <-]. eauto.
Qed.

Lemma Birthday_init_DDMMYYYY (s : string) (d : date) :
  read_DDMMYYYY s = Some d -> valid_date d = true ->
  Birthday.__init__ s = inr (Birthday.mk s d).
Proof.
  intros H Hv. unfold Birthday.__init__.
  now rewrite (strptime_DDMMYYYY s d H Hv).
Qed.

Lemma Birthday_init_error (s : string) (e : exn) :
  Birthday.__init__ s = inl e ->
  e = ValueError "Invalid date format. Use DD.MM.YYYY.".
Proof.
  unfold Birthday.__init__.
  destruct (strptime_dmY s) as [e'|d] eqn:E; [|discriminate].
  destruct (strptime_raises_ValueError s e' E) as [msg ->].
  now intros [= <-].
Qed.

(** ** The handlers *)

Lemma dict_get_set (key : string) (v : ref) (d : list (string * ref)) :
  dict_get key (dict_set key v d) = Some v.
Proof.
  induction d as [|[k x] d IH]; simpl.
  - now rewrite String.eqb_refl.
  - destruct (String.eqb k key) eqn:E; simpl; rewrite E; auto.
Qed.

Lemma nonempty_true (s : string) : s <> EmptyString -> Bot.nonempty s = true.
Proof.
  intros H. unfold Bot.nonempty.
  destruct (String.eqb_spec s EmptyString); [contradiction | reflexivity].
Qed.

(** C6.  For a contact of the book and a text DD.MM.YYYY that denotes a
    real calendar date, the command [add-birthday] succeeds and stores
    the text with its date, and [show-birthday] then answers with the
    very text that was given. *)
Theorem birthday_round_trip (w : world) (name s : string) (d : date)
        (record : ref) (rest rest' : list string) :
  dict_get name (data w) = Some record ->
  read_DDMMYYYY s = Some d ->
  valid_date d = true ->
  exists w',
    Bot.add_birthday (name :: s :: rest) w
    = (inr ("Birthday added for " +++ name +++ "."), w')
    /\ birthday (store w' record) = Some (Birthday.mk s d)
    /\ fst (Bot.show_birthday (name :: rest') w')
       = inr (name +++ "'s birthday is " +++ s).
Proof.
  intros Hfind Hs Hv.
  unfold Bot.add_birthday, Bot.input_error, Bot.add_birthday_body.
  unfold bind, Bot.unpack2, ret, find, gets, on, add_birthday, lift, modify.
  rewrite Hfind, (Birthday_init_DDMMYYYY s d Hs Hv).
  eexists. split; [reflexivity|].
  cbn [store data]. rewrite Nat.eqb_refl. split; [reflexivity|].
  unfold Bot.show_birthday, Bot.input_error, Bot.show_birthday_body.
  unfold bind, Bot.unpack1, ret, find, gets, on.
  cbn [store data]. rewrite Hfind. cbn [store]. rewrite Nat.eqb_refl.
  reflexivity.
Qed.

Lemma birthday_round_trip_witness :
  exists w',
    Bot.add_birthday ["Jane"; "29.02.2024"] scenario_book
    = (inr "Birthday added for Jane.", w')
    /\ birthday (store w' 0%nat)
       = Some (Birthday.mk "29.02.2024" (mkdate 2024 2 29))
    /\ fst (Bot.show_birthday ["Jane"] w') = inr "Jane's birthday is 29.02.2024".
Proof.
  apply (birthday_round_trip scenario_book "Jane" "29.02.2024" (mkdate 2024 2 29)
           0%nat [] []); reflexivity.
Defined.

(** C10 (as amended).  For a book without [name] and a malformed phone
    text that is not empty, [add] answers with the validation message,
    and the book then holds a record for [name] with an empty phone
    list: the record was inserted before the phone was validated. *)
Theorem add_contact_not_atomic (w : world) (name phone : string)
        (rest : list string) :
  dict_get name (data w) = None ->
  ten_digits phone = false ->
  phone <> EmptyString ->
  exists w' record,
    Bot.add_contact (name :: phone :: rest) w
    = (inr "Phone number must be 10 digits.", w')
    /\ dict_get name (data w') = Some record
    /\ store w' record = Record__init__ name.
Proof.
  intros Hfind Hbad Hne.
  unfold Bot.add_contact, Bot.input_error, Bot.add_contact_body.
  unfold bind, Bot.unpack2, ret, find, gets, new_Record, add_record, modify, on.
  rewrite Hfind, (nonempty_true phone Hne), task02_add_phone_eq.
  simpl. rewrite Nat.eqb_refl. simpl. rewrite Hbad.
  eexists. exists (next w). split; [reflexivity|].
  simpl. rewrite dict_get_set, Nat.eqb_refl. auto.
Qed.

Lemma add_contact_not_atomic_witness :
  exists w' record,
    Bot.add_contact ["Bob"; "12345"] empty_world
    = (inr "Phone number must be 10 digits.", w')
    /\ dict_get "Bob" (data w') = Some record
    /\ store w' record = Record__init__ "Bob".
Proof.
  apply (add_contact_not_atomic empty_world "Bob" "12345" []).
  - reflexivity.
  - reflexivity.
  - discriminate.
Defined.

(** C10, as stated, fails for the empty text: it is a malformed phone,
    but the handler skips [add_phone] for it and answers that the
    contact was added; no validation error is reported. *)
Lemma add_contact_empty_phone :
  dict_get "Bob" (data empty_world) = None
  /\ ten_digits EmptyString = false
  /\ fst (Bot.add_contact ["Bob"; EmptyString] empty_world) = inr "Contact added.".
Proof. repeat split. Qed.

(** ** Errors of the handlers *)

Lemma task02_add_phone_error (n : string) (self self' : Record_) (e : exn) :
  Task02.add_phone n self = (inl e, self') ->
  exists msg, e = ValueError msg /\ (phones_valid self -> one_line msg = true).
Proof.
  rewrite task02_add_phone_eq.
  destruct (first_with_value n (phones self)) as [p|] eqn:E.
  - intros [= <- <-]. eexists. split; [reflexivity|]. intros Hv.
    destruct (first_with_value_some _ _ _ E) as [Hin Hp].
    unfold phones_valid in Hv. rewrite Forall_forall in Hv.
    specialize (Hv p Hin). rewrite Hp in Hv.
    simpl. rewrite one_line_append, (ten_digits_one_line n Hv). reflexivity.
  - destruct (ten_digits n); [discriminate|].
    intros [= <- <-]. eexists. split; reflexivity.
Qed.

Lemma phones_remove_error (p : Phone.t) (self self' : Record_) (e : exn) :
  phones_remove p self = (inl e, self') ->
  exists msg, e = ValueError msg /\ one_line msg = true.
Proof.
  unfold phones_remove. destruct (list_remove p (phones self)); [discriminate|].
  intros [= <- <-]. eexists. split; reflexivity.
Qed.

Lemma task02_edit_phone_error (old new : string) (self self' : Record_) (e : exn) :
  Task02.edit_phone old new self = (inl e, self') ->
  exists msg, e = ValueError msg /\ (phones_valid self -> one_line msg = true).
Proof.
  unfold Task02.edit_phone, bind at 1, find_phone, gets.
  destruct (first_with_value old (phones self)) as [p|]; [|discriminate].
  unfold bind.
  destruct (Task02.add_phone new self) as [[e1|[]] self1] eqn:E1.
  - intros [= <- <-]. eapply task02_add_phone_error, E1.
  - intros H. destruct (phones_remove_error _ _ _ _ H) as [msg [-> Hl]]. eauto.
Qed.

Lemma add_birthday_error (s : string) (self self' : Record_) (e : exn) :
  add_birthday s self = (inl e, self') ->
  e = ValueError "Invalid date format. Use DD.MM.YYYY.".
Proof.
  unfold add_birthday, bind, lift, modify.
  destruct (Birthday.__init__ s) as [e'|b] eqn:E; [|discriminate].
  intros [= <- <-]. eapply Birthday_init_error, E.
Qed.

Lemma on_error {A : Type} (record : ref) (m : RM A) (w w' : world) (e : exn) :
  on record m w = (inl e, w') -> exists self', m (store w record) = (inl e, self').
Proof.
  unfold on. destruct (m (store w record)) as [res self']. intros [= -> _]. eauto.
Qed.

Ltac one_line_error :=
  eexists; split; [reflexivity | intros _; reflexivity].

Lemma add_contact_body_error (args : list string) (w w' : world) (e : exn) :
  Bot.add_contact_body args w = (inl e, w') ->
  exists msg, e = ValueError msg /\ (store_valid w -> one_line msg = true).
Proof.
  unfold Bot.add_contact_body, bind at 1, Bot.unpack2, raise, ret.
  destruct args as [|name [|phone rest]];
    try (intros [= <- <-]; one_line_error).
  unfold bind, find, gets, new_Record, add_record, modify, ret.
  destruct (dict_get name (data w)) as [record|].
  - destruct (Bot.nonempty phone); cbn zeta; [|discriminate].
    destruct (on record (Task02.add_phone phone) w) as [[e1|[]] w1] eqn:E1;
      [|discriminate].
    intros [= <- <-]. destruct (on_error _ _ _ _ _ E1) as [self' H].
    destruct (task02_add_phone_error _ _ _ _ H) as [msg [-> Hl]].
    exists msg. split; [reflexivity|]. intros Hv. apply Hl, Hv.
  - destruct (Bot.nonempty phone); cbn zeta; [|discriminate].
    match goal with
    | |- context [on ?r ?m ?w0] => destruct (on r m w0) as [[e1|[]] w1] eqn:E1
    end; [|discriminate].
    intros [= <- <-]. destruct (on_error _ _ _ _ _ E1) as [self' H].
    destruct (task02_add_phone_error _ _ _ _ H) as [msg [-> Hl]].
    exists msg. split; [reflexivity|]. intros _. apply Hl.
    cbn [store]. rewrite Nat.eqb_refl. constructor.
Qed.

Lemma change_contact_body_error (args : list string) (w w' : world) (e : exn) :
  Bot.change_contact_body args w = (inl e, w') ->
  exists msg, e = ValueError msg /\ (store_valid w -> one_line msg = true).
Proof.
  unfold Bot.change_contact_body, bind at 1, Bot.unpack3, raise, ret.
  destruct args as [|name [|old_phone [|new_phone rest]]];
    try (intros [= <- <-]; one_line_error).
  unfold bind, find, gets, ret.
  destruct (dict_get name (data w)) as [record|]; [|discriminate].
  destruct (on record (Task02.edit_phone old_phone new_phone) w)
    as [[e1|[]] w1] eqn:E1; [|discriminate].
  intros [= <- <-]. destruct (on_error _ _ _ _ _ E1) as [self' H].
  destruct (task02_edit_phone_error _ _ _ _ _ H) as [msg [-> Hl]].
  exists msg. split; [reflexivity|]. intros Hv. apply Hl, Hv.
Qed.

Lemma show_phone_body_error (args : list string) (w w' : world) (e : exn) :
  Bot.show_phone_body args w = (inl e, w') ->
  exists msg, e = ValueError msg /\ (store_valid w -> one_line msg = true).
Proof.
  unfold Bot.show_phone_body, bind at 1, Bot.unpack1, raise, ret.
  destruct args as [|name rest]; try (intros [= <- <-]; one_line_error).
  unfold bind, find, gets, ret, on.
  destruct (dict_get name (data w)) as [record|]; [|discriminate].
  destruct (phones (store w record)); discriminate.
Qed.

Lemma add_birthday_body_error (args : list string) (w w' : world) (e : exn) :
  Bot.add_birthday_body args w = (inl e, w') ->
  exists msg, e = ValueError msg /\ (store_valid w -> one_line msg = true).
Proof.
  unfold Bot.add_birthday_body, bind at 1, Bot.unpack2, raise, ret.
  destruct args as [|name [|birthday_str rest]];
    try (intros [= <- <-]; one_line_error).
  unfold bind, find, gets, ret.
  destruct (dict_get name (data w)) as [record|]; [|discriminate].
  destruct (on record (add_birthday birthday_str) w) as [[e1|[]] w1] eqn:E1;
    [|discriminate].
  intros [= <- <-]. destruct (on_error _ _ _ _ _ E1) as [self' H].
  rewrite (add_birthday_error _ _ _ _ H). one_line_error.
Qed.

Lemma show_birthday_body_error (args : list string) (w w' : world) (e : exn) :
  Bot.show_birthday_body args w = (inl e, w') ->
  exists msg, e = ValueError msg /\ (store_valid w -> one_line msg = true).
Proof.
  unfold Bot.show_birthday_body, bind at 1, Bot.unpack1, raise, ret.
  destruct args as [|name rest]; try (intros [= <- <-]; one_line_error).
  unfold bind, find, gets, ret, on.
  destruct (dict_get name (data w)) as [record|]; [|discriminate].
  destruct (birthday (store w record)); discriminate.
Qed.

Lemma birthdays_body_error (today : date) (args : list string) (w w' : world)
      (e : exn) :
  Bot.birthdays_body today args w = (inl e, w') ->
  exists msg, e = ValueError msg /\ (store_valid w -> one_line msg = true).
Proof.
  unfold Bot.birthdays_body, bind.
  pose proof (get_upcoming_birthdays_eq today w) as E.
  destruct (forallb (occurrence_defined today) (values w)).
  - rewrite E. destruct (expected_items today (values w)); discriminate.
  - destruct E as [msg [-> Hl]]. intros [= <- <-]. eauto.
Qed.

Lemma handler_body_error (today : date) (body : list string -> M string) :
  In body (handler_bodies today) ->
  forall args w w' e,
    body args w = (inl e, w') ->
    exists msg, e = ValueError msg /\ (store_valid w -> one_line msg = true).
Proof.
  unfold handler_bodies. cbn [In].
  intros [<-|[<-|[<-|[<-|[<-|[<-|[]]]]]]] args w w' e.
  - apply add_contact_body_error.
  - apply change_contact_body_error.
  - apply show_phone_body_error.
  - apply add_birthday_body_error.
  - apply show_birthday_body_error.
  - apply birthdays_body_error.
Qed.

(** ** The handlers keep the stored phones valid *)

Lemma keeps_ret {A : Type} (a : A) : keeps_valid (ret a).
Proof. intros w H. exact H. Qed.

Lemma keeps_raise {A : Type} (e : exn) : keeps_valid (@raise world A e).
Proof. intros w H. exact H. Qed.

Lemma keeps_gets {A : Type} (f : world -> A) : keeps_valid (gets f).
Proof. intros w H. exact H. Qed.

Lemma keeps_lift {A : Type} (r : exn + A) : keeps_valid (lift r).
Proof. intros w H. exact H. Qed.

Lemma keeps_bind {A B : Type} (m : M A) (k : A -> M B) :
  keeps_valid m -> (forall a, keeps_valid (k a)) -> keeps_valid (bind m k).
Proof.
  intros Hm Hk w H. unfold bind. specialize (Hm w H).
  destruct (m w) as [[e|a] w1]; [exact Hm|]. now apply Hk.
Qed.

Lemma keeps_on {A : Type} (record : ref) (m : RM A) :
  (forall self, phones_valid self -> phones_valid (snd (m self))) ->
  keeps_valid (on record m).
Proof.
  intros Hm w H r. unfold on. specialize (Hm (store w record) (H record)).
  destruct (m (store w record)) as [res self']. cbn [snd store] in *.
  destruct (Nat.eqb r record); [exact Hm | apply H].
Qed.

Lemma keeps_new_Record (name : string) : keeps_valid (new_Record name).
Proof.
  intros w H r. unfold new_Record. cbn [snd store].
  destruct (Nat.eqb r (next w)); [constructor | apply H].
Qed.

Lemma keeps_add_record (record : ref) : keeps_valid (add_record record).
Proof. intros w H r. apply H. Qed.

Lemma keeps_input_error {A : Type} (func : A -> M string) (args : A) :
  keeps_valid (func args) -> keeps_valid (Bot.input_error func args).
Proof.
  intros Hf w H. unfold Bot.input_error. specialize (Hf w H).
  destruct (func args w) as [[[]|msg] w1]; exact Hf.
Qed.

Lemma add_birthday_valid (s : string) (self : Record_) :
  phones_valid self -> phones_valid (snd (add_birthday s self)).
Proof.
  intros H. unfold add_birthday, bind, lift, modify.
  destruct (Birthday.__init__ s); exact H.
Qed.

Create HintDb keeps.
#[local] Hint Resolve keeps_ret keeps_raise keeps_gets keeps_lift keeps_new_Record
  keeps_add_record : keeps.

Ltac keeps :=
  repeat first
    [ progress auto with keeps
    | apply keeps_bind; [|intros ?]
    | apply keeps_on;
      first [ apply task02_add_phone_valid | apply task02_edit_phone_valid
            | apply add_birthday_valid | intros ? H; exact H ]
    | match goal with
      | |- keeps_valid (match ?x with _ => _ end) => destruct x
      | |- keeps_valid (if ?c then _ else _) => destruct c
      | |- keeps_valid (let '(_, _) := ?p in _) => destruct p
      end ].

Lemma add_contact_keeps (args : list string) : keeps_valid (Bot.add_contact args).
Proof.
  apply keeps_input_error. unfold Bot.add_contact_body, Bot.unpack2, find. keeps.
Qed.

Lemma change_contact_keeps (args : list string) :
  keeps_valid (Bot.change_contact args).
Proof.
  apply keeps_input_error. unfold Bot.change_contact_body, Bot.unpack3, find. keeps.
Qed.

Lemma show_phone_keeps (args : list string) : keeps_valid (Bot.show_phone args).
Proof.
  apply keeps_input_error. unfold Bot.show_phone_body, Bot.unpack1, find. keeps.
Qed.

Lemma add_birthday_keeps (args : list string) : keeps_valid (Bot.add_birthday args).
Proof.
  apply keeps_input_error. unfold Bot.add_birthday_body, Bot.unpack2, find. keeps.
Qed.

Lemma show_birthday_keeps (args : list string) :
  keeps_valid (Bot.show_birthday args).
Proof.
  apply keeps_input_error. unfold Bot.show_birthday_body, Bot.unpack1, find. keeps.
Qed.

Lemma get_upcoming_birthdays_keeps (today : date) :
  keeps_valid (get_upcoming_birthdays today).
Proof. intros w H. exact H. Qed.

Lemma birthdays_keeps (today : date) (args : list string) :
  keeps_valid (Bot.birthdays today args).
Proof.
  apply keeps_input_error. unfold Bot.birthdays_body.
  apply keeps_bind; [apply get_upcoming_birthdays_keeps|]. intros l. keeps.
Qed.

Lemma show_all_keeps : keeps_valid Bot.show_all.
Proof. intros w H. unfold Bot.show_all. destruct (data w); exact H. Qed.

Lemma main_iteration_keeps (today : date) (user_input : string) :
  keeps_valid (Bot.main_iteration today user_input).
Proof.
  unfold Bot.main_iteration.
  destruct (negb (Bot.nonempty user_input)); [apply keeps_ret|].
  apply keeps_bind; [apply keeps_lift|]. intros [command args].
  repeat match goal with
         | |- keeps_valid (if ?c then _ else _) => destruct c
         end;
    try apply keeps_ret;
    (apply keeps_bind; [|intros ?; apply keeps_ret]).
  - apply add_contact_keeps.
  - apply change_contact_keeps.
  - apply show_phone_keeps.
  - apply show_all_keeps.
  - apply add_birthday_keeps.
  - apply show_birthday_keeps.
  - apply birthdays_keeps.
Qed.

Lemma empty_world_valid : store_valid empty_world.
Proof. intros r. constructor. Qed.

(** ** The decorator and the loop *)

Lemma input_error_caught {A : Type} (func : A -> M string) (args : A)
      (w w' : world) (e : exn) (msg : string) :
  func args w = (inl e, w') -> caught_message e = Some msg ->
  Bot.input_error func args w = (inr msg, w').
Proof.
  intros H Hc. unfold Bot.input_error. rewrite H.
  destruct e; simpl in Hc; try discriminate; now injection Hc as ->.
Qed.

Lemma input_error_total (today : date) (body : list string -> M string) :
  In body (handler_bodies today) ->
  forall args w, exists msg w', Bot.input_error body args w = (inr msg, w').
Proof.
  intros Hin args w. unfold Bot.input_error.
  destruct (body args w) as [[e|msg] w'] eqn:E; [|eauto].
  destruct (handler_body_error today body Hin _ _ _ _ E) as [msg [-> _]]. eauto.
Qed.

Lemma show_all_total (w : world) : exists msg, Bot.show_all w = (inr msg, w).
Proof. unfold Bot.show_all. destruct (data w); eauto. Qed.

Ltac handler_returns today body :=
  let msg := fresh "msg" in
  let w1 := fresh "w" in
  let E := fresh "E" in
  match goal with
  | |- context [Bot.input_error body ?args ?w] =>
      destruct (input_error_total today body ltac:(unfold handler_bodies; cbn [In]; tauto)
                  args w) as [msg [w1 E]];
      rewrite E; discriminate
  end.

Lemma main_iteration_error (today : date) (user_input : string) (w w' : world)
      (e : exn) :
  Bot.main_iteration today user_input w = (inl e, w') ->
  w' = w /\ Bot.parse_input user_input = inl e.
Proof.
  unfold Bot.main_iteration.
  destruct (negb (Bot.nonempty user_input)); [discriminate|].
  unfold bind at 1, lift.
  destruct (Bot.parse_input user_input) as [e'|[command args]];
    [intros [= <- <-]; auto|].
  unfold Bot.add_contact, Bot.change_contact, Bot.show_phone, Bot.add_birthday,
    Bot.show_birthday, Bot.birthdays.
  repeat match goal with
         | |- context [if ?c then _ else _] => destruct c
         end;
    try discriminate; unfold bind.
  - handler_returns today Bot.add_contact_body.
  - handler_returns today Bot.change_contact_body.
  - handler_returns today Bot.show_phone_body.
  - destruct (show_all_total w) as [msg ->]. discriminate.
  - handler_returns today Bot.add_birthday_body.
  - handler_returns today Bot.show_birthday_body.
  - handler_returns today (Bot.birthdays_body today).
Qed.

Lemma main_loop_end (today : date) (inputs : list string) :
  forall w outs e,
    Bot.main_loop today inputs w = (outs, Some e) ->
    e = EOFError
    \/ exists user_input, In user_input inputs /\ Bot.parse_input user_input = inl e.
Proof.
  induction inputs as [|user_input rest IH]; intros w outs e; cbn [Bot.main_loop].
  - intros [= _ <-]. now left.
  - destruct (Bot.main_iteration today user_input w) as [[e1|[[] out]] w1] eqn:E.
    + intros [= _ <-]. right. exists user_input. split; [now left|].
      now destruct (main_iteration_error _ _ _ _ _ E).
    + destruct (Bot.main_loop today rest w1) as [outs1 e1] eqn:E1.
      intros [= _ ->]. destruct (IH _ _ _ E1) as [->|[u [Hin Hp]]]; [now left|].
      right. exists u. split; [now right | assumption].
    + discriminate.
Qed.

Lemma parse_input_nonempty (user_input : string) (p : string * list string) :
  Bot.parse_input user_input = inr p -> Bot.nonempty user_input = true.
Proof. destruct user_input; [discriminate | reflexivity]. Qed.

Lemma main_iteration_break (today : date) (user_input : string) (w w' : world)
      (out : string) :
  Bot.main_iteration today user_input w = (inr (Bot.Break, out), w') ->
  is_exit user_input /\ out = "Good bye!" /\ w' = w.
Proof.
  unfold Bot.main_iteration, is_exit.
  destruct (negb (Bot.nonempty user_input)); [discriminate|].
  unfold bind at 1, lift.
  destruct (Bot.parse_input user_input) as [e'|[command args]]; [discriminate|].
  destruct (String.eqb_spec command "close") as [->|_];
    [intros [= <- <-]; eauto|].
  destruct (String.eqb_spec command "exit") as [->|_];
    [intros [= <- <-]; eauto|].
  cbn [orb]. unfold bind, ret.
  repeat match goal with
         | |- context [if ?c then _ else _] => destruct c
         end;
    try discriminate;
    match goal with
    | |- context [match ?m w with _ => _ end] => destruct (m w) as [[e|o] w1]
    end; discriminate.
Qed.

Lemma main_iteration_reads_on (today : date) (user_input : string) (w : world) :
  reads_on user_input = true ->
  exists out w', Bot.main_iteration today user_input w = (inr (Bot.Continue, out), w').
Proof.
  unfold reads_on, Bot.main_iteration.
  destruct (negb (Bot.nonempty user_input)); [intros _; unfold ret; eauto|].
  cbn [orb]. unfold bind at 1, lift.
  destruct (Bot.parse_input user_input) as [e'|[command args]]; [discriminate|].
  destruct (String.eqb command "close" || String.eqb command "exit");
    [discriminate|]. intros _.
  unfold Bot.add_contact, Bot.change_contact, Bot.show_phone, Bot.add_birthday,
    Bot.show_birthday, Bot.birthdays.
  repeat match goal with
         | |- context [if ?c then _ else _] => destruct c
         end;
    unfold bind, ret; eauto.
  - destruct (input_error_total today Bot.add_contact_body
                ltac:(unfold handler_bodies; cbn [In]; tauto) args w)
      as [msg [w1 ->]]. eauto.
  - destruct (input_error_total today Bot.change_contact_body
                ltac:(unfold handler_bodies; cbn [In]; tauto) args w)
      as [msg [w1 ->]]. eauto.
  - destruct (input_error_total today Bot.show_phone_body
                ltac:(unfold handler_bodies; cbn [In]; tauto) args w)
      as [msg [w1 ->]]. eauto.
  - destruct (show_all_total w) as [msg ->]. eauto.
  - destruct (input_error_total today Bot.add_birthday_body
                ltac:(unfold handler_bodies; cbn [In]; tauto) args w)
      as [msg [w1 ->]]. eauto.
  - destruct (input_error_total today Bot.show_birthday_body
                ltac:(unfold handler_bodies; cbn [In]; tauto) args w)
      as [msg [w1 ->]]. eauto.
  - destruct (input_error_total today (Bot.birthdays_body today)
                ltac:(unfold handler_bodies; cbn [In]; tauto) args w)
      as [msg [w1 ->]]. eauto.
Qed.

Lemma command_bodies_handlers (today : date) (command : string)
      (body : list string -> M string) :
  In (command, body) (command_bodies today) -> In body (handler_bodies today).
Proof.
  unfold command_bodies, handler_bodies. cbn [In].
  intros [[= <- <-]|[[= <- <-]|[[= <- <-]|[[= <- <-]|[[= <- <-]|[[= <- <-]|[]]]]]]];
    tauto.
Qed.

(** A line with the command word of a decorated handler prints what the
    decorated handler returns, and the loop goes on. *)
Lemma main_iteration_dispatch (today : date) (command : string)
      (body : list string -> M string) (user_input : string) (args : list string)
      (w w' : world) (out : string) :
  In (command, body) (command_bodies today) ->
  Bot.parse_input user_input = inr (command, args) ->
  Bot.input_error body args w = (inr out, w') ->
  Bot.main_iteration today user_input w = (inr (Bot.Continue, out), w').
Proof.
  intros Hin Hp H. unfold Bot.main_iteration.
  rewrite (parse_input_nonempty _ _ Hp). cbn [negb].
  unfold bind at 1, lift. rewrite Hp.
  unfold Bot.add_contact, Bot.change_contact, Bot.show_phone, Bot.add_birthday,
    Bot.show_birthday, Bot.birthdays.
  unfold command_bodies in Hin. cbn [In] in Hin.
  destruct Hin
    as [[= <- <-]|[[= <- <-]|[[= <- <-]|[[= <- <-]|[[= <- <-]|[[= <- <-]|[]]]]]]];
    cbn [String.eqb Ascii.eqb Bool.eqb orb andb]; unfold bind, ret; now rewrite H.
Qed.

Lemma main_loop_continue (today : date) (user_input : string)
      (rest : list string) (w w' : world) (out : string) :
  Bot.main_iteration today user_input w = (inr (Bot.Continue, out), w') ->
  Bot.main_loop today (user_input :: rest) w
  = (out :: fst (Bot.main_loop today rest w'), snd (Bot.main_loop today rest w')).
Proof.
  intros H. cbn [Bot.main_loop]. rewrite H.
  now destruct (Bot.main_loop today rest w').
Qed.

Lemma main_loop_reads_on (today : date) (inputs : list string) :
  forall w,
    forallb reads_on inputs = true ->
    exists outs,
      Bot.main_loop today inputs w = (outs, Some EOFError)
      /\ List.length outs = List.length inputs.
Proof.
  induction inputs as [|user_input rest IH]; intros w; cbn [forallb].
  - intros _. exists []. split; reflexivity.
  - intros H. apply andb_prop in H. destruct H as [Hu Hr].
    destruct (main_iteration_reads_on today user_input w Hu) as [out [w' E]].
    destruct (IH w' Hr) as [outs [El Hl]].
    exists (out :: outs). rewrite (main_loop_continue _ _ _ _ _ _ E), El.
    cbn [fst snd List.length]. now rewrite Hl.
Qed.

Lemma main_loop_normal_end (today : date) (inputs : list string) :
  forall w outs,
    Bot.main_loop today inputs w = (outs, None) ->
    exists user_input outs',
      In user_input inputs /\ is_exit user_input /\ outs = outs' ++ ["Good bye!"].
Proof.
  induction inputs as [|user_input rest IH]; intros w outs; cbn [Bot.main_loop].
  - discriminate.
  - destruct (Bot.main_iteration today user_input w) as [[e1|[[] out]] w1] eqn:E.
    + discriminate.
    + destruct (Bot.main_loop today rest w1) as [outs1 e1] eqn:E1.
      intros [= <- ->]. destruct (IH _ _ E1) as [u [outs' [Hin [Hx ->]]]].
      exists u, (out :: outs'). split; [now right|]. split; [assumption|reflexivity].
    + intros [= <-]. destruct (main_iteration_break _ _ _ _ _ E) as [Hx [-> _]].
      exists user_input, []. split; [now left|]. split; [assumption|reflexivity].
Qed.

(** C8.  Whatever a wrapped handler body raises among [KeyError],
    [ValueError] and [IndexError], the decorated call returns the message
    instead of raising.  The bodies of the six decorated handlers raise
    nothing else, so every decorated call returns a text, and the text
    returned for an error has one line.  A turn of the console loop
    raises only when the input line cannot be split into a command, and
    the loop ends by an exception only for that reason or at the end of
    the input: never by an error of a handler.  The book states of the
    loop are those with valid stored phones: the empty book is one, and
    every turn keeps them so.  When the body of the handler a line calls
    raises, the turn prints the message and the loop goes on with the
    lines that follow, in the state the body left.  A turn breaks the
    loop only for the command words [close] and [exit]; the loop ends
    without an exception only after such a line, with the farewell; and
    when no line is blank or has such a command word, every line is
    answered and the loop runs to the end of the input. *)
Theorem handler_errors_become_messages (today : date) :
  (forall (A : Type) (func : A -> M string) args w e w' msg,
      func args w = (inl e, w') -> caught_message e = Some msg ->
      Bot.input_error func args w = (inr msg, w'))
  /\ (forall body, In body (handler_bodies today) ->
      forall args w e w',
        body args w = (inl e, w') ->
        exists msg,
          caught_message e = Some msg
          /\ Bot.input_error body args w = (inr msg, w')
          /\ (store_valid w -> one_line msg = true))
  /\ (forall user_input w e w',
        Bot.main_iteration today user_input w = (inl e, w') ->
        w' = w /\ Bot.parse_input user_input = inl e)
  /\ (forall inputs w outs e,
        Bot.main_loop today inputs w = (outs, Some e) ->
        e = EOFError
        \/ exists user_input,
            In user_input inputs /\ Bot.parse_input user_input = inl e)
  /\ store_valid empty_world
  /\ (forall user_input w,
        store_valid w -> store_valid (snd (Bot.main_iteration today user_input w)))
  /\ (forall command body, In (command, body) (command_bodies today) ->
      forall user_input args w e w',
        Bot.parse_input user_input = inr (command, args) ->
        body args w = (inl e, w') ->
        exists msg,
          caught_message e = Some msg
          /\ Bot.main_iteration today user_input w = (inr (Bot.Continue, msg), w')
          /\ forall rest,
              Bot.main_loop today (user_input :: rest) w
              = (msg :: fst (Bot.main_loop today rest w'),
                 snd (Bot.main_loop today rest w')))
  /\ (forall user_input w out w',
        Bot.main_iteration today user_input w = (inr (Bot.Break, out), w') ->
        is_exit user_input /\ out = "Good bye!" /\ w' = w)
  /\ (forall inputs w outs,
        Bot.main_loop today inputs w = (outs, None) ->
        exists user_input outs',
          In user_input inputs /\ is_exit user_input
          /\ outs = outs' ++ ["Good bye!"])
  /\ (forall inputs w,
        forallb reads_on inputs = true ->
        exists outs,
          Bot.main_loop today inputs w = (outs, Some EOFError)
          /\ List.length outs = List.length inputs).
Proof.
  split; [|split; [|split; [|split; [|split; [|split; [|split; [|split; [|split]]]]]]]];
    [ | | | | apply empty_world_valid | intros u; apply main_iteration_keeps
    | | | | ].
  - intros A func args w e w' msg. apply input_error_caught.
  - intros body Hin args w e w' H.
    destruct (handler_body_error today body Hin _ _ _ _ H) as [msg [-> Hl]].
    exists msg. split; [reflexivity|]. split; [|assumption].
    now apply input_error_caught with (e := ValueError msg).
  - intros user_input w e w'. apply main_iteration_error.
  - intros inputs. apply main_loop_end.
  - intros command body Hin user_input args w e w' Hp H.
    destruct (handler_body_error today body (command_bodies_handlers _ _ _ Hin)
                _ _ _ _ H) as [msg [-> _]].
    exists msg. split; [reflexivity|].
    assert (E : Bot.main_iteration today user_input w = (inr (Bot.Continue, msg), w')).
    { apply (main_iteration_dispatch today command body _ args); try assumption.
      now apply input_error_caught with (e := ValueError msg). }
    split; [exact E|]. intros rest. now apply main_loop_continue.
  - intros user_input w out w'. apply main_iteration_break.
  - intros inputs. apply main_loop_normal_end.
  - intros inputs w. now apply main_loop_reads_on.
Qed.

Lemma handler_errors_become_messages_witness :
  Bot.input_error Bot.add_contact_body ["Bob"] empty_world
  = (inr "not enough values to unpack (expected at least 2, got 1)", empty_world)
  /\ (exists msg,
        caught_message (ValueError "Phone number must be 10 digits.") = Some msg
        /\ Bot.input_error Bot.add_contact_body ["Jane"; "12345"] scenario_book
           = (inr msg, snd (Bot.add_contact_body ["Jane"; "12345"] scenario_book))
        /\ (store_valid scenario_book -> one_line msg = true))
  /\ (empty_world = empty_world
      /\ Bot.parse_input " "
         = inl (ValueError "not enough values to unpack (expected at least 1, got 0)"))
  /\ (EOFError = EOFError
      \/ exists user_input,
          In user_input ["hello"] /\ Bot.parse_input user_input = inl EOFError)
  /\ store_valid
       (snd (Bot.main_iteration scenario_today "add Bob 12345" empty_world))
  /\ (exists msg,
        caught_message (ValueError "Phone number must be 10 digits.") = Some msg
        /\ Bot.main_iteration scenario_today "add Mark 12345" phone_book
           = (inr (Bot.Continue, msg),
              snd (Bot.add_contact_body ["Mark"; "12345"] phone_book))
        /\ forall rest,
            Bot.main_loop scenario_today ("add Mark 12345" :: rest) phone_book
            = (msg :: fst (Bot.main_loop scenario_today rest
                             (snd (Bot.add_contact_body ["Mark"; "12345"] phone_book))),
               snd (Bot.main_loop scenario_today rest
                      (snd (Bot.add_contact_body ["Mark"; "12345"] phone_book)))))
  /\ (is_exit "Exit now" /\ "Good bye!" = "Good bye!" /\ phone_book = phone_book)
  /\ (exists user_input outs',
        In user_input ["add Mark 12345"; "phone Jane"; "exit"]
        /\ is_exit user_input
        /\ ["Phone number must be 10 digits."; "Jane: 1234567890"; "Good bye!"]
           = outs' ++ ["Good bye!"])
  /\ (exists outs,
        Bot.main_loop scenario_today
          ["add Mark 12345"; "change Jane 1 2"; "phone"; "add-birthday Jane 1";
           "show-birthday Bob"; "phone Jane"] phone_book
        = (outs, Some EOFError)
        /\ List.length outs = 6%nat).
Proof.
  destruct (handler_errors_become_messages scenario_today)
    as [H1 [H2 [H3 [H4 [H5 [H6 [H7 [H8 [H9 H10]]]]]]]]].
  split; [|split; [|split; [|split; [|split; [|split; [|split; [|split]]]]]]].
  - apply (H1 _ Bot.add_contact_body ["Bob"] empty_world
              (ValueError "not enough values to unpack (expected at least 2, got 1)"));
      reflexivity.
  - apply (H2 Bot.add_contact_body); [simpl; tauto | reflexivity].
  - apply (H3 " " empty_world); reflexivity.
  - apply (H4 ["hello"] empty_world ["How can I help you?"]); reflexivity.
  - apply H6, H5.
  - apply (H7 "add" Bot.add_contact_body) with (args := ["Mark"; "12345"]);
      [simpl; tauto | reflexivity | reflexivity].
  - apply (H8 "Exit now" phone_book "Good bye!" phone_book). reflexivity.
  - apply (H9 ["add Mark 12345"; "phone Jane"; "exit"] phone_book). reflexivity.
  - apply (H10 ["add Mark 12345"; "change Jane 1 2"; "phone"; "add-birthday Jane 1";
                "show-birthday Bob"; "phone Jane"] phone_book). reflexivity.
Defined.

(** ** Runs of the model *)

(** The scenario of the specification: Jane's occurrence has passed and
    rolls to next year, Mark's falls on a Friday and stays, John's falls on
    a Saturday and moves to the Monday. *)
Example scenario_run :
  get_upcoming_birthdays scenario_today scenario_book
  = (inr [mkitem "Mark" "19.07.2024"; mkitem "John" "22.07.2024"], scenario_book)
  /\ next_occurrence scenario_today (mkdate 1995 7 14) = Some (mkdate 2025 7 14)
  /\ weekday (mkdate 2024 7 19) = 4
  /\ weekday (mkdate 2024 7 20) = 5.
Proof. repeat split. Qed.

Example strptime_examples :
  strptime_dmY "14.07.1995" = inr (mkdate 1995 7 14)
  /\ strptime_dmY "1.1.2000" = inr (mkdate 2000 1 1)
  /\ strptime_dmY "31.04.2000" = inl (ValueError "day is out of range for month")
  /\ strptime_dmY "05.12.20001" = inl (ValueError "unconverted data remains: 1")
  /\ strptime_dmY "2000-01-01" = inl (ValueError "time data does not match format").
Proof. repeat split. Qed.

Example session_run :
  Bot.main scenario_today
    ["add Jane 1234567890"; "add Jane 1234567890"; "add Mark 12345";
     "add-birthday Mark 19.07.1995"; "change Jane 1234567890 0987654321";
     "phone Jane"; "birthdays"; "show-birthday"; "EXIT"]
  = (["Welcome to the assistant bot!"; "Contact added.";
      "Phone 1234567890 already exists."; "Phone number must be 10 digits.";
      "Birthday added for Mark."; "Phone number updated for Jane.";
      "Jane: 0987654321"; "Mark should be congratulated on 19.07.2024";
      "not enough values to unpack (expected at least 1, got 0)"; "Good bye!"],
     None).
Proof. reflexivity. Qed.

(** * Further properties *)

(** ** More on the phone list *)

Lemma list_remove_split (n : string) (l : list Phone.t) (p : Phone.t) :
  first_with_value n l = Some p ->
  exists l1 l2,
    l = l1 ++ p :: l2 /\ Phone.value p = n /\ ~ In n (map Phone.value l1)
    /\ list_remove p l = Some (l1 ++ l2).
Proof.
  induction l as [|q l IH]; simpl; [discriminate|].
  destruct (String.eqb_spec (Phone.value q) n) as [E|E].
  - intros [= <-]. exists [], l. rewrite String.eqb_refl. simpl. tauto.
  - intros H. destruct (IH H) as [l1 [l2 [-> [Hp [Hn Hr]]]]].
    exists (q :: l1), l2. simpl.
    destruct (String.eqb_spec (Phone.value q) (Phone.value p)) as [E'|_];
      [congruence|].
    rewrite Hr. simpl. repeat split; try assumption. intros [F|F]; auto.
Qed.

Lemma NoDup_numbers_split (l1 l2 : list Phone.t) (p : Phone.t) :
  NoDup (map Phone.value (l1 ++ p :: l2)) ->
  NoDup (map Phone.value (l1 ++ l2))
  /\ ~ In (Phone.value p) (map Phone.value (l1 ++ l2)).
Proof.
  rewrite !map_app. cbn [map]. intros H.
  split; [eapply NoDup_remove_1 | eapply NoDup_remove_2]; exact H.
Qed.

Lemma NoDup_numbers_append (l : list Phone.t) (n : string) :
  NoDup (map Phone.value l) -> ~ In n (map Phone.value l) ->
  NoDup (map Phone.value (l ++ [Phone.mk n])).
Proof.
  intros H Hn. rewrite map_app. cbn [map Phone.value].
  apply NoDup_app; [assumption | repeat constructor; auto | ].
  intros x Hx [<-|[]]. contradiction.
Qed.

Lemma remove_phone_eq (n : string) (self : Record_) :
  remove_phone n self =
  match first_with_value n (phones self) with
  | Some p =>
      match list_remove p (phones self) with
      | Some l => (inr tt, set_phones l self)
      | None => (inl (ValueError "list.remove(x): x not in list"), self)
      end
  | None => (inr tt, self)
  end.
Proof.
  unfold remove_phone, bind, find_phone, gets, phones_remove, ret.
  destruct (first_with_value n (phones self)); reflexivity.
Qed.

(** X1.  [remove_phone] never raises.  When the number is not on the
    record, the record stays as it is; when it is, exactly the first
    phone with that number is dropped, and the other phones keep their
    order. *)
Theorem remove_phone_effect (n : string) (self : Record_) :
  (~ In n (phone_numbers self) -> remove_phone n self = (inr tt, self))
  /\ (In n (phone_numbers self) ->
      exists l1 p l2,
        phones self = l1 ++ p :: l2 /\ Phone.value p = n
        /\ ~ In n (map Phone.value l1)
        /\ remove_phone n self = (inr tt, set_phones (l1 ++ l2) self)).
Proof.
  rewrite remove_phone_eq. split.
  - intros H. apply first_with_value_none in H. now rewrite H.
  - intros H. apply first_with_value_in in H. destruct H as [p Hp].
    destruct (list_remove_split _ _ _ Hp) as [l1 [l2 [E [Hv [Hn Hr]]]]].
    exists l1, p, l2. rewrite Hp, Hr. auto.
Qed.

Lemma remove_phone_effect_witness :
  remove_phone "0000000000"
    (mkRecord "Ann" [Phone.mk "1111111111"; Phone.mk "2222222222"] None)
  = (inr tt, mkRecord "Ann" [Phone.mk "1111111111"; Phone.mk "2222222222"] None)
  /\ exists l1 p l2,
      [Phone.mk "1111111111"; Phone.mk "2222222222"; Phone.mk "1111111111"]
      = l1 ++ p :: l2
      /\ Phone.value p = "1111111111"
      /\ ~ In "1111111111" (map Phone.value l1)
      /\ remove_phone "1111111111"
           (mkRecord "Ann" [Phone.mk "1111111111"; Phone.mk "2222222222";
                            Phone.mk "1111111111"] None)
         = (inr tt,
            set_phones (l1 ++ l2)
              (mkRecord "Ann" [Phone.mk "1111111111"; Phone.mk "2222222222";
                               Phone.mk "1111111111"] None)).
Proof.
  split.
  - apply (remove_phone_effect "0000000000"
             (mkRecord "Ann" [Phone.mk "1111111111"; Phone.mk "2222222222"] None)).
    simpl. intros [H|[H|[]]]; discriminate H.
  - apply (remove_phone_effect "1111111111"
             (mkRecord "Ann" [Phone.mk "1111111111"; Phone.mk "2222222222";
                              Phone.mk "1111111111"] None)).
    simpl. tauto.
Defined.

(** *** The variant of task 02 keeps the numbers of a record distinct *)

Lemma remove_phone_distinct (n : string) (self : Record_) :
  NoDup (phone_numbers self) -> NoDup (phone_numbers (snd (remove_phone n self))).
Proof.
  intros H. rewrite remove_phone_eq.
  destruct (first_with_value n (phones self)) as [p|] eqn:E; [|assumption].
  destruct (list_remove_split _ _ _ E) as [l1 [l2 [El [_ [_ Hr]]]]].
  rewrite Hr. unfold phone_numbers in *. cbn [snd set_phones phones].
  rewrite El in H. now apply NoDup_numbers_split in H.
Qed.

Lemma task02_add_phone_distinct (n : string) (self : Record_) :
  NoDup (phone_numbers self) ->
  NoDup (phone_numbers (snd (Task02.add_phone n self))).
Proof.
  intros H. rewrite task02_add_phone_eq.
  destruct (first_with_value n (phones self)) eqn:E; [assumption|].
  destruct (ten_digits n); [|assumption].
  apply first_with_value_none in E.
  unfold phone_numbers. cbn [snd set_phones phones].
  now apply NoDup_numbers_append.
Qed.

Lemma task02_edit_phone_eq (old new : string) (self : Record_) :
  Task02.edit_phone old new self =
  match first_with_value old (phones self) with
  | None => (inr tt, self)
  | Some p =>
      match first_with_value new (phones self) with
      | Some _ => (inl (ValueError ("Phone " +++ new +++ " already exists.")), self)
      | None =>
          if ten_digits new
          then match list_remove p (phones self) with
               | Some l => (inr tt, set_phones (l ++ [Phone.mk new]) self)
               | None => (inl (ValueError "list.remove(x): x not in list"),
                          set_phones (phones self ++ [Phone.mk new]) self)
               end
          else (inl (ValueError "Phone number must be 10 digits."), self)
      end
  end.
Proof.
  unfold Task02.edit_phone, bind at 1, find_phone, gets.
  destruct (first_with_value old (phones self)) as [p|] eqn:Ep; [|reflexivity].
  unfold bind. rewrite task02_add_phone_eq.
  destruct (first_with_value new (phones self)); [reflexivity|].
  destruct (ten_digits new); [|reflexivity].
  destruct (list_remove_app old (phones self) p (Phone.mk new) Ep) as [l' [H1 H2]].
  unfold phones_remove. cbn [phones set_phones]. rewrite H1, H2. reflexivity.
Qed.

Lemma task02_edit_phone_distinct (old new : string) (self : Record_) :
  NoDup (phone_numbers self) ->
  NoDup (phone_numbers (snd (Task02.edit_phone old new self))).
Proof.
  intros H. rewrite task02_edit_phone_eq.
  destruct (first_with_value old (phones self)) as [p|] eqn:Ep; [|assumption].
  destruct (first_with_value new (phones self)) eqn:En; [assumption|].
  destruct (ten_digits new); [|assumption].
  destruct (list_remove_split _ _ _ Ep) as [l1 [l2 [El [_ [_ Hr]]]]].
  rewrite Hr. apply first_with_value_none in En.
  unfold phone_numbers in *. cbn [snd set_phones phones].
  rewrite El in H, En. apply NoDup_numbers_split in H. destruct H as [H _].
  apply NoDup_numbers_append; [assumption|].
  intros F. apply En. rewrite map_app in *. cbn [map].
  apply in_app_or in F. apply in_or_app. destruct F; [now left | right; now right].
Qed.

(** X2.  In the variant of task 02, whatever sequence of [add_phone],
    [remove_phone] and [edit_phone] calls is run on a fresh record, no
    number is on the record twice. *)
Theorem task02_numbers_distinct (name : string) (ops : list op) :
  NoDup (phone_numbers
           (run_ops Task02.add_phone Task02.edit_phone ops (Record__init__ name))).
Proof.
  apply (run_ops_keeps Task02.add_phone Task02.edit_phone
           (fun self => NoDup (phone_numbers self)));
    auto using task02_add_phone_distinct, task02_edit_phone_distinct,
      remove_phone_distinct.
  constructor.
Qed.

(** *** The effect of [edit_phone] *)

(** X3.  In the variant of task 02, for a record that holds [old]:
    [edit_phone(old, new)] raises and leaves the record as it is when
    [new] is already on the record or is not a 10-digit number; in
    particular a number cannot be edited to itself. *)
Theorem task02_edit_phone_rejection (self : Record_) (old new : string) :
  In old (phone_numbers self) ->
  (In new (phone_numbers self) ->
   Task02.edit_phone old new self
   = (inl (ValueError ("Phone " +++ new +++ " already exists.")), self))
  /\ (~ In new (phone_numbers self) -> ten_digits new = false ->
      Task02.edit_phone old new self
      = (inl (ValueError "Phone number must be 10 digits."), self))
  /\ Task02.edit_phone old old self
     = (inl (ValueError ("Phone " +++ old +++ " already exists.")), self).
Proof.
  intros Hold. rewrite !task02_edit_phone_eq.
  destruct (first_with_value_in _ _ Hold) as [p Hp]. rewrite Hp.
  split; [|split].
  - intros Hnew. destruct (first_with_value_in _ _ Hnew) as [q ->]. reflexivity.
  - intros Hnew Hbad. apply first_with_value_none in Hnew. now rewrite Hnew, Hbad.
  - reflexivity.
Qed.

Lemma task02_edit_phone_rejection_witness :
  Task02.edit_phone "1111111111" "2222222222"
    (mkRecord "Ann" [Phone.mk "1111111111"; Phone.mk "2222222222"] None)
  = (inl (ValueError "Phone 2222222222 already exists."),
     mkRecord "Ann" [Phone.mk "1111111111"; Phone.mk "2222222222"] None)
  /\ Task02.edit_phone "1111111111" "12345"
       (mkRecord "Ann" [Phone.mk "1111111111"; Phone.mk "2222222222"] None)
     = (inl (ValueError "Phone number must be 10 digits."),
        mkRecord "Ann" [Phone.mk "1111111111"; Phone.mk "2222222222"] None)
  /\ Task02.edit_phone "1111111111" "1111111111"
       (mkRecord "Ann" [Phone.mk "1111111111"; Phone.mk "2222222222"] None)
     = (inl (ValueError "Phone 1111111111 already exists."),
        mkRecord "Ann" [Phone.mk "1111111111"; Phone.mk "2222222222"] None).
Proof.
  assert (Hold : In "1111111111"
                   (phone_numbers
                      (mkRecord "Ann" [Phone.mk "1111111111"; Phone.mk "2222222222"]
                                None)))
    by (simpl; tauto).
  destruct (task02_edit_phone_rejection _ "1111111111" "2222222222" Hold)
    as [A [_ C]].
  destruct (task02_edit_phone_rejection _ "1111111111" "12345" Hold) as [_ [B _]].
  split; [apply A; simpl; tauto|].
  split; [|exact C].
  apply B; [|reflexivity]. simpl. intros [H|[H|[]]]; discriminate H.
Defined.

(** X4.  In the variant of task 02, for a record that holds [old] and a
    10-digit number [new] that is not on the record, [edit_phone(old,
    new)] returns; the first phone with the number [old] is dropped, the
    other phones keep their order, and [new] is put last (not in the
    place of [old]). *)
Theorem task02_edit_phone_moves_last (self : Record_) (old new : string) :
  In old (phone_numbers self) ->
  ten_digits new = true ->
  ~ In new (phone_numbers self) ->
  exists l1 p l2,
    phones self = l1 ++ p :: l2 /\ Phone.value p = old
    /\ ~ In old (map Phone.value l1)
    /\ Task02.edit_phone old new self
       = (inr tt, set_phones (l1 ++ l2 ++ [Phone.mk new]) self).
Proof.
  intros Hold Hv Hnew. rewrite task02_edit_phone_eq.
  destruct (first_with_value_in _ _ Hold) as [p Hp]. rewrite Hp.
  apply first_with_value_none in Hnew. rewrite Hnew, Hv.
  destruct (list_remove_split _ _ _ Hp) as [l1 [l2 [E [Hpv [Hn Hr]]]]].
  exists l1, p, l2. rewrite Hr, <- app_assoc. auto.
Qed.

Lemma task02_edit_phone_moves_last_witness :
  exists l1 p l2,
    [Phone.mk "1111111111"; Phone.mk "2222222222"] = l1 ++ p :: l2
    /\ Phone.value p = "1111111111"
    /\ ~ In "1111111111" (map Phone.value l1)
    /\ Task02.edit_phone "1111111111" "3333333333"
         (mkRecord "Ann" [Phone.mk "1111111111"; Phone.mk "2222222222"] None)
       = (inr tt,
          set_phones (l1 ++ l2 ++ [Phone.mk "3333333333"])
            (mkRecord "Ann" [Phone.mk "1111111111"; Phone.mk "2222222222"] None)).
Proof.
  apply (task02_edit_phone_moves_last
           (mkRecord "Ann" [Phone.mk "1111111111"; Phone.mk "2222222222"] None)
           "1111111111" "3333333333").
  - simpl. tauto.
  - reflexivity.
  - simpl. intros [H|[H|[]]]; discriminate H.
Defined.

Lemma task01_edit_phone_eq (old new : string) (self : Record_) :
  Task01.edit_phone old new self =
  match first_with_value old (phones self) with
  | None => (inr tt, self)
  | Some p =>
      match list_remove p (phones self) with
      | Some l =>
          if ten_digits new
          then (inr tt, set_phones (l ++ [Phone.mk new]) self)
          else (inl (ValueError "Phone number must be 10 digits."),
                set_phones l self)
      | None => (inl (ValueError "list.remove(x): x not in list"), self)
      end
  end.
Proof.
  unfold Task01.edit_phone, bind at 1, find_phone, gets.
  destruct (first_with_value old (phones self)) as [p|]; [|reflexivity].
  unfold bind, phones_remove.
  destruct (list_remove p (phones self)) as [l|]; [|reflexivity].
  rewrite task01_add_phone_eq. destruct (ten_digits new); reflexivity.
Qed.

Lemma first_with_value_at (l1 l2 : list Phone.t) (p : Phone.t) :
  ~ In (Phone.value p) (map Phone.value l1) ->
  first_with_value (Phone.value p) (l1 ++ p :: l2) = Some p
  /\ list_remove p (l1 ++ p :: l2) = Some (l1 ++ l2).
Proof.
  induction l1 as [|q l1 IH]; simpl; intros H.
  - now rewrite String.eqb_refl.
  - destruct (String.eqb_spec (Phone.value q) (Phone.value p)) as [E|E];
      [exfalso; auto|].
    destruct IH as [-> ->]; auto.
Qed.

(** X5.  In the variant of task 01, [edit_phone(old, new)] on a record
    that holds [old] drops the first phone with the number [old] in
    every case; it then appends [new] when [new] is a 10-digit number
    (also when [new] is on the record already), and raises a
    [ValueError] otherwise, with [old] gone from the record. *)
Theorem task01_edit_phone_effect (self : Record_) (l1 l2 : list Phone.t)
        (p : Phone.t) (new : string) :
  phones self = l1 ++ p :: l2 ->
  ~ In (Phone.value p) (map Phone.value l1) ->
  (ten_digits new = true ->
   Task01.edit_phone (Phone.value p) new self
   = (inr tt, set_phones (l1 ++ l2 ++ [Phone.mk new]) self))
  /\ (ten_digits new = false ->
      Task01.edit_phone (Phone.value p) new self
      = (inl (ValueError "Phone number must be 10 digits."),
         set_phones (l1 ++ l2) self)).
Proof.
  intros E Hn. rewrite task01_edit_phone_eq, E.
  destruct (first_with_value_at l1 l2 p Hn) as [-> ->].
  rewrite <- app_assoc. split; now intros ->.
Qed.

Lemma task01_edit_phone_effect_witness :
  Task01.edit_phone "2222222222" "1111111111"
    (mkRecord "Ann" [Phone.mk "1111111111"; Phone.mk "2222222222"] None)
  = (inr tt, mkRecord "Ann" [Phone.mk "1111111111"; Phone.mk "1111111111"] None)
  /\ Task01.edit_phone "2222222222" "12345"
       (mkRecord "Ann" [Phone.mk "1111111111"; Phone.mk "2222222222"] None)
     = (inl (ValueError "Phone number must be 10 digits."),
        mkRecord "Ann" [Phone.mk "1111111111"] None).
Proof.
  assert (Hn : ~ In (Phone.value (Phone.mk "2222222222"))
                 (map Phone.value [Phone.mk "1111111111"]))
    by (simpl; intros [H|[]]; discriminate H).
  split.
  - apply (task01_edit_phone_effect
             (mkRecord "Ann" [Phone.mk "1111111111"; Phone.mk "2222222222"] None)
             [Phone.mk "1111111111"] [] (Phone.mk "2222222222") "1111111111"
             eq_refl Hn).
    reflexivity.
  - apply (task01_edit_phone_effect
             (mkRecord "Ann" [Phone.mk "1111111111"; Phone.mk "2222222222"] None)
             [Phone.mk "1111111111"] [] (Phone.mk "2222222222") "12345"
             eq_refl Hn).
    reflexivity.
Defined.

(** ** What a birthday text can be *)

Lemma match_then_in (m1 m2 : string -> list (string * string)) (s a r : string) :
  In (a, r) (match_then m1 m2 s) ->
  exists a1 r1 a2, In (a1, r1) (m1 s) /\ In (a2, r) (m2 r1) /\ a = a1 +++ a2.
Proof.
  unfold match_then. rewrite in_flat_map. intros [[a1 r1] [H1 H2]].
  rewrite in_map_iff in H2. destruct H2 as [[a2 r2] [E H2]].
  injection E as <- <-. eauto 6.
Qed.

Lemma match_char_in (p : ascii -> bool) (s a r : string) :
  In (a, r) (match_char p s) -> s = a +++ r /\ String.length a = 1%nat.
Proof.
  unfold match_char. destruct s as [|c s]; [intros []|].
  destruct (p c); [|intros []]. intros [E|[]]. injection E as <- <-. auto.
Qed.

Lemma append_assoc (a b c : string) : (a +++ b) +++ c = a +++ b +++ c.
Proof. induction a as [|x a IH]; simpl; [reflexivity | now rewrite IH]. Qed.

Lemma append_length (a b : string) :
  String.length (a +++ b) = (String.length a + String.length b)%nat.
Proof. induction a as [|x a IH]; simpl; [reflexivity | now rewrite IH]. Qed.

(** A match consumes a prefix of the text, of a length the expression
    allows. *)
Lemma rmatch_in (re : regex) :
  forall s a r,
    In (a, r) (rmatch re s) ->
    s = a +++ r /\ (re_min re <= String.length a <= re_max re)%nat.
Proof.
  induction re as [c|lo hi| |r1 IH1 r2 IH2|r1 IH1 r2 IH2|n r1 IH1];
    intros s a r; cbn [rmatch re_min re_max].
  - intros H. apply match_char_in in H. destruct H as [-> ->]. auto.
  - intros H. apply match_char_in in H. destruct H as [-> ->]. auto.
  - intros H. apply match_char_in in H. destruct H as [-> ->]. auto.
  - intros H. apply match_then_in in H.
    destruct H as [a1 [s1 [a2 [H1 [H2 ->]]]]].
    apply IH1 in H1. apply IH2 in H2. destruct H1 as [-> L1], H2 as [-> L2].
    rewrite append_assoc, append_length. split; [reflexivity | lia].
  - intros H. apply in_app_or in H.
    destruct H as [H|H]; [apply IH1 in H | apply IH2 in H];
      destruct H as [-> L]; split; try reflexivity; lia.
  - revert s a r. induction n as [|n IHn]; intros s a r; cbn [match_times].
    + intros [E|[]]. injection E as <- <-. simpl. auto.
    + intros H. apply match_then_in in H.
      destruct H as [a1 [s1 [a2 [H1 [H2 ->]]]]].
      apply IH1 in H1. apply IHn in H2. destruct H1 as [-> L1], H2 as [-> L2].
      rewrite append_assoc, append_length. split; [reflexivity | lia].
Qed.

Lemma format_matches_in (s d m y rest : string) :
  In (d, m, y, rest) (format_matches s) ->
  s = d +++ "." +++ m +++ "." +++ y +++ rest
  /\ (1 <= String.length d <= 2)%nat /\ (1 <= String.length m <= 2)%nat
  /\ String.length y = 4%nat.
Proof.
  unfold format_matches. rewrite in_flat_map. intros [[d' r1] [Hd H]].
  rewrite in_flat_map in H. destruct H as [[p1 r2] [Hp1 H]].
  rewrite in_flat_map in H. destruct H as [[m' r3] [Hm H]].
  rewrite in_flat_map in H. destruct H as [[p2 r4] [Hp2 H]].
  rewrite in_map_iff in H. destruct H as [[y' r5] [E Hy]].
  injection E as <- <- <- <-.
  apply rmatch_in in Hd, Hm, Hy. cbn [re_min re_max re_d re_m re_Y] in Hd, Hm, Hy.
  cbn [rmatch] in Hp1, Hp2.
  unfold match_char in Hp1, Hp2.
  destruct r1 as [|c1 r1]; [destruct Hp1|].
  destruct (Ascii.eqb_spec "." c1) as [<-|]; [|destruct Hp1].
  destruct Hp1 as [E|[]]. injection E as <- <-.
  destruct r3 as [|c3 r3]; [destruct Hp2|].
  destruct (Ascii.eqb_spec "." c3) as [<-|]; [|destruct Hp2].
  destruct Hp2 as [E|[]]. injection E as <- <-.
  destruct Hd as [-> Ld], Hm as [-> Lm], Hy as [-> Ly].
  repeat split; simpl in *; try lia; try now rewrite ?append_assoc.
Qed.

Lemma new_date_inr (y m d : Z) (x : date) :
  new_date y m d = inr x -> valid_date x = true.
Proof.
  destruct (valid_date (mkdate y m d)) eqn:E.
  - rewrite new_date_valid by assumption. now intros [= <-].
  - destruct (new_date_invalid _ _ _ E) as [msg [-> _]]. discriminate.
Qed.

(** Every text the constructor accepts has 8 to 10 characters, and the
    date kept with it is a valid calendar date. *)
Lemma Birthday_init_inr (s : string) (b : Birthday.t) :
  Birthday.__init__ s = inr b ->
  Birthday.value b = s /\ valid_date (Birthday.date b) = true
  /\ (8 <= String.length s <= 10)%nat.
Proof.
  unfold Birthday.__init__, strptime_dmY.
  destruct (format_matches s) as [|[[[d m] y] rest] tl] eqn:E; [discriminate|].
  assert (Hin : In (d, m, y, rest) (format_matches s)) by (rewrite E; now left).
  apply format_matches_in in Hin. destruct Hin as [Es [Ld [Lm Ly]]].
  destruct (String.eqb_spec rest EmptyString) as [->|]; cbn [negb]; [|discriminate].
  destruct (new_date (int y) (int m) (int d)) as [e|x] eqn:En;
    [destruct e; discriminate|].
  intros [= <-]. cbn [Birthday.value Birthday.date].
  split; [reflexivity|]. split; [eapply new_date_inr, En|].
  rewrite Es, !append_length. simpl. lia.
Qed.

(** X6.  [Record.add_birthday] either accepts the text, and then the
    record holds that very text with a valid calendar date, any earlier
    birthday being replaced, and the text has 8 to 10 characters; or it
    raises the [ValueError] "Invalid date format. Use DD.MM.YYYY." and
    leaves the record, with its earlier birthday, as it is. *)
Theorem add_birthday_effect (birthday_str : string) (self : Record_) :
  (exists d,
      valid_date d = true
      /\ (8 <= String.length birthday_str <= 10)%nat
      /\ add_birthday birthday_str self
         = (inr tt, set_birthday (Some (Birthday.mk birthday_str d)) self))
  \/ add_birthday birthday_str self
     = (inl (ValueError "Invalid date format. Use DD.MM.YYYY."), self).
Proof.
  unfold add_birthday, bind, lift, modify.
  destruct (Birthday.__init__ birthday_str) as [e|b] eqn:E.
  - right. now rewrite (Birthday_init_error _ _ E).
  - left. destruct (Birthday_init_inr _ _ E) as [Hv [Hd Hl]].
    exists (Birthday.date b). repeat split; try assumption; try lia.
    destruct b as [v d]. cbn in *. now subst v.
Qed.

(** ** The dictionary of the book *)

Lemma dict_get_none (key : string) (d : list (string * ref)) :
  dict_get key d = None <-> ~ In key (map fst d).
Proof.
  induction d as [|[k v] d IH]; simpl; [tauto|].
  destruct (String.eqb_spec k key) as [E|E].
  - split; [discriminate | intros H; exfalso; auto].
  - rewrite IH. tauto.
Qed.

Lemma dict_get_set_other (key k : string) (v : ref) (d : list (string * ref)) :
  k <> key -> dict_get k (dict_set key v d) = dict_get k d.
Proof.
  intros Hk. induction d as [|[k' x] d IH]; simpl.
  - destruct (String.eqb_spec key k); [congruence | reflexivity].
  - destruct (String.eqb_spec k' key) as [E|E]; simpl.
    + subst k'. destruct (String.eqb_spec key k); [congruence | reflexivity].
    + destruct (String.eqb k' k); [reflexivity | exact IH].
Qed.

Lemma dict_set_keys (key : string) (v : ref) (d : list (string * ref)) :
  map fst (dict_set key v d)
  = match dict_get key d with
    | Some _ => map fst d
    | None => map fst d ++ [key]
    end.
Proof.
  induction d as [|[k x] d IH]; simpl; [reflexivity|].
  destruct (String.eqb k key); simpl; [reflexivity|].
  rewrite IH. now destruct (dict_get key d).
Qed.

Lemma dict_set_unique (key : string) (v : ref) (d : list (string * ref)) :
  NoDup (map fst d) -> NoDup (map fst (dict_set key v d)).
Proof.
  intros H. rewrite dict_set_keys.
  destruct (dict_get key d) eqn:E; [assumption|].
  apply dict_get_none in E.
  apply NoDup_app; [assumption | repeat constructor; auto |].
  intros x Hx [<-|[]]. contradiction.
Qed.

Lemma dict_del_keys_incl (key : string) (d : list (string * ref)) :
  incl (map fst (dict_del key d)) (map fst d).
Proof.
  induction d as [|[k x] d IH]; simpl; [apply incl_refl|].
  destruct (String.eqb k key); simpl.
  - apply incl_tl, incl_refl.
  - apply incl_cons; [now left | now apply incl_tl].
Qed.

Lemma dict_del_unique (key : string) (d : list (string * ref)) :
  NoDup (map fst d) -> NoDup (map fst (dict_del key d)).
Proof.
  induction d as [|[k x] d IH]; simpl; [auto|].
  intros H. inversion H as [|? ? Hk Hd]; subst.
  destruct (String.eqb k key); simpl; [assumption|].
  constructor; [|auto]. intros F. apply Hk. eapply dict_del_keys_incl, F.
Qed.

Lemma dict_get_del_same (key : string) (d : list (string * ref)) :
  NoDup (map fst d) -> dict_get key (dict_del key d) = None.
Proof.
  induction d as [|[k x] d IH]; simpl; [reflexivity|].
  intros H. inversion H as [|? ? Hk Hd]; subst.
  destruct (String.eqb_spec k key) as [E|E]; simpl.
  - subst k. now apply dict_get_none.
  - destruct (String.eqb_spec k key); [contradiction | auto].
Qed.

Lemma dict_get_del_other (key k : string) (d : list (string * ref)) :
  k <> key -> dict_get k (dict_del key d) = dict_get k d.
Proof.
  intros Hk. induction d as [|[k' x] d IH]; simpl; [reflexivity|].
  destruct (String.eqb_spec k' key) as [E|E]; simpl.
  - subst k'. destruct (String.eqb_spec key k); [congruence | reflexivity].
  - destruct (String.eqb k' k); [reflexivity | exact IH].
Qed.

(** X7.  After [add_record(record)] the book finds the record under its
    name, and finds under every other name what it found before.  A
    name that was in the book keeps its place in the iteration order, a
    new name goes last, and the names of the book stay distinct. *)
Theorem add_record_then_find (w : world) (record : ref) :
  let key := name (store w record) in
  let w' := snd (add_record record w) in
  fst (find key w') = inr (Some record)
  /\ (forall k, k <> key -> fst (find k w') = fst (find k w))
  /\ map fst (data w')
     = match dict_get key (data w) with
       | Some _ => map fst (data w)
       | None => map fst (data w) ++ [key]
       end
  /\ (NoDup (map fst (data w)) -> NoDup (map fst (data w'))).
Proof.
  cbv zeta. unfold add_record, modify, find, gets. cbn [fst snd data].
  split; [now rewrite dict_get_set|].
  split; [intros k Hk; now rewrite dict_get_set_other|].
  split; [apply dict_set_keys | apply dict_set_unique].
Qed.

Lemma add_record_then_find_witness :
  fst (find "Mark" (snd (add_record 2%nat scenario_book))) = inr (Some 1%nat)
  /\ NoDup (map fst (data (snd (add_record 2%nat scenario_book)))).
Proof.
  destruct (add_record_then_find scenario_book 2%nat) as [_ [H [_ Hu]]].
  split.
  - rewrite (H "Mark"); [reflexivity | discriminate].
  - apply Hu. simpl. repeat constructor; simpl; intuition discriminate.
Defined.

(** X8.  [delete(name)] never raises.  In a book whose names are
    distinct, [find(name)] is absent afterwards, every other name is
    found as before, and the names stay distinct; deleting a name that
    is not in the book changes nothing. *)
Theorem delete_then_find (w : world) (name : string) :
  NoDup (map fst (data w)) ->
  let w' := snd (delete name w) in
  fst (delete name w) = inr tt
  /\ fst (find name w') = inr None
  /\ (forall k, k <> name -> fst (find k w') = fst (find k w))
  /\ NoDup (map fst (data w'))
  /\ (fst (find name w) = inr None -> w' = w).
Proof.
  intros Hu. cbv zeta. unfold delete, modify, find, gets. cbn [fst snd].
  destruct (dict_get name (data w)) as [r|] eqn:E; cbn [data].
  - split; [reflexivity|].
    split; [now rewrite dict_get_del_same|].
    split; [intros k Hk; now rewrite dict_get_del_other|].
    split; [now apply dict_del_unique | discriminate].
  - split; [reflexivity|]. split; [now rewrite E|]. auto.
Qed.

Lemma delete_then_find_witness :
  fst (find "Mark" (snd (delete "Mark" scenario_book))) = inr None
  /\ fst (find "John" (snd (delete "Mark" scenario_book))) = inr (Some 2%nat)
  /\ snd (delete "Ann" scenario_book) = scenario_book.
Proof.
  assert (Hu : NoDup (map fst (data scenario_book)))
    by (simpl; repeat constructor; simpl; intuition discriminate).
  destruct (delete_then_find scenario_book "Mark" Hu) as [_ [H1 [H2 _]]].
  destruct (delete_then_find scenario_book "Ann" Hu) as [_ [_ [_ [_ H3]]]].
  split; [exact H1|]. split.
  - rewrite (H2 "John"); [reflexivity | discriminate].
  - apply H3. reflexivity.
Defined.

(** ** The text of a date *)

Lemma holds_from_all (f : Z -> bool) (fuel : nat) :
  forall z, holds_from f fuel z = true ->
  forall k, z <= k < z + Z.of_nat fuel -> f k = true.
Proof.
  induction fuel as [|fuel IH]; intros z H k Hk; [lia|].
  cbn [holds_from] in H. destruct (f z) eqn:E; [|discriminate].
  destruct (Z.eq_dec k z) as [->|Hne]; [assumption|].
  apply (IH (z + 1) H). lia.
Qed.

Lemma years_read_back :
  holds_from (zfill_reads_back 4) (Z.to_nat 9000) 1000 = true.
Proof. vm_compute. reflexivity. Qed.

Lemma days_read_back : holds_from (zfill_reads_back 2) (Z.to_nat 31) 1 = true.
Proof. vm_compute. reflexivity. Qed.

Lemma two_digits_text (k : Z) :
  1 <= k <= 31 ->
  exists a b,
    zfill 2 k = String a (String b EmptyString)
    /\ is_digit a = true /\ is_digit b = true
    /\ 10 * digit_value a + digit_value b = k.
Proof.
  intros Hk.
  pose proof (holds_from_all _ _ _ days_read_back k ltac:(rewrite Z2Nat.id; lia)) as H.
  unfold zfill_reads_back in H. apply andb_prop in H. destruct H as [Hl Hv].
  apply Nat.eqb_eq in Hl.
  destruct (zfill 2 k) as [|a [|b [|c s]]]; try discriminate Hl.
  cbn [digits_value] in Hv.
  destruct (is_digit a) eqn:Ha; [|discriminate].
  destruct (is_digit b) eqn:Hb; [|discriminate].
  apply Z.eqb_eq in Hv. exists a, b. repeat split; try assumption; lia.
Qed.

Lemma four_digits_text (k : Z) :
  1000 <= k <= 9999 ->
  exists a b c d,
    zfill 4 k = String a (String b (String c (String d EmptyString)))
    /\ is_digit a = true /\ is_digit b = true
    /\ is_digit c = true /\ is_digit d = true
    /\ 1000 * digit_value a + 100 * digit_value b + 10 * digit_value c
       + digit_value d = k.
Proof.
  intros Hk.
  pose proof (holds_from_all _ _ _ years_read_back k ltac:(rewrite Z2Nat.id; lia)) as H.
  unfold zfill_reads_back in H. apply andb_prop in H. destruct H as [Hl Hv].
  apply Nat.eqb_eq in Hl.
  destruct (zfill 4 k) as [|a [|b [|c [|d [|e s]]]]]; try discriminate Hl.
  cbn [digits_value] in Hv.
  destruct (is_digit a) eqn:Ha; [|discriminate].
  destruct (is_digit b) eqn:Hb; [|discriminate].
  destruct (is_digit c) eqn:Hc; [|discriminate].
  destruct (is_digit d) eqn:Hd; [|discriminate].
  apply Z.eqb_eq in Hv. exists a, b, c, d. repeat split; try assumption; lia.
Qed.

(** The text [strftime] writes for a date from the year 1000 on reads
    back, as DD.MM.YYYY, as the date. *)
Lemma strftime_reads_back (d : date) :
  valid_date d = true -> 1000 <= year d ->
  read_DDMMYYYY (strftime_dmY d) = Some d.
Proof.
  intros Hv Hy. destruct d as [y m dd].
  pose proof (_days_in_month_le_31 y m) as Hdim.
  unfold valid_date, MINYEAR, MAXYEAR in Hv. cbn [year month day] in *. bools.
  destruct (two_digits_text dd ltac:(lia)) as [d1 [d2 [Ed [Hd1 [Hd2 Vd]]]]].
  destruct (two_digits_text m ltac:(lia)) as [m1 [m2 [Em [Hm1 [Hm2 Vm]]]]].
  destruct (four_digits_text y ltac:(lia))
    as [y1 [y2 [y3 [y4 [Ey [Hy1 [Hy2 [Hy3 [Hy4 Vy]]]]]]]]].
  unfold strftime_dmY. cbn [year month day]. rewrite Ed, Em, Ey.
  cbn [String.append read_DDMMYYYY forallb].
  rewrite Hd1, Hd2, Hm1, Hm2, Hy1, Hy2, Hy3, Hy4. cbn [andb Ascii.eqb Bool.eqb].
  now rewrite Vd, Vm, Vy.
Qed.

(** ** What [get_upcoming_birthdays] reports *)

Lemma qualifying_window (today : date) (record : Record_) (occ : date) :
  qualifying today record = Some occ ->
  valid_date occ = true
  /\ toordinal today <= toordinal occ <= toordinal today + 7
  /\ (year occ = year today \/ year occ = year today + 1).
Proof.
  intros H. apply qualifying_some in H. destruct H as [b [_ [Hn Hw]]].
  split; [eapply next_occurrence_valid, Hn|].
  unfold in_window in Hw. bools. split; [lia|].
  unfold next_occurrence in Hn.
  destruct (calendar_date (year today) (month (Birthday.date b))
              (day (Birthday.date b))) as [o|] eqn:E; [|discriminate].
  destruct (calendar_date_some _ _ _ _ E) as [Eo _].
  destruct (date_ltb o today).
  - destruct (calendar_date_some _ _ _ _ Hn) as [-> _]. now right.
  - injection Hn as <-. rewrite Eo. now left.
Qed.

Lemma year_le_of_ordinal (d1 d2 : date) :
  valid_date d1 = true -> valid_date d2 = true ->
  toordinal d1 <= toordinal d2 -> year d1 <= year d2.
Proof.
  intros H1 H2 Ho. destruct (Z_le_gt_dec (year d1) (year d2)) as [|Hgt]; [assumption|].
  exfalso. assert (L : date_ltb d2 d1 = true).
  { unfold date_ltb. replace (year d2 <? year d1) with true; [reflexivity|].
    symmetry. apply Z.ltb_lt. lia. }
  pose proof (toordinal_lt d2 d1 H2 H1 L). lia.
Qed.

(** The entries of the expected result, one for each qualifying record
    and in their order. *)
Lemma expected_items_selection (today : date) (records : list Record_) :
  exists occs : list date,
    Forall2 (fun record occ => qualifying today record = Some occ)
            (filter (fun record =>
                       match qualifying today record with
                       | Some _ => true
                       | None => false
                       end) records)
            occs
    /\ expected_items today records
       = map (fun ro => mkitem (name (fst ro)) (strftime_dmY (shift_weekend (snd ro))))
             (combine (filter (fun record =>
                                 match qualifying today record with
                                 | Some _ => true
                                 | None => false
                                 end) records)
                      occs).
Proof.
  induction records as [|record records [occs [HF HE]]].
  - exists []. split; [constructor | reflexivity].
  - unfold expected_items in *. cbn [flat_map filter]. unfold expected_item at 1.
    destruct (qualifying today record) as [occ|] eqn:Hq.
    + exists (occ :: occs). split; [now constructor|].
      cbn [combine map fst snd app]. now rewrite HE.
    + exists occs. split; [assumption|]. cbn [app]. exact HE.
Qed.

(** X9.  When [get_upcoming_birthdays] returns, its entries are, one
    for one and in the order of the book, those of the records that
    qualify: a record has one entry when it qualifies and none when it
    does not.  The occurrence of each lies within today and seven days
    later, and the congratulation date the entry gives is a valid date
    on a day from Monday to Friday, not before today and at most nine
    days after it. *)
Theorem congratulation_on_working_day (today : date) (w : world) (out : list item) :
  fst (get_upcoming_birthdays today w) = inr out ->
  exists occs : list date,
    Forall2 (fun record occ =>
               qualifying today record = Some occ
               /\ toordinal today <= toordinal occ <= toordinal today + 7
               /\ valid_date (shift_weekend occ) = true
               /\ 0 <= weekday (shift_weekend occ) <= 4
               /\ toordinal today <= toordinal (shift_weekend occ)
                  <= toordinal today + 9)
            (qualifying_records today w) occs
    /\ out = map (fun ro =>
                    mkitem (name (fst ro)) (strftime_dmY (shift_weekend (snd ro))))
                 (combine (qualifying_records today w) occs).
Proof.
  intros H.
  assert (E : out = expected_items today (values w)).
  { pose proof (get_upcoming_birthdays_eq today w) as E.
    destruct (forallb (occurrence_defined today) (values w)).
    - rewrite E in H. cbn in H. now injection H as <-.
    - destruct E as [msg [E _]]. rewrite E in H. discriminate. }
  destruct (expected_items_selection today (values w)) as [occs [HF HE]].
  exists occs. unfold qualifying_records. split; [|now rewrite E].
  clear HE. induction HF as [|record occ l l' Hq HF IH]; constructor; [|exact IH].
  destruct (qualifying_window _ _ _ Hq) as [Hv [Hw _]].
  destruct (shift_weekend_days occ Hv) as [Hvs [H5 [H6 H7]]].
  repeat split; try assumption; try lia;
    unfold weekday in *;
    destruct (Z.eq_dec ((toordinal occ + 6) mod 7) 5) as [E5|E5];
    try (specialize (H5 E5); Z.div_mod_to_equations; lia);
    destruct (Z.eq_dec ((toordinal occ + 6) mod 7) 6) as [E6|E6];
    try (specialize (H6 E6); Z.div_mod_to_equations; lia);
    rewrite (H7 E5 E6); Z.div_mod_to_equations; lia.
Qed.

Lemma congratulation_on_working_day_witness :
  exists occs : list date,
    Forall2 (fun record occ =>
               qualifying scenario_today record = Some occ
               /\ toordinal scenario_today <= toordinal occ
                  <= toordinal scenario_today + 7
               /\ valid_date (shift_weekend occ) = true
               /\ 0 <= weekday (shift_weekend occ) <= 4
               /\ toordinal scenario_today <= toordinal (shift_weekend occ)
                  <= toordinal scenario_today + 9)
            (qualifying_records scenario_today scenario_book) occs
    /\ [mkitem "Mark" "19.07.2024"; mkitem "John" "22.07.2024"]
       = map (fun ro =>
                mkitem (name (fst ro)) (strftime_dmY (shift_weekend (snd ro))))
             (combine (qualifying_records scenario_today scenario_book) occs).
Proof.
  apply (congratulation_on_working_day scenario_today scenario_book
           [mkitem "Mark" "19.07.2024"; mkitem "John" "22.07.2024"]).
  reflexivity.
Defined.

(** X10.  A record of the book whose birthday has the month and the day
    of today is reported whenever [get_upcoming_birthdays] returns, with
    today as its occurrence. *)
Theorem birthday_today_is_reported (today : date) (w : world) (record : Record_)
        (b : Birthday.t) (out : list item) :
  valid_date today = true ->
  In record (values w) ->
  birthday record = Some b ->
  month (Birthday.date b) = month today ->
  day (Birthday.date b) = day today ->
  fst (get_upcoming_birthdays today w) = inr out ->
  qualifying today record = Some today
  /\ In (mkitem (name record) (strftime_dmY (shift_weekend today))) out.
Proof.
  intros Hv Hin Hb Hm Hd Hout.
  assert (Hq : qualifying today record = Some today).
  { unfold qualifying, next_occurrence, calendar_date. rewrite Hb, Hm, Hd.
    destruct today as [y m d]. cbn [year month day]. rewrite Hv.
    assert (L : date_ltb (mkdate y m d) (mkdate y m d) = false).
    { unfold date_ltb. cbn [year month day].
      rewrite !Z.ltb_irrefl, !Z.eqb_refl. reflexivity. }
    rewrite L. unfold in_window.
    replace (toordinal (mkdate y m d) <=? toordinal (mkdate y m d)) with true
      by (symmetry; apply Z.leb_le; lia).
    replace (toordinal (mkdate y m d) <=? toordinal (mkdate y m d) + 7) with true
      by (symmetry; apply Z.leb_le; lia).
    reflexivity. }
  split; [exact Hq|].
  apply (upcoming_birthdays_members today w out Hout). eauto.
Qed.

Lemma birthday_today_is_reported_witness :
  qualifying (mkdate 2024 7 19) (store scenario_book 1%nat) = Some (mkdate 2024 7 19)
  /\ In (mkitem "Mark" (strftime_dmY (shift_weekend (mkdate 2024 7 19))))
        [mkitem "Mark" "19.07.2024"; mkitem "John" "22.07.2024"].
Proof.
  apply (birthday_today_is_reported (mkdate 2024 7 19) scenario_book
           (store scenario_book 1%nat)
           (Birthday.mk "19.07.1995" (mkdate 1995 7 19))); try reflexivity.
  simpl. tauto.
Defined.

(** For a day of December and a birthday in January the next occurrence
    is next year's, and it lies in the window exactly when the days left
    of December and the day of January make at most seven. *)
Lemma next_occurrence_across_new_year (today birthday : date) :
  valid_date today = true ->
  month today = 12 -> year today < 9999 ->
  month birthday = 1 -> 1 <= day birthday <= 31 ->
  next_occurrence today birthday = Some (mkdate (year today + 1) 1 (day birthday))
  /\ in_window today (mkdate (year today + 1) 1 (day birthday))
     = (day birthday + 31 - day today <=? 7).
Proof.
  intros Hv Hm Hy Hbm Hbd.
  destruct today as [y m t]. cbn [year month day] in *. subst m.
  pose proof Hv as Hv'. unfold valid_date, MINYEAR, MAXYEAR in Hv'.
  cbn [year month day] in Hv'. bools.
  assert (Ht : t <= 31) by (pose proof (_days_in_month_le_31 y 12); lia).
  set (d := day birthday) in *.
  assert (V1 : valid_date (mkdate y 1 d) = true).
  { unfold valid_date, MINYEAR, MAXYEAR, _days_in_month. cbn [year month day].
    cbn [Z.eqb Pos.eqb andb _DAYS_IN_MONTH].
    repeat (apply andb_true_intro; split); apply Z.leb_le; lia. }
  assert (V2 : valid_date (mkdate (y + 1) 1 d) = true).
  { unfold valid_date, MINYEAR, MAXYEAR, _days_in_month. cbn [year month day].
    cbn [Z.eqb Pos.eqb andb _DAYS_IN_MONTH].
    repeat (apply andb_true_intro; split); apply Z.leb_le; lia. }
  split.
  - unfold next_occurrence, calendar_date. rewrite Hbm.
    fold d. cbn [year month day]. rewrite V1, V2.
    assert (L : date_ltb (mkdate y 1 d) (mkdate y 12 t) = true).
    { unfold date_ltb. cbn [year month day].
      rewrite Z.ltb_irrefl, Z.eqb_refl. reflexivity. }
    now rewrite L.
  - unfold in_window, toordinal, _ymd2ord, _days_before_month.
    cbn [year month day]. rewrite _days_before_year_succ.
    cbn [Z.ltb Z.compare Pos.compare Pos.compare_cont andb _DAYS_BEFORE_MONTH].
    destruct (_is_leap y), (_is_leap (y + 1));
      destruct (Z.leb_spec (d + 31 - t) 7);
      match goal with
      | |- ?c1 && ?c2 = _ => destruct c1 eqn:E1; destruct c2 eqn:E2
      end; bools; cbn [andb]; try reflexivity; lia.
Qed.

Lemma same_name_same_record (records : list Record_) (r1 r2 : Record_) :
  NoDup (map name records) -> In r1 records -> In r2 records ->
  name r1 = name r2 -> r1 = r2.
Proof.
  induction records as [|r records IH]; cbn [map In]; [contradiction|].
  intros Hn H1 H2 E. inversion Hn as [|x l Hx Hl]; subst.
  destruct H1 as [->|H1], H2 as [->|H2].
  - reflexivity.
  - exfalso. apply Hx. rewrite E. now apply in_map.
  - exfalso. apply Hx. rewrite <- E. now apply in_map.
  - now apply IH.
Qed.

(** X11.  The window wraps around the end of the year.  On a day [t] of
    December (before the year 9999), for a record of the book with a
    birthday on a day [d] of January, the step of the loop of
    [get_upcoming_birthdays] appends the entry of next year's occurrence
    when [d + 31 - t <= 7] and leaves the list as it is otherwise; and
    when the call returns for a book of distinct names, the entries
    under the name of the record are that one entry in the first case,
    and none in the second. *)
Theorem january_birthday_in_december (today : date) (w : world) (record : Record_)
        (b : Birthday.t) (out : list item) :
  valid_date today = true ->
  month today = 12 -> year today < 9999 ->
  In record (values w) -> NoDup (map name (values w)) ->
  birthday record = Some b ->
  month (Birthday.date b) = 1 -> 1 <= day (Birthday.date b) <= 31 ->
  fst (get_upcoming_birthdays today w) = inr out ->
  (forall upcoming_birthdays,
      upcoming_body today record upcoming_birthdays
      = (inr tt,
         if day (Birthday.date b) + 31 - day today <=? 7
         then upcoming_birthdays
                ++ [mkitem (name record)
                      (strftime_dmY
                         (shift_weekend
                            (mkdate (year today + 1) 1 (day (Birthday.date b)))))]
         else upcoming_birthdays))
  /\ (forall it,
        In it out /\ item_name it = name record <->
        day (Birthday.date b) + 31 - day today <= 7
        /\ it = mkitem (name record)
                  (strftime_dmY
                     (shift_weekend
                        (mkdate (year today + 1) 1 (day (Birthday.date b)))))).
Proof.
  intros Hv Hm Hy Hin Hn Hb Hbm Hbd Hout.
  destruct (next_occurrence_across_new_year today (Birthday.date b) Hv Hm Hy Hbm Hbd)
    as [Hnext Hw].
  assert (Hq : qualifying today record
               = if day (Birthday.date b) + 31 - day today <=? 7
                 then Some (mkdate (year today + 1) 1 (day (Birthday.date b)))
                 else None).
  { unfold qualifying. now rewrite Hb, Hnext, Hw. }
  split.
  - intros acc. rewrite upcoming_body_defined.
    + unfold expected_item. rewrite Hq.
      destruct (day (Birthday.date b) + 31 - day today <=? 7);
        [reflexivity | now rewrite app_nil_r].
    + unfold occurrence_defined. now rewrite Hb, Hnext.
  - intros it. rewrite (upcoming_birthdays_members today w out Hout it). split.
    + intros [[record' [occ [Hin' [Hq' ->]]]] E]. cbn [item_name] in E.
      assert (record' = record) as -> by now apply (same_name_same_record (values w)).
      rewrite Hq in Hq'.
      destruct (Z.leb_spec (day (Birthday.date b) + 31 - day today) 7);
        [|discriminate].
      injection Hq' as <-. auto.
    + intros [Hle ->]. split; [|reflexivity].
      exists record, (mkdate (year today + 1) 1 (day (Birthday.date b))).
      split; [assumption|]. split; [|reflexivity].
      rewrite Hq. apply Z.leb_le in Hle. now rewrite Hle.
Qed.

Lemma january_birthday_in_december_witness :
  ((forall upcoming_birthdays,
       upcoming_body (mkdate 2024 12 29)
         (mkRecord "Eve" [] (Some (Birthday.mk "03.01.1990" (mkdate 1990 1 3))))
         upcoming_birthdays
       = (inr tt,
          if 3 + 31 - 29 <=? 7
          then upcoming_birthdays
                 ++ [mkitem "Eve"
                       (strftime_dmY (shift_weekend (mkdate (2024 + 1) 1 3)))]
          else upcoming_birthdays))
   /\ (forall it,
         In it [mkitem "Eve" "03.01.2025"] /\ item_name it = "Eve" <->
         3 + 31 - 29 <= 7
         /\ it = mkitem "Eve"
                   (strftime_dmY (shift_weekend (mkdate (2024 + 1) 1 3)))))
  /\ ((forall upcoming_birthdays,
          upcoming_body (mkdate 2024 12 20)
            (mkRecord "Eve" [] (Some (Birthday.mk "03.01.1990" (mkdate 1990 1 3))))
            upcoming_birthdays
          = (inr tt,
             if 3 + 31 - 20 <=? 7
             then upcoming_birthdays
                    ++ [mkitem "Eve"
                          (strftime_dmY (shift_weekend (mkdate (2024 + 1) 1 3)))]
             else upcoming_birthdays))
      /\ (forall it,
            In it [] /\ item_name it = "Eve" <->
            3 + 31 - 20 <= 7
            /\ it = mkitem "Eve"
                      (strftime_dmY (shift_weekend (mkdate (2024 + 1) 1 3))))).
Proof.
  split.
  - apply (january_birthday_in_december (mkdate 2024 12 29)
             (mkWorld
                (fun _ => mkRecord "Eve" []
                            (Some (Birthday.mk "03.01.1990" (mkdate 1990 1 3))))
                1%nat [("Eve", 0%nat)])
             (mkRecord "Eve" [] (Some (Birthday.mk "03.01.1990" (mkdate 1990 1 3))))
             (Birthday.mk "03.01.1990" (mkdate 1990 1 3))
             [mkitem "Eve" "03.01.2025"]);
      try reflexivity; try (cbn; lia).
    + simpl. tauto.
    + repeat constructor. simpl. tauto.
  - apply (january_birthday_in_december (mkdate 2024 12 20)
             (mkWorld
                (fun _ => mkRecord "Eve" []
                            (Some (Birthday.mk "03.01.1990" (mkdate 1990 1 3))))
                1%nat [("Eve", 0%nat)])
             (mkRecord "Eve" [] (Some (Birthday.mk "03.01.1990" (mkdate 1990 1 3))))
             (Birthday.mk "03.01.1990" (mkdate 1990 1 3))
             []);
      try reflexivity; try (cbn; lia).
    + simpl. tauto.
    + repeat constructor. simpl. tauto.
Defined.

(** X12.  From the year 1000 on, every congratulation date is reported
    in the form DD.MM.YYYY that [add_birthday] accepts: the text reads
    back as a valid calendar date, and the constructor of [Birthday]
    accepts it. *)
Theorem congratulation_text_format (today : date) (w : world) (out : list item) :
  1000 <= year today ->
  fst (get_upcoming_birthdays today w) = inr out ->
  forall it, In it out ->
    exists d,
      valid_date d = true
      /\ read_DDMMYYYY (congratulation_date it) = Some d
      /\ Birthday.__init__ (congratulation_date it)
         = inr (Birthday.mk (congratulation_date it) d).
Proof.
  intros Hy H it Hin.
  apply (upcoming_birthdays_members today w out H) in Hin.
  destruct Hin as [record [occ [Hr [Hq ->]]]].
  destruct (qualifying_window _ _ _ Hq) as [Hv [Hw Hyo]].
  destruct (shift_weekend_days occ Hv) as [Hvs [H5 [H6 H7]]].
  assert (Ho : toordinal occ <= toordinal (shift_weekend occ)).
  { destruct (Z.eq_dec (weekday occ) 5) as [E5|E5]; [specialize (H5 E5); lia|].
    destruct (Z.eq_dec (weekday occ) 6) as [E6|E6]; [specialize (H6 E6); lia|].
    rewrite (H7 E5 E6). lia. }
  pose proof (year_le_of_ordinal occ (shift_weekend occ) Hv Hvs Ho) as Hyy.
  exists (shift_weekend occ). cbn [congratulation_date].
  assert (Hread : read_DDMMYYYY (strftime_dmY (shift_weekend occ))
                  = Some (shift_weekend occ))
    by (apply strftime_reads_back; [assumption | lia]).
  split; [assumption|]. split; [assumption|].
  now apply Birthday_init_DDMMYYYY.
Qed.

Lemma congratulation_text_format_witness :
  exists d,
    valid_date d = true
    /\ read_DDMMYYYY (congratulation_date (mkitem "John" "22.07.2024")) = Some d
    /\ Birthday.__init__ (congratulation_date (mkitem "John" "22.07.2024"))
       = inr (Birthday.mk (congratulation_date (mkitem "John" "22.07.2024")) d).
Proof.
  apply (congratulation_text_format scenario_today scenario_book
           [mkitem "Mark" "19.07.2024"; mkitem "John" "22.07.2024"]).
  - cbn. lia.
  - reflexivity.
  - simpl. tauto.
Defined.

(** ** More on the handlers *)

(** X13.  For a name that is not in the book, the commands [change],
    [phone], [add-birthday] and [show-birthday] answer that the contact
    was not found and leave the book as it is: no record is created and
    the other arguments are not validated. *)
Theorem missing_contact_reported (w : world) (name a b : string)
        (rest : list string) :
  dict_get name (data w) = None ->
  Bot.change_contact (name :: a :: b :: rest) w = (inr "Contact not found.", w)
  /\ Bot.show_phone (name :: rest) w = (inr "Contact not found.", w)
  /\ Bot.add_birthday (name :: a :: rest) w
     = (inr ("Contact " +++ name +++ " not found. Add the contact first."), w)
  /\ Bot.show_birthday (name :: rest) w
     = (inr ("Contact " +++ name +++ " not found."), w).
Proof.
  intros H.
  unfold Bot.change_contact, Bot.show_phone, Bot.add_birthday, Bot.show_birthday,
    Bot.input_error, Bot.change_contact_body, Bot.show_phone_body,
    Bot.add_birthday_body, Bot.show_birthday_body, bind, Bot.unpack1, Bot.unpack2,
    Bot.unpack3, ret, find, gets.
  rewrite H. repeat split.
Qed.

Lemma missing_contact_reported_witness :
  Bot.change_contact ["Ann"; "x"; "y"] scenario_book
  = (inr "Contact not found.", scenario_book)
  /\ Bot.show_phone ["Ann"] scenario_book = (inr "Contact not found.", scenario_book)
  /\ Bot.add_birthday ["Ann"; "x"] scenario_book
     = (inr "Contact Ann not found. Add the contact first.", scenario_book)
  /\ Bot.show_birthday ["Ann"] scenario_book
     = (inr "Contact Ann not found.", scenario_book).
Proof.
  apply (missing_contact_reported scenario_book "Ann" "x" "y" []). reflexivity.
Defined.

(** X14.  For a name that is not in the book and a 10-digit number,
    [add] answers "Contact added."; afterwards [phone] for that name
    shows exactly that number, and the other names of the book are
    found as before. *)
Theorem add_then_show_phone (w : world) (name phone : string)
        (rest rest' : list string) :
  dict_get name (data w) = None ->
  ten_digits phone = true ->
  exists w',
    Bot.add_contact (name :: phone :: rest) w = (inr "Contact added.", w')
    /\ fst (Bot.show_phone (name :: rest') w') = inr (name +++ ": " +++ phone)
    /\ forall k, k <> name -> dict_get k (data w') = dict_get k (data w).
Proof.
  intros Hfind Hv.
  assert (Hne : phone <> EmptyString) by (intros ->; discriminate Hv).
  unfold Bot.add_contact, Bot.input_error, Bot.add_contact_body.
  unfold bind, Bot.unpack2, ret, find, gets, new_Record, add_record, modify, on.
  rewrite Hfind, (nonempty_true phone Hne), task02_add_phone_eq.
  simpl. rewrite Nat.eqb_refl. simpl. rewrite Hv.
  eexists. split; [reflexivity|]. split.
  - unfold Bot.show_phone, Bot.input_error, Bot.show_phone_body.
    unfold bind, Bot.unpack1, ret, find, gets, on. simpl.
    rewrite dict_get_set. simpl. rewrite Nat.eqb_refl. reflexivity.
  - intros k Hk. simpl. now apply dict_get_set_other.
Qed.

Lemma add_then_show_phone_witness :
  exists w',
    Bot.add_contact ["Ann"; "0123456789"] scenario_book = (inr "Contact added.", w')
    /\ fst (Bot.show_phone ["Ann"] w') = inr "Ann: 0123456789"
    /\ forall k, k <> "Ann" -> dict_get k (data w') = dict_get k (data scenario_book).
Proof.
  apply (add_then_show_phone scenario_book "Ann" "0123456789" [] []); reflexivity.
Defined.

(** X15.  For a contact of the book, [add] with a 10-digit number that
    is not on the record answers "Contact updated." and puts the number
    last on the record; with a number that is on the record already it
    answers that the phone exists and the record is as it was.  The
    dictionary of the book is not touched. *)
Theorem add_to_existing_contact (w : world) (name phone : string) (record : ref)
        (rest : list string) :
  dict_get name (data w) = Some record ->
  (ten_digits phone = true ->
   ~ In phone (phone_numbers (store w record)) ->
   exists w',
     Bot.add_contact (name :: phone :: rest) w = (inr "Contact updated.", w')
     /\ store w' record
        = set_phones (phones (store w record) ++ [Phone.mk phone]) (store w record)
     /\ data w' = data w)
  /\ (In phone (phone_numbers (store w record)) ->
      phone <> EmptyString ->
      exists w',
        Bot.add_contact (name :: phone :: rest) w
        = (inr ("Phone " +++ phone +++ " already exists."), w')
        /\ same_book w w').
Proof.
  intros Hfind.
  unfold Bot.add_contact, Bot.input_error, Bot.add_contact_body.
  unfold bind, Bot.unpack2, ret, find, gets, on.
  rewrite Hfind. split.
  - intros Hv Hn.
    assert (Hne : phone <> EmptyString) by (intros ->; discriminate Hv).
    rewrite (nonempty_true phone Hne). cbv beta iota zeta.
    rewrite task02_add_phone_eq.
    apply first_with_value_none in Hn. rewrite Hn, Hv.
    eexists. split; [reflexivity|]. cbn [store data]. now rewrite Nat.eqb_refl.
  - intros Hin Hne. rewrite (nonempty_true phone Hne). cbv beta iota zeta.
    rewrite task02_add_phone_eq.
    destruct (first_with_value_in _ _ Hin) as [p ->].
    eexists. split; [reflexivity|]. repeat split. intros r. cbn [store].
    destruct (Nat.eqb_spec r record) as [->|]; reflexivity.
Qed.

Lemma add_to_existing_contact_witness :
  (exists w',
      Bot.add_contact ["Jane"; "0987654321"] phone_book = (inr "Contact updated.", w')
      /\ store w' 0%nat
         = mkRecord "Jane" [Phone.mk "1234567890"; Phone.mk "0987654321"] None
      /\ data w' = data phone_book)
  /\ (exists w',
        Bot.add_contact ["Jane"; "1234567890"] phone_book
        = (inr "Phone 1234567890 already exists.", w')
        /\ same_book phone_book w').
Proof.
  destruct (add_to_existing_contact phone_book "Jane" "0987654321" 0%nat []
              eq_refl) as [A _].
  destruct (add_to_existing_contact phone_book "Jane" "1234567890" 0%nat []
              eq_refl) as [_ B].
  split.
  - apply A; [reflexivity|]. simpl. intros [H|[]]. discriminate H.
  - apply B; [simpl; tauto | discriminate].
Defined.

(** X16.  For a contact of the book that does not hold [old], [change]
    answers "Phone number updated for ..." although nothing is changed:
    the book is as it was, and [new] is not validated. *)
Theorem change_contact_absent_old (w : world) (name old new : string)
        (record : ref) (rest : list string) :
  dict_get name (data w) = Some record ->
  ~ In old (phone_numbers (store w record)) ->
  exists w',
    Bot.change_contact (name :: old :: new :: rest) w
    = (inr ("Phone number updated for " +++ name +++ "."), w')
    /\ same_book w w'.
Proof.
  intros Hfind Hold.
  unfold Bot.change_contact, Bot.input_error, Bot.change_contact_body.
  unfold bind, Bot.unpack3, ret, find, gets, on.
  rewrite Hfind. cbv beta iota zeta. rewrite task02_edit_phone_eq.
  apply first_with_value_none in Hold. rewrite Hold.
  eexists. split; [reflexivity|]. repeat split. intros r. cbn [store].
  destruct (Nat.eqb_spec r record) as [->|]; reflexivity.
Qed.

Lemma change_contact_absent_old_witness :
  exists w',
    Bot.change_contact ["Jane"; "0000000000"; "bad"] phone_book
    = (inr "Phone number updated for Jane.", w')
    /\ same_book phone_book w'.
Proof.
  apply (change_contact_absent_old phone_book "Jane" "0000000000" "bad" 0%nat []).
  - reflexivity.
  - simpl. intros [H|[]]. discriminate H.
Defined.

(** X17.  For a contact of the book that holds [old], whose numbers are
    distinct, and a 10-digit number [new] that is not on the record,
    [change] answers "Phone number updated for ..."; afterwards the
    record does not hold [old] any more, [new] is its last number, and
    every other number is on the record as before. *)
Theorem change_contact_replaces (w : world) (name old new : string)
        (record : ref) (rest : list string) :
  dict_get name (data w) = Some record ->
  NoDup (phone_numbers (store w record)) ->
  In old (phone_numbers (store w record)) ->
  ten_digits new = true ->
  ~ In new (phone_numbers (store w record)) ->
  exists w' l,
    Bot.change_contact (name :: old :: new :: rest) w
    = (inr ("Phone number updated for " +++ name +++ "."), w')
    /\ data w' = data w
    /\ phone_numbers (store w' record) = l ++ [new]
    /\ ~ In old (l ++ [new])
    /\ forall n, n <> old -> (In n l <-> In n (phone_numbers (store w record))).
Proof.
  intros Hfind Hu Hold Hv Hnew.
  unfold Bot.change_contact, Bot.input_error, Bot.change_contact_body.
  unfold bind, Bot.unpack3, ret, find, gets, on.
  rewrite Hfind. cbv beta iota zeta. rewrite task02_edit_phone_eq.
  destruct (first_with_value_in _ _ Hold) as [p Hp]. rewrite Hp.
  pose proof Hnew as Hnew'. apply first_with_value_none in Hnew'.
  rewrite Hnew', Hv.
  destruct (list_remove_split _ _ _ Hp) as [l1 [l2 [E [Hpv [Hn Hr]]]]].
  rewrite Hr. eexists. exists (map Phone.value (l1 ++ l2)).
  split; [reflexivity|]. cbn [store data]. rewrite Nat.eqb_refl.
  unfold phone_numbers in *. cbn [phones set_phones].
  rewrite E in Hu, Hnew. apply NoDup_numbers_split in Hu. destruct Hu as [_ Hu].
  rewrite Hpv in Hu.
  split; [reflexivity|]. split; [now rewrite map_app|].
  split.
  - intros F. apply in_app_or in F. destruct F as [F|[F|[]]]; [contradiction|].
    apply Hnew. rewrite map_app. cbn [map]. rewrite Hpv, <- F.
    apply in_or_app. right. now left.
  - intros n Hne. rewrite E, !map_app. cbn [map]. rewrite Hpv.
    rewrite !in_app_iff. cbn [In]. intuition congruence.
Qed.

Lemma change_contact_replaces_witness :
  exists w' l,
    Bot.change_contact ["Jane"; "1234567890"; "0987654321"] phone_book
    = (inr "Phone number updated for Jane.", w')
    /\ data w' = data phone_book
    /\ phone_numbers (store w' 0%nat) = l ++ ["0987654321"]
    /\ ~ In "1234567890" (l ++ ["0987654321"])
    /\ forall n, n <> "1234567890" ->
                 (In n l <-> In n (phone_numbers (store phone_book 0%nat))).
Proof.
  apply (change_contact_replaces phone_book "Jane" "1234567890" "0987654321"
           0%nat []).
  - reflexivity.
  - simpl. repeat constructor. simpl. tauto.
  - simpl. tauto.
  - reflexivity.
  - simpl. intros [H|[]]. discriminate H.
Defined.

(** *** Commands that only read *)

Lemma same_book_refl (w : world) : same_book w w.
Proof. repeat split. Qed.

Lemma same_book_on_gets {A : Type} (record : ref) (f : Record_ -> A) (w : world) :
  same_book w (snd (on record (gets f) w)).
Proof.
  unfold on, gets. cbn [snd]. repeat split. intros r. cbn [store].
  destruct (Nat.eqb_spec r record) as [->|]; reflexivity.
Qed.

(** X18.  The commands [phone], [show-birthday], [all] and [birthdays]
    only read: whatever their arguments and whatever they answer, the
    book afterwards has the same dictionary and the same records. *)
Theorem reading_commands_keep_book (today : date) (args : list string) (w : world) :
  same_book w (snd (Bot.show_phone args w))
  /\ same_book w (snd (Bot.show_birthday args w))
  /\ same_book w (snd (Bot.show_all w))
  /\ same_book w (snd (Bot.birthdays today args w)).
Proof.
  split; [|split; [|split]].
  - unfold Bot.show_phone, Bot.input_error, Bot.show_phone_body, bind,
      Bot.unpack1, raise, ret, find, gets.
    destruct args as [|name rest]; [apply same_book_refl|].
    destruct (dict_get name (data w)) as [record|]; [|apply same_book_refl].
    pose proof (same_book_on_gets record phones w) as H.
    unfold on, gets in *. cbn in *.
    destruct (phones (store w record)); exact H.
  - unfold Bot.show_birthday, Bot.input_error, Bot.show_birthday_body, bind,
      Bot.unpack1, raise, ret, find, gets.
    destruct args as [|name rest]; [apply same_book_refl|].
    destruct (dict_get name (data w)) as [record|]; [|apply same_book_refl].
    pose proof (same_book_on_gets record birthday w) as H.
    unfold on, gets in *. cbn in *.
    destruct (birthday (store w record)); exact H.
  - unfold Bot.show_all. destruct (data w); apply same_book_refl.
  - unfold Bot.birthdays, Bot.input_error, Bot.birthdays_body, bind,
      get_upcoming_birthdays, ret.
    destruct (upcoming_birthdays_of today (values w)) as [[]|[|it l]];
      apply same_book_refl.
Qed.

(** X19.  For a contact of the book and a text the constructor of
    [Birthday] rejects, [add-birthday] answers "Invalid date format. Use
    DD.MM.YYYY." and the book, with the earlier birthday of the contact,
    is as it was. *)
Theorem add_birthday_rejected (w : world) (name birthday_str : string)
        (record : ref) (rest : list string) (e : exn) :
  dict_get name (data w) = Some record ->
  Birthday.__init__ birthday_str = inl e ->
  exists w',
    Bot.add_birthday (name :: birthday_str :: rest) w
    = (inr "Invalid date format. Use DD.MM.YYYY.", w')
    /\ same_book w w'.
Proof.
  intros Hfind Hbad. pose proof (Birthday_init_error _ _ Hbad) as ->.
  unfold Bot.add_birthday, Bot.input_error, Bot.add_birthday_body.
  unfold bind, Bot.unpack2, ret, find, gets, on, add_birthday, lift.
  rewrite Hfind. cbv beta iota zeta. rewrite Hbad.
  eexists. split; [reflexivity|]. repeat split. intros r. cbn [store].
  destruct (Nat.eqb_spec r record) as [->|]; reflexivity.
Qed.

Lemma add_birthday_rejected_witness :
  exists w',
    Bot.add_birthday ["Mark"; "31.04.2024"] scenario_book
    = (inr "Invalid date format. Use DD.MM.YYYY.", w')
    /\ same_book scenario_book w'.
Proof.
  apply (add_birthday_rejected scenario_book "Mark" "31.04.2024" 1%nat []
           (ValueError "Invalid date format. Use DD.MM.YYYY.")); reflexivity.
Defined.

(** ** Reading a command line *)

Lemma blank_free_append (a b : string) :
  blank_free (a +++ b) = blank_free a && blank_free b.
Proof.
  induction a as [|c a IH]; simpl; [reflexivity|]. now rewrite IH, andb_assoc.
Qed.

Lemma nonempty_append_char (tok : string) (c : ascii) :
  Bot.nonempty (tok +++ String c EmptyString) = true.
Proof. destruct tok; reflexivity. Qed.

Lemma split_from_tokens (s : string) :
  forall tok t,
    blank_free tok = true -> In t (Bot.split_from tok s) ->
    Bot.nonempty t = true /\ blank_free t = true.
Proof.
  induction s as [|c s IH]; intros tok t Htok; cbn [Bot.split_from].
  - destruct (Bot.nonempty tok) eqn:E; [|intros []].
    intros [<-|[]]. auto.
  - destruct (Bot.is_space c) eqn:Ec.
    + destruct (Bot.nonempty tok) eqn:E.
      * intros [<-|H]; [auto|]. now apply (IH EmptyString).
      * now apply (IH EmptyString).
    + apply IH. rewrite blank_free_append, Htok. simpl. now rewrite Ec.
Qed.

Lemma split_from_nil (s : string) :
  forall tok,
    Bot.split_from tok s = []
    <-> (Bot.nonempty tok = false /\ all_blank s = true).
Proof.
  induction s as [|c s IH]; intros tok; cbn [Bot.split_from all_blank].
  - destruct (Bot.nonempty tok); split; try discriminate; try tauto.
    intros [H _]. discriminate H.
  - destruct (Bot.is_space c) eqn:Ec; cbn [andb].
    + destruct (Bot.nonempty tok) eqn:E.
      * split; [discriminate | intros [H _]; discriminate H].
      * rewrite (IH EmptyString). tauto.
    + rewrite IH, nonempty_append_char. split; [intros [H _] | intros [_ H]];
        discriminate H.
Qed.

Lemma lstrip_blank_free (s : string) : blank_free s = true -> Bot.lstrip s = s.
Proof.
  destruct s as [|c s]; simpl; [reflexivity|].
  destruct (Bot.is_space c); [discriminate | reflexivity].
Qed.

Lemma rstrip_blank_free (s : string) : blank_free s = true -> Bot.rstrip s = s.
Proof.
  induction s as [|c s IH]; simpl; [reflexivity|].
  destruct (Bot.is_space c); [discriminate|]. simpl. intros H. now rewrite IH.
Qed.

Lemma strip_blank_free (s : string) : blank_free s = true -> Bot.strip s = s.
Proof.
  intros H. unfold Bot.strip. rewrite lstrip_blank_free by assumption.
  now apply rstrip_blank_free.
Qed.

Lemma lower_char_idempotent (c : ascii) :
  Bot.lower_char (Bot.lower_char c) = Bot.lower_char c.
Proof. destruct c as [[] [] [] [] [] [] [] []]; reflexivity. Qed.

Lemma lower_idempotent (s : string) : Bot.lower (Bot.lower s) = Bot.lower s.
Proof.
  induction s as [|c s IH]; simpl; [reflexivity|].
  now rewrite lower_char_idempotent, IH.
Qed.

Lemma parse_input_blank (user_input : string) :
  all_blank user_input = true ->
  Bot.parse_input user_input = inl (Bot.not_enough 1 O).
Proof.
  intros H. unfold Bot.parse_input, Bot.split.
  assert (E : Bot.split_from EmptyString user_input = [])
    by (apply split_from_nil; auto).
  now rewrite E.
Qed.

(** X20.  [parse_input] raises the [ValueError] of unpacking exactly on
    the lines that hold blanks only (the empty line among them).  On
    every other line it returns the first word in lower case as the
    command, with no surrounding blank to strip, and the other words as
    arguments; every word is non-empty and has no blank in it. *)
Theorem parse_input_outcome (user_input : string) :
  (all_blank user_input = true ->
   Bot.parse_input user_input = inl (Bot.not_enough 1 O))
  /\ (all_blank user_input = false ->
      exists tok args,
        Bot.split user_input = tok :: args
        /\ Bot.parse_input user_input = inr (Bot.lower tok, args)
        /\ Bot.lower (Bot.lower tok) = Bot.lower tok
        /\ forall a, In a (tok :: args) ->
                     Bot.nonempty a = true /\ blank_free a = true).
Proof.
  split; [apply parse_input_blank|].
  unfold Bot.parse_input, Bot.split.
  - intros H.
    destruct (Bot.split_from EmptyString user_input) as [|tok args] eqn:E.
    + apply split_from_nil in E. destruct E as [_ E]. congruence.
    + assert (Ht : forall a, In a (tok :: args) ->
                             Bot.nonempty a = true /\ blank_free a = true).
      { intros a Ha. apply (split_from_tokens user_input EmptyString a eq_refl).
        now rewrite E. }
      exists tok, args. split; [reflexivity|].
      rewrite strip_blank_free by (apply Ht; now left).
      split; [reflexivity|]. split; [apply lower_idempotent | exact Ht].
Qed.

Lemma parse_input_outcome_witness :
  Bot.parse_input "   " = inl (Bot.not_enough 1 O)
  /\ exists tok args,
      Bot.split " ADD  Jane 12345 " = tok :: args
      /\ Bot.parse_input " ADD  Jane 12345 " = inr (Bot.lower tok, args)
      /\ Bot.lower (Bot.lower tok) = Bot.lower tok
      /\ forall a, In a (tok :: args) ->
                   Bot.nonempty a = true /\ blank_free a = true.
Proof.
  destruct (parse_input_outcome "   ") as [A _].
  destruct (parse_input_outcome " ADD  Jane 12345 ") as [_ B].
  split; [apply A | apply B]; reflexivity.
Defined.

(** X21.  A line of blanks that is not empty ends the console loop: the
    [ValueError] of [parse_input] is raised outside every handler,
    nothing is printed for the line and the rest of the input is not
    read.  The empty line only prints "Please enter a command." and the
    loop goes on with the same book. *)
Theorem blank_line_ends_loop (today : date) (user_input : string)
        (rest : list string) (w : world) :
  user_input <> EmptyString ->
  all_blank user_input = true ->
  Bot.main_loop today (user_input :: rest) w = ([], Some (Bot.not_enough 1 O))
  /\ Bot.main_loop today (EmptyString :: rest) w
     = (let '(outs, e) := Bot.main_loop today rest w in
        ("Please enter a command." :: outs, e)).
Proof.
  intros Hne Hb. split; [|reflexivity].
  pose proof (parse_input_blank user_input Hb) as Hp.
  cbn [Bot.main_loop]. unfold Bot.main_iteration.
  rewrite (nonempty_true user_input Hne). cbn [negb].
  unfold bind, lift. rewrite Hp. reflexivity.
Qed.

Lemma blank_line_ends_loop_witness :
  Bot.main_loop scenario_today ["  "; "hello"; "exit"] empty_world
  = ([], Some (Bot.not_enough 1 O))
  /\ Bot.main_loop scenario_today [EmptyString; "hello"; "exit"] empty_world
     = (let '(outs, e) := Bot.main_loop scenario_today ["hello"; "exit"] empty_world in
        ("Please enter a command." :: outs, e)).
Proof.
  apply (blank_line_ends_loop scenario_today "  " ["hello"; "exit"] empty_world).
  - discriminate.
  - reflexivity.
Defined.

(** X22.  A line whose first word is [exit] or [close], in any mix of
    upper and lower case, ends the console loop normally: "Good bye!" is
    printed, the other words of the line are ignored, the book is not
    used and the rest of the input is not read. *)
Theorem exit_ends_loop (today : date) (user_input tok : string)
        (args rest : list string) (w : world) :
  Bot.split user_input = tok :: args ->
  Bot.lower tok = "exit" \/ Bot.lower tok = "close" ->
  Bot.main_loop today (user_input :: rest) w = (["Good bye!"], None).
Proof.
  intros Hs Hc.
  assert (Hne : user_input <> EmptyString) by (intros ->; discriminate Hs).
  assert (Ht : blank_free tok = true).
  { apply (split_from_tokens user_input EmptyString tok eq_refl).
    unfold Bot.split in Hs. rewrite Hs. now left. }
  cbn [Bot.main_loop]. unfold Bot.main_iteration.
  rewrite (nonempty_true user_input Hne). cbn [negb].
  unfold bind, lift, Bot.parse_input. rewrite Hs, (strip_blank_free tok Ht).
  destruct Hc as [-> | ->]; reflexivity.
Qed.

Lemma exit_ends_loop_witness :
  Bot.main_loop scenario_today ["  ExIt now please"; "add Jane 1"] empty_world
  = (["Good bye!"], None).
Proof.
  apply (exit_ends_loop scenario_today "  ExIt now please" "ExIt" ["now"; "please"]
           ["add Jane 1"] empty_world).
  - reflexivity.
  - left. reflexivity.
Defined.

(** ** The book stays well formed *)

Lemma wf_ret {A : Type} (a : A) : keeps_wf (ret a).
Proof. intros w H. exact H. Qed.

Lemma wf_raise {A : Type} (e : exn) : keeps_wf (@raise world A e).
Proof. intros w H. exact H. Qed.

Lemma wf_gets {A : Type} (f : world -> A) : keeps_wf (gets f).
Proof. intros w H. exact H. Qed.

Lemma wf_lift {A : Type} (r : exn + A) : keeps_wf (lift r).
Proof. intros w H. exact H. Qed.

Lemma wf_bind {A B : Type} (m : M A) (k : A -> M B) :
  keeps_wf m -> (forall a, keeps_wf (k a)) -> keeps_wf (bind m k).
Proof.
  intros Hm Hk w H. unfold bind. specialize (Hm w H).
  destruct (m w) as [[e|a] w1]; [exact Hm|]. now apply Hk.
Qed.

Lemma wf_on {A : Type} (record : ref) (m : RM A) :
  (forall self, name (snd (m self)) = name self) -> keeps_wf (on record m).
Proof.
  intros Hm w [Hk [Hr He]]. unfold on. specialize (Hm (store w record)).
  destruct (m (store w record)) as [res self']. cbn [snd] in *.
  split; [exact Hk|]. split; [exact Hr|].
  intros k r Hin. cbn [data store next] in *. destruct (He k r Hin) as [Hn Hlt].
  split; [|exact Hlt].
  destruct (Nat.eqb_spec r record) as [->|]; [congruence | exact Hn].
Qed.

Lemma wf_input_error {A : Type} (func : A -> M string) (args : A) :
  keeps_wf (func args) -> keeps_wf (Bot.input_error func args).
Proof.
  intros Hf w H. unfold Bot.input_error. specialize (Hf w H).
  destruct (func args w) as [[[]|msg] w1]; exact Hf.
Qed.

Lemma task02_add_phone_name (n : string) (self : Record_) :
  name (snd (Task02.add_phone n self)) = name self.
Proof.
  rewrite task02_add_phone_eq.
  destruct (first_with_value n (phones self)); [reflexivity|].
  destruct (ten_digits n); reflexivity.
Qed.

Lemma task02_edit_phone_name (old new : string) (self : Record_) :
  name (snd (Task02.edit_phone old new self)) = name self.
Proof.
  rewrite task02_edit_phone_eq.
  destruct (first_with_value old (phones self)) as [p|]; [|reflexivity].
  destruct (first_with_value new (phones self)); [reflexivity|].
  destruct (ten_digits new); [|reflexivity].
  destruct (list_remove p (phones self)); reflexivity.
Qed.

Lemma add_birthday_name (s : string) (self : Record_) :
  name (snd (add_birthday s self)) = name self.
Proof.
  unfold add_birthday, bind, lift, modify.
  destruct (Birthday.__init__ s); reflexivity.
Qed.

Lemma dict_set_absent (key : string) (v : ref) (d : list (string * ref)) :
  dict_get key d = None -> dict_set key v d = d ++ [(key, v)].
Proof.
  induction d as [|[k x] d IH]; simpl; [reflexivity|].
  destruct (String.eqb k key); [discriminate|]. intros H. now rewrite IH.
Qed.

(** A new record filed under a name that is not in the book. *)
Lemma new_contact_wf (w : world) (name : string) :
  book_wf w -> dict_get name (data w) = None ->
  book_wf (mkWorld
             (fun r => if Nat.eqb r (next w) then Record__init__ name else store w r)
             (S (next w)) (dict_set name (next w) (data w))).
Proof.
  intros [Hk [Hr He]] Hnone. rewrite (dict_set_absent _ _ _ Hnone).
  assert (Hfresh : ~ In (next w) (map snd (data w))).
  { intros F. apply in_map_iff in F. destruct F as [[k r] [E Hin]].
    cbn in E. subst r. destruct (He k (next w) Hin). lia. }
  split; [|split]; cbn [data store next].
  - rewrite map_app. cbn [map fst]. apply dict_get_none in Hnone.
    apply NoDup_app; [assumption | repeat constructor; auto |].
    intros x Hx [<-|[]]. contradiction.
  - rewrite map_app. cbn [map snd].
    apply NoDup_app; [assumption | repeat constructor; auto |].
    intros x Hx [<-|[]]. contradiction.
  - intros k r Hin. apply in_app_or in Hin. destruct Hin as [Hin|[E|[]]].
    + destruct (He k r Hin) as [Hn Hlt].
      destruct (Nat.eqb_spec r (next w)); [lia|]. split; [exact Hn | lia].
    + injection E as <- <-. rewrite Nat.eqb_refl. split; [reflexivity | lia].
Qed.

Ltac wf :=
  repeat first
    [ apply wf_ret | apply wf_raise | apply wf_gets | apply wf_lift
    | apply wf_bind; [|intros ?]
    | apply wf_on;
      first [ apply task02_add_phone_name | apply task02_edit_phone_name
            | apply add_birthday_name | intros ?; reflexivity ]
    | match goal with
      | |- keeps_wf (match ?x with _ => _ end) => destruct x
      | |- keeps_wf (if ?c then _ else _) => destruct c
      end ].

Lemma add_contact_wf (args : list string) : keeps_wf (Bot.add_contact args).
Proof.
  apply wf_input_error. intros w H. unfold Bot.add_contact_body.
  unfold bind at 1, Bot.unpack2, raise, ret.
  destruct args as [|nm [|phone rest]]; try exact H.
  unfold bind at 1, find, gets.
  destruct (dict_get nm (data w)) as [record|] eqn:E.
  - unfold bind at 1, ret.
    apply (wf_bind (if Bot.nonempty phone
                    then on record (Task02.add_phone phone) else ret tt)
                   (fun _ => ret "Contact updated.")); [wf | intros ?; wf | exact H].
  - unfold bind at 1 2 3, new_Record, add_record, modify, ret.
    cbn [store next data]. rewrite Nat.eqb_refl.
    apply (wf_bind (if Bot.nonempty phone
                    then on (next w) (Task02.add_phone phone) else ret tt)
                   (fun _ => ret "Contact added.")); [wf | intros ?; wf |].
    now apply new_contact_wf.
Qed.

Lemma change_contact_wf (args : list string) : keeps_wf (Bot.change_contact args).
Proof.
  apply wf_input_error. unfold Bot.change_contact_body, Bot.unpack3, find. wf.
Qed.

Lemma show_phone_wf (args : list string) : keeps_wf (Bot.show_phone args).
Proof.
  apply wf_input_error. unfold Bot.show_phone_body, Bot.unpack1, find. wf.
Qed.

Lemma add_birthday_wf (args : list string) : keeps_wf (Bot.add_birthday args).
Proof.
  apply wf_input_error. unfold Bot.add_birthday_body, Bot.unpack2, find. wf.
Qed.

Lemma show_birthday_wf (args : list string) : keeps_wf (Bot.show_birthday args).
Proof.
  apply wf_input_error. unfold Bot.show_birthday_body, Bot.unpack1, find. wf.
Qed.

Lemma birthdays_wf (today : date) (args : list string) :
  keeps_wf (Bot.birthdays today args).
Proof.
  apply wf_input_error. unfold Bot.birthdays_body.
  apply wf_bind; [intros w H; exact H|]. intros l. wf.
Qed.

Lemma show_all_wf : keeps_wf Bot.show_all.
Proof. intros w H. unfold Bot.show_all. destruct (data w); exact H. Qed.

Lemma main_iteration_wf (today : date) (user_input : string) :
  keeps_wf (Bot.main_iteration today user_input).
Proof.
  unfold Bot.main_iteration.
  destruct (negb (Bot.nonempty user_input)); [apply wf_ret|].
  apply wf_bind; [apply wf_lift|]. intros [command args].
  repeat match goal with
         | |- keeps_wf (if ?c then _ else _) => destruct c
         end;
    try apply wf_ret;
    (apply wf_bind; [|intros ?; apply wf_ret]).
  - apply add_contact_wf.
  - apply change_contact_wf.
  - apply show_phone_wf.
  - apply show_all_wf.
  - apply add_birthday_wf.
  - apply show_birthday_wf.
  - apply birthdays_wf.
Qed.

Lemma empty_world_wf : book_wf empty_world.
Proof.
  split; [constructor|]. split; [constructor|]. intros k r Hin. destruct Hin.
Qed.

(** X23.  The book of the console loop is always well formed: the empty
    book is, and every turn of the loop, whatever the line and whether a
    handler failed, leaves the names of the book distinct, every entry
    filed under the name of its record, and the records of different
    names different objects. *)
Theorem book_stays_well_formed (today : date) (user_input : string) (w : world) :
  book_wf empty_world
  /\ (book_wf w -> book_wf (snd (Bot.main_iteration today user_input w))).
Proof. split; [apply empty_world_wf | apply main_iteration_wf]. Qed.

Lemma book_stays_well_formed_witness :
  book_wf (snd (Bot.main_iteration scenario_today "add Bob 12345" empty_world)).
Proof.
  destruct (book_stays_well_formed scenario_today "add Bob 12345" empty_world)
    as [H0 H].
  apply H, H0.
Defined.

(** ** Texts without padding *)

Lemma rmatch_single (re : regex) (c : ascii) (rest : string) :
  re = re_d \/ re = re_m ->
  is_digit c = true -> c <> "0"%char ->
  exists tl,
    rmatch re (String c (String "." rest))
    = (String c EmptyString, String "." rest) :: tl.
Proof.
  intros Hre Hc H0. apply digit_cases in Hc.
  destruct Hre as [-> | ->];
    repeat (destruct Hc as [Hc|Hc]); subst c;
    try contradiction; eexists; reflexivity.
Qed.

Lemma int_one (c : ascii) :
  is_digit c = true -> int (String c EmptyString) = digit_value c.
Proof. intros H. unfold int, digit_value. cbn [int_from]. rewrite H. lia. Qed.

Lemma digit_value_bounds (c : ascii) :
  is_digit c = true -> 0 <= digit_value c <= 9.
Proof.
  intros H. apply digit_cases in H.
  repeat (destruct H as [H|H]); subst c; vm_compute; split; discriminate.
Qed.

Lemma digit_value_positive (c : ascii) :
  is_digit c = true -> c <> "0"%char -> 1 <= digit_value c <= 9.
Proof.
  intros H H0. apply digit_cases in H.
  repeat (destruct H as [H|H]); subst c; try contradiction;
    vm_compute; split; discriminate.
Qed.

(** X24.  The constructor of [Birthday] does not insist on the padding
    its message asks for: a text D.M.YYYY with a day and a month of one
    digit from 1 to 9 and a year from 0001 to 9999 is accepted, and the
    text is kept as it was given. *)
Theorem Birthday_accepts_unpadded (d1 m1 y1 y2 y3 y4 : ascii) :
  let s := String d1 (String "." (String m1 (String "."
             (String y1 (String y2 (String y3 (String y4 EmptyString))))))) in
  let y := 1000 * digit_value y1 + 100 * digit_value y2 + 10 * digit_value y3
           + digit_value y4 in
  forallb is_digit [d1; m1; y1; y2; y3; y4] = true ->
  d1 <> "0"%char -> m1 <> "0"%char -> 1 <= y ->
  Birthday.__init__ s
  = inr (Birthday.mk s (mkdate y (digit_value m1) (digit_value d1))).
Proof.
  cbv zeta. intros Hd Hd0 Hm0 Hy. cbn [forallb] in Hd.
  repeat (let H := fresh "Hc" in apply andb_prop in Hd; destruct Hd as [H Hd]).
  clear Hd.
  pose proof (digit_value_positive d1 Hc Hd0) as Bd.
  pose proof (digit_value_positive m1 Hc0 Hm0) as Bm.
  pose proof (digit_value_bounds y1 Hc1) as B1.
  pose proof (digit_value_bounds y2 Hc2) as B2.
  pose proof (digit_value_bounds y3 Hc3) as B3.
  pose proof (digit_value_bounds y4 Hc4) as B4.
  destruct (rmatch_single re_d d1 (String m1 (String "."
              (String y1 (String y2 (String y3 (String y4 EmptyString))))))
              (or_introl eq_refl) Hc Hd0) as [tld Ed].
  destruct (rmatch_single re_m m1
              (String y1 (String y2 (String y3 (String y4 EmptyString))))
              (or_intror eq_refl) Hc0 Hm0) as [tlm Em].
  unfold Birthday.__init__, strptime_dmY, format_matches.
  rewrite Ed. cbn [flat_map]. rewrite rmatch_dot. cbn [flat_map].
  rewrite Em. cbn [flat_map]. rewrite rmatch_dot. cbn [flat_map].
  rewrite rmatch_year by assumption. cbn [map app String.eqb negb].
  rewrite !int_one, int_four by assumption.
  remember (1000 * digit_value y1 + 100 * digit_value y2 + 10 * digit_value y3
            + digit_value y4) as y eqn:Ey.
  rewrite new_date_valid; [reflexivity|].
  unfold valid_date, MINYEAR, MAXYEAR, _days_in_month. cbn [year month day].
  assert (Hdim : 28 <= (if (digit_value m1 =? 2) && _is_leap y then 29
                        else _DAYS_IN_MONTH (digit_value m1))).
  { destruct ((digit_value m1 =? 2) && _is_leap y); [lia|].
    assert (Hm : digit_value m1 = 1 \/ digit_value m1 = 2 \/ digit_value m1 = 3
                 \/ digit_value m1 = 4 \/ digit_value m1 = 5 \/ digit_value m1 = 6
                 \/ digit_value m1 = 7 \/ digit_value m1 = 8 \/ digit_value m1 = 9)
      by lia.
    repeat (destruct Hm as [Hm|Hm]); rewrite Hm; cbn; lia. }
  repeat (apply andb_true_intro; split); apply Z.leb_le; lia.
Qed.

Lemma Birthday_accepts_unpadded_witness :
  Birthday.__init__ "5.3.1990" = inr (Birthday.mk "5.3.1990" (mkdate 1990 3 5)).
Proof.
  apply (Birthday_accepts_unpadded "5" "3" "1" "9" "9" "0").
  - reflexivity.
  - discriminate.
  - discriminate.
  - vm_compute. discriminate.
Defined.

(** ** Duplicates in the variant of task 01 *)

(** X25.  The variant of task 01 has no check for duplicates: adding a
    10-digit number twice returns both times and leaves the number on
    the record twice more, whatever the record held. *)
Theorem task01_add_phone_twice (self : Record_) (n : string) :
  ten_digits n = true ->
  exists self1,
    Task01.add_phone n self = (inr tt, self1)
    /\ Task01.add_phone n self1
       = (inr tt, set_phones (phones self ++ [Phone.mk n; Phone.mk n]) self).
Proof.
  intros Hv. eexists. split.
  - rewrite task01_add_phone_eq, Hv. reflexivity.
  - rewrite task01_add_phone_eq, Hv. cbn [phones set_phones name birthday].
    now rewrite <- app_assoc.
Qed.

Lemma task01_add_phone_twice_witness :
  exists self1,
    Task01.add_phone "0123456789" (Record__init__ "Ann") = (inr tt, self1)
    /\ Task01.add_phone "0123456789" self1
       = (inr tt,
          set_phones (phones (Record__init__ "Ann")
                      ++ [Phone.mk "0123456789"; Phone.mk "0123456789"])
                     (Record__init__ "Ann")).
Proof.
  apply (task01_add_phone_twice (Record__init__ "Ann") "0123456789"). reflexivity.
Defined.

(** ** The command [all] *)

(** X26.  On the empty book [all] answers "No contacts available.".
    After [add] of a new name with a 10-digit number and [add-birthday]
    with a date text DD.MM.YYYY of a real date, [all] on a book that
    was empty prints the one contact with its name, its number and the
    birthday text as given. *)
Theorem all_shows_the_contact (nm phone s : string) (d : date) :
  ten_digits phone = true ->
  read_DDMMYYYY s = Some d -> valid_date d = true ->
  fst (Bot.show_all empty_world) = inr "No contacts available."
  /\ exists w1 w2,
      Bot.add_contact [nm; phone] empty_world = (inr "Contact added.", w1)
      /\ Bot.add_birthday [nm; s] w1 = (inr ("Birthday added for " +++ nm +++ "."), w2)
      /\ fst (Bot.show_all w2)
         = inr ("Contact name: " +++ nm +++ ", phones: " +++ phone
                +++ ", birthday: " +++ s).
Proof.
  intros Hv Hs Hd. split; [reflexivity|].
  assert (Hne : phone <> EmptyString) by (intros ->; discriminate Hv).
  unfold Bot.add_contact, Bot.input_error, Bot.add_contact_body.
  unfold bind, Bot.unpack2, ret, find, gets, new_Record, add_record, modify, on.
  cbn [data empty_world dict_get]. rewrite (nonempty_true phone Hne).
  cbv beta iota zeta. rewrite task02_add_phone_eq.
  cbn [store next data empty_world Nat.eqb phones Record__init__ first_with_value].
  rewrite Hv. eexists. eexists. split; [reflexivity|].
  unfold Bot.add_birthday, Bot.input_error, Bot.add_birthday_body.
  unfold bind, Bot.unpack2, ret, find, gets, on, add_birthday, lift, modify.
  cbn [data dict_set dict_get]. change (name (Record__init__ nm)) with nm.
  rewrite String.eqb_refl.
  cbv beta iota zeta. unfold bind. rewrite (Birthday_init_DDMMYYYY s d Hs Hd).
  split; [reflexivity|].
  unfold Bot.show_all, values, Record__str__. reflexivity.
Qed.

Lemma all_shows_the_contact_witness :
  fst (Bot.show_all empty_world) = inr "No contacts available."
  /\ exists w1 w2,
      Bot.add_contact ["Jane"; "1234567890"] empty_world = (inr "Contact added.", w1)
      /\ Bot.add_birthday ["Jane"; "14.07.1995"] w1
         = (inr "Birthday added for Jane.", w2)
      /\ fst (Bot.show_all w2)
         = inr "Contact name: Jane, phones: 1234567890, birthday: 14.07.1995".
Proof.
  apply (all_shows_the_contact "Jane" "1234567890" "14.07.1995" (mkdate 1995 7 14));
    reflexivity.
Defined.
